(** * Event normalisation, classification, authorisation and reply fallback
      of the Discord bot framework (lib/User.js, lib/UnifiedInteraction.js,
      lib/Command.js, lib/DiscordBot.js), as a shallow embedding.

    Conventions of the embedding.
    - A JavaScript value that is either absent (undefined / null) or an
      object is an [option]; a string-valued property that is tested for
      truthiness is an [option string] and the empty string is falsy, as in
      JavaScript.
    - Objects that the code mutates ([UnifiedInteraction], the listener table
      of the bot) are threaded explicitly.
    - Platform calls, log lines, emitted notifications and handler
      invocations are recorded, in program order, in a trace of [Effect]s;
      a thrown exception (or a rejected promise that is awaited) is the
      [Throw] outcome of the small writer/exception monad [Eff]. *)

From Stdlib Require Import Ascii String List Bool Arith ZArith Lia.
From stdpp Require Import base option list gmap strings.

Local Open Scope string_scope.
Local Open Scope list_scope.

(** ** JavaScript string primitives used by the sources *)

Module Js.

(** [s.startsWith(p)] *)
Definition startsWith (s p : string) : bool := String.prefix p s.

(** [s.slice(n)] for [0 <= n] *)
Fixpoint slice (s : string) (n : nat) : string :=
  match n, s with
  | O, _ => s
  | S n', String _ s' => slice s' n'
  | S _, EmptyString => EmptyString
  end.

(** [s.split(sep)[0]] for a one-character separator: the characters
    before the first occurrence of [sep]. *)
Fixpoint splitHead (sep : ascii) (s : string) : string :=
  match s with
  | EmptyString => EmptyString
  | String c s' =>
      if Ascii.eqb c sep then EmptyString else String c (splitHead sep s')
  end.

(** [s.includes(p)] *)
Fixpoint includes (s p : string) : bool :=
  String.prefix p s ||
  match s with
  | EmptyString => false
  | String _ s' => includes s' p
  end.

(** [c.toLowerCase()] on one code unit; the embedding covers the ASCII
    letters, every other code unit is left as it is. *)
Definition lowerAscii (c : ascii) : ascii :=
  let n := nat_of_ascii c in
  if Nat.leb 65 n && Nat.leb n 90 then ascii_of_nat (n + 32) else c.

(** [s.toLowerCase()] *)
Fixpoint toLowerCase (s : string) : string :=
  match s with
  | EmptyString => EmptyString
  | String c s' => String (lowerAscii c) (toLowerCase s')
  end.

(** [ToInt32] on an integral number: the value modulo 2^32, read as a
    signed 32-bit integer. *)
Definition toInt32 (z : Z) : Z :=
  ((z + 2147483648) mod 4294967296 - 2147483648)%Z.

(** [a | b] on integral numbers: both operands are taken to 32 bits. *)
Definition bitOr (a b : Z) : Z := Z.lor (toInt32 a) (toInt32 b).

(** Truthiness of a possibly absent string: absent and [''] are falsy. *)
Definition truthy (v : option string) : bool :=
  match v with
  | Some s => negb (String.eqb s EmptyString)
  | None => false
  end.

(** [v || undefined] on a possibly absent string. *)
Definition orUndefined (v : option string) : option string :=
  if truthy v then v else None.

(** A template-literal hole [${v}] for a value that may be [undefined]. *)
Definition showUndef (v : option string) : string :=
  match v with Some s => s | None => "undefined" end.

(** The double-quote character, as a one-character string. *)
Definition dquote : string := String (ascii_of_nat 34) EmptyString.

(** A template-literal hole [${v}] for a value that may be [null]. *)
Definition showNull (v : option string) : string :=
  match v with Some s => s | None => "null" end.

End Js.

(** ** Platform payloads (discord.js objects, as far as the code reads them) *)

Record Role := mkRole { role_id : string; role_name : string }.

Record RawUser := mkRawUser {
  user_id : string;
  user_username : string;
  user_bot : bool
}.

(** A guild member: [member.user], [member.nickname], [member.roles.cache]. *)
Record Member := mkMember {
  member_user : RawUser;
  member_nickname : option string;
  member_roles : list Role
}.

(** A guild: its name and [guild.members.cache], keyed by user id. *)
Record Guild := mkGuild {
  guild_name : string;
  guild_members : gmap string Member
}.

(** The [guild] property of a raw event: missing, explicitly [null], or a
    guild object. *)
Inductive GuildField :=
| GuildUndefined
| GuildNull
| GuildObject (g : Guild).

(** JavaScript truthiness of the [guild] property. *)
Definition guildTruthy (g : GuildField) : option Guild :=
  match g with
  | GuildObject o => Some o
  | _ => None
  end.

(** ** Exceptions and the effect trace *)

Inductive JsError :=
| TypeError (msg : string)
| Error (msg : string).

Inductive Outcome (A : Type) :=
| Ok (a : A)
| Throw (e : JsError).
Arguments Ok {A} a.
Arguments Throw {A} e.

Inductive LogLevel := LInfo | LWarn | LError | LDebug.

Inductive Effect :=
| Log (level : LogLevel) (msg : string)
| RawFetch
| RawReply (content : string) (ephemeral : bool)
| RawEditReply (content : string) (ephemeral : bool)
| RawFollowUp (content : string) (ephemeral : bool)
| Emit (key : string)
| Invoke (command : string) (eventType : string).

Definition Eff (A : Type) : Type := list Effect * Outcome A.

Definition ret {A} (a : A) : Eff A := ([], Ok a).
Definition throw {A} (e : JsError) : Eff A := ([], Throw e).
Definition tell (e : Effect) : Eff unit := ([e], Ok tt).
Definition lift {A} (o : Outcome A) : Eff A := ([], o).

Definition bind {A B} (m : Eff A) (k : A -> Eff B) : Eff B :=
  match m with
  | (t, Ok a) => let '(t', r) := k a in (t ++ t', r)
  | (t, Throw e) => (t, Throw e)
  end.

(** [try { m } catch (e) { h e }] *)
Definition tryCatch {A} (m : Eff A) (h : JsError -> Eff A) : Eff A :=
  match m with
  | (t, Ok a) => (t, Ok a)
  | (t, Throw e) => let '(t', r) := h e in (t ++ t', r)
  end.

Declare Scope eff_scope.
Delimit Scope eff_scope with eff.
Notation "x <- m ;; k" := (bind m (fun x => k))
  (at level 100, m at next level, right associativity, only parsing) : eff_scope.
Notation "m >>> k" := (bind m (fun _ => k))
  (at level 100, right associativity, only parsing) : eff_scope.

Definition trace {A} (m : Eff A) : list Effect := fst m.
Definition outcome {A} (m : Eff A) : Outcome A := snd m.

Definition errorMessage (e : JsError) : string :=
  match e with TypeError m => m | Error m => m end.

(** ** lib/User.js *)

Module User.

Record t := mk {
  member : option Member;
  user : RawUser;
  userId : string;
  originalNickname : option string;
  currentNickname : option string;
  initialized : bool;
  isBot : bool
}.

(** The object under construction: [this] between the statements of the
    constructor, where [user] and [userId] are not assigned yet. *)
Record Partial := mkPartial {
  p_member : option Member;
  p_user : option RawUser;
  p_userId : option string;
  p_originalNickname : option string;
  p_currentNickname : option string;
  p_initialized : bool
}.

(** [if (user && guild) { this.member = guild.members.cache.get(user.id) }
     else if (member) { this.member = member }] *)
Definition pickMember (member0 : option Member) (user0 : option RawUser)
    (guild0 : GuildField) : option Member :=
  match user0, guildTruthy guild0 with
  | Some u, Some g => guild_members g !! user_id u
  | _, _ => member0
  end.

(** [if (!this.member) { ... }]: reading [user.id] on an absent [user] is
    the TypeError JavaScript raises for a property of [undefined]. *)
Definition initFromUser (user0 : option RawUser) (p : Partial) : Outcome Partial :=
  match p_member p with
  | Some _ => Ok p
  | None =>
      match user0 with
      | None => Throw (TypeError "Cannot read properties of undefined (reading 'id')")
      | Some u =>
          Ok {| p_member := None; p_user := Some u; p_userId := Some (user_id u);
                p_originalNickname := Some EmptyString;
                p_currentNickname := Some EmptyString;
                p_initialized := true |}
      end
  end.

(** [if (this.member) { ... }] *)
Definition initFromMember (p : Partial) : Partial :=
  match p_member p with
  | None => p
  | Some m =>
      {| p_member := Some m; p_user := Some (member_user m);
         p_userId := Some (user_id (member_user m));
         p_originalNickname := member_nickname m;
         p_currentNickname := member_nickname m;
         p_initialized := true |}
  end.

(** [this.isBot = this.user.bot || false], then the [initialized] check. *)
Definition finish (p : Partial) : Outcome t :=
  match p_user p, p_userId p with
  | Some u, Some uid =>
      let isBot0 := user_bot u || false in
      if negb (p_initialized p)
      then Throw (Error "[Discord Bot] User class must be initialized with a member only or both a user and a guild")
      else Ok {| member := p_member p; user := u; userId := uid;
                 originalNickname := p_originalNickname p;
                 currentNickname := p_currentNickname p;
                 initialized := p_initialized p; isBot := isBot0 |}
  | _, _ => Throw (TypeError "Cannot read properties of undefined (reading 'bot')")
  end.

(** [constructor({ member, user, guild })] *)
Definition new (member0 : option Member) (user0 : option RawUser)
    (guild0 : GuildField) : Outcome t :=
  let p0 := {| p_member := pickMember member0 user0 guild0;
               p_user := None; p_userId := None;
               p_originalNickname := None; p_currentNickname := None;
               p_initialized := false |} in
  match initFromUser user0 p0 with
  | Throw e => Throw e
  | Ok p1 => finish (initFromMember p1)
  end.

(** [get roles()] *)
Definition roles (u : t) : list Role :=
  match member u with
  | None => []
  | Some m => member_roles m
  end.

(** [hasRole(roleNameOrId)] *)
Definition hasRole (u : t) (roleNameOrId : string) : bool :=
  existsb (fun r => String.eqb (role_name r) roleNameOrId
                    || String.eqb (role_id r) roleNameOrId) (roles u).

(** [hasOneOfRoles(roleNamesOrIds)] *)
Definition hasOneOfRoles (u : t) (roleNamesOrIds : list string) : bool :=
  existsb (fun r => hasRole u r) roleNamesOrIds.

End User.

(** ** lib/UnifiedInteraction.js *)

(** The raw platform event ([originalObject]).  A method that the object may
    lack ([isButton], [isSelectMenu]) is [None] when it is not a function
    and [Some b] when calling it returns [b].  The three reply methods carry
    the result the platform gives when they are called: [None] when the
    promise resolves, [Some msg] when the call fails with message [msg]
    (which covers a method that the object does not have).
    [raw_channelName] is the name of the event's [channel], [None] when the
    event has no channel. *)
Record RawEvent := mkRawEvent {
  raw_id : string;
  raw_content : option string;
  raw_locale : option string;
  raw_guildLocale : option string;
  raw_member : option Member;
  raw_user : option RawUser;
  raw_author : option RawUser;
  raw_guild : GuildField;
  raw_channelName : option string;
  raw_commandName : option string;
  raw_customId : option string;
  raw_isButton : option bool;
  raw_isSelectMenu : option bool;
  raw_mentions : option (gset string);
  raw_optionMember : gmap string Member;
  raw_optionUser : gmap string RawUser;
  raw_replyResult : option string;
  raw_editReplyResult : option string;
  raw_followUpResult : option string
}.

(** What the classifier and the dispatcher read of the bot: the configured
    prefix, the live set of message-command names, the identity of the
    logged-in account and the generic error text. *)
Record BotEnv := mkBotEnv {
  prefix : string;
  messageCommands : gset string;
  client_user_id : string;
  client_user_username : string;
  errorContent : string
}.

(** A value stored in [commandOptions]: an Actor for member and user
    options, the platform value otherwise (kept opaque). *)
Inductive OptionValue :=
| OptActor (u : User.t)
| OptPlatform.

Module UnifiedInteraction.

Record t := mk {
  bot : BotEnv;
  content : string;
  locale : string;
  author : User.t;
  guild : GuildField;
  isDM : bool;
  commandName : option string;
  isSlashCommand : bool;
  replied : bool;
  originalObject : RawEvent;
  commandOptions : gmap string OptionValue
}.

(** [a || b] on two possibly absent objects or strings. *)
Definition orElse {A} (a b : option A) : option A :=
  match a with Some _ => a | None => b end.

(** [guild === null] *)
Definition strictNull (g : GuildField) : bool :=
  match g with GuildNull => true | _ => false end.

(** [constructor(originalObject, bot)] *)
Definition new (o : RawEvent) (b : BotEnv) : Outcome t :=
  match User.new (raw_member o) (orElse (raw_user o) (raw_author o)) (raw_guild o) with
  | Throw e => Throw e
  | Ok a =>
      Ok {| bot := b;
            content := default EmptyString (Js.orUndefined (raw_content o));
            locale := default "default"
                        (orElse (Js.orUndefined (raw_locale o))
                                (Js.orUndefined (raw_guildLocale o)));
            author := a;
            guild := raw_guild o;
            isDM := strictNull (raw_guild o);
            commandName := Js.orUndefined (raw_commandName o);
            isSlashCommand := Js.truthy (raw_commandName o) || false;
            replied := false;
            originalObject := o;
            commandOptions := ∅ |}
  end.

(** [this.commandName = v] *)
Definition set_commandName (v : option string) (i : t) : t :=
  {| bot := bot i; content := content i; locale := locale i;
     author := author i; guild := guild i; isDM := isDM i;
     commandName := v; isSlashCommand := isSlashCommand i;
     replied := replied i; originalObject := originalObject i;
     commandOptions := commandOptions i |}.

(** [injectOptions(options)] *)
Definition injectOptions (options : gmap string OptionValue) (i : t) : t :=
  {| bot := bot i; content := content i; locale := locale i;
     author := author i; guild := guild i; isDM := isDM i;
     commandName := commandName i; isSlashCommand := isSlashCommand i;
     replied := replied i; originalObject := originalObject i;
     commandOptions := options |}.

(** [get isButton()] *)
Definition isButton (i : t) : bool :=
  Js.truthy (raw_customId (originalObject i))
  && match raw_isButton (originalObject i) with
     | Some b => b
     | None => false
     end.

(** [get buttonId()] *)
Definition buttonId (i : t) : option string :=
  if isButton i then raw_customId (originalObject i) else None.

(** [get isSelectMenu()] *)
Definition isSelectMenu (i : t) : bool :=
  Js.truthy (raw_customId (originalObject i))
  && match raw_isSelectMenu (originalObject i) with
     | Some b => b
     | None => false
     end.

(** [get selectMenuId()] *)
Definition selectMenuId (i : t) : option string :=
  if isSelectMenu i then raw_customId (originalObject i) else None.

(** A getter that may assign to a field of the object: it returns its
    value together with the object as it is afterwards. *)
Definition Getter (A : Type) : Type := t -> A * t.

Definition pureGetter {A} (f : t -> A) : Getter A := fun i => (f i, i).

(** [this.content.slice(this.bot.prefix.length).split(' ')[0]] *)
Definition possibleCommand (i : t) : string :=
  Js.splitHead " "%char (Js.slice (content i) (String.length (prefix (bot i)))).

(** [get isMessageCommand()]: on success it assigns [this.commandName]. *)
Definition isMessageCommand : Getter bool := fun i =>
  if negb (isSlashCommand i) && negb (isButton i)
     && Js.startsWith (content i) (prefix (bot i))
  then
    if bool_decide (possibleCommand i ∈ messageCommands (bot i))
    then (true, set_commandName (Some (possibleCommand i)) i)
    else (false, i)
  else (false, i).

(** [get isFromBot()] *)
Definition isFromBot (i : t) : bool := User.isBot (author i) || false.

(** [get isFromMe()] *)
Definition isFromMe (i : t) : bool :=
  String.eqb (User.userId (author i)) (client_user_id (bot i)).

(** [get isToMe()] *)
Definition isToMe (i : t) : bool :=
  match raw_mentions (originalObject i) with
  | None => false
  | Some users => bool_decide (client_user_id (bot i) ∈ users)
  end.

(** [get isMentioningMe()] *)
Definition isMentioningMe (i : t) : bool :=
  Js.includes (Js.toLowerCase (content i))
              (Js.toLowerCase (client_user_username (bot i))).

(** One [case guard: return body;] of a [switch (true)]. *)
Record Case := mkCase { guard : Getter bool; body : t -> string }.

(** [switch (true) { case g1: return b1; ... default: return undefined; }]:
    the guards are evaluated in order, each on the object as the previous
    guards left it, until one is [true]. *)
Fixpoint switchTrue (cs : list Case) (i : t) : option string * t :=
  match cs with
  | [] => (None, i)
  | c :: cs' =>
      let '(b, i1) := guard c i in
      if b then (Some (body c i1), i1) else switchTrue cs' i1
  end.

(** The cases of [get eventName()], in source order. *)
Definition eventCases : list Case :=
  [ mkCase (pureGetter isButton)
           (fun i => "button:" +:+ Js.showNull (buttonId i));
    mkCase (pureGetter isSelectMenu)
           (fun i => "selectMenu:" +:+ Js.showNull (selectMenuId i));
    mkCase (pureGetter isSlashCommand)
           (fun i => "slashCommand:" +:+ Js.showUndef (commandName i));
    mkCase isMessageCommand
           (fun i => "messageCommand:" +:+ Js.showUndef (commandName i));
    mkCase (pureGetter (fun i => isToMe i || isMentioningMe i))
           (fun _ => "mention");
    mkCase (pureGetter isDM)
           (fun _ => "directMessage");
    mkCase (pureGetter (fun i => negb (isToMe i) && negb (isMentioningMe i)))
           (fun _ => "message") ].

(** [get eventName()] *)
Definition eventName : Getter (option string) := switchTrue eventCases.

(** A call of a platform method whose result is [result]: the call is
    recorded, then it resolves or fails. *)
Definition platformCall (e : Effect) (result : option string) : Eff unit :=
  bind (tell e) (fun _ =>
    match result with
    | None => ret tt
    | Some msg => throw (Error msg)
    end).

(** The two [this.bot.warn] lines of a [catch] block of [reply]. *)
Definition warnFailed (what : string) (e : JsError) : Eff unit :=
  bind (tell (Log LWarn ("Failed to " +:+ what +:+ " to an interaction because "
                         +:+ Js.dquote +:+ errorMessage e +:+ Js.dquote)))
       (fun _ => tell (Log LWarn (errorMessage e))).

(** [async reply({ content, components = [], ephemeral = false })].
    [repliedWith] is the local variable of the source, threaded through the
    three [try] blocks: only the first one assigns it.  The [components] are
    handed to the platform unchanged and are not part of the recorded
    call. *)
Definition reply (i : t) (content0 : string) (ephemeral : bool) : Eff unit :=
  let o := originalObject i in
  (let repliedWith0 := "none" in
   repliedWith1 <-
     tryCatch
       (platformCall (RawReply content0 ephemeral) (raw_replyResult o) >>>
        ret "reply")
       (fun e => warnFailed "reply" e >>> ret repliedWith0) ;;
   repliedWith2 <-
     (if String.eqb repliedWith1 "none"
      then tryCatch
             (platformCall (RawEditReply content0 ephemeral) (raw_editReplyResult o) >>>
              ret repliedWith1)
             (fun e => warnFailed "editReply" e >>> ret repliedWith1)
      else ret repliedWith1) ;;
   repliedWith3 <-
     (if String.eqb repliedWith2 "none"
      then tryCatch
             (platformCall (RawFollowUp content0 ephemeral) (raw_followUpResult o) >>>
              ret repliedWith2)
             (fun e => warnFailed "followUp" e >>> ret repliedWith2)
      else ret repliedWith2) ;;
   (if String.eqb repliedWith3 "none"
    then throw (Error "failed to reply to interaction")
    else ret tt))%eff.

(** [async followUp({ content, embeds, ephemeral })] *)
Definition followUp (i : t) (content0 : string) (ephemeral : bool) : Eff unit :=
  if negb (replied i)
  then reply i content0 ephemeral
  else tryCatch
         (platformCall (RawFollowUp content0 ephemeral) (raw_followUpResult (originalObject i)))
         (fun e => bind (tell (Log LDebug (errorMessage e))) (fun _ => throw e)).

End UnifiedInteraction.

(** ** lib/Command.js *)

(** What a call [handler(interaction)] of user code does: it returns (a
    value, or a promise that resolves), throws before returning, or returns
    a promise that rejects. *)
Inductive HandlerResult :=
| Returns
| ThrowsSync (e : JsError)
| Rejects (e : JsError).

Definition Handler : Type := UnifiedInteraction.t -> HandlerResult.

(** [typeof h === 'function'] for a handler typed [function | undefined]. *)
Definition isFunction (h : option Handler) : bool :=
  match h with Some _ => true | None => false end.

(** How the promise returned by a listener settles. *)
Inductive Completion :=
| Settled
| Rejected (e : JsError).

(** Runs an asynchronous computation to its end and reports how its promise
    settled; nothing is thrown to the caller. *)
Definition promise (m : Eff unit) : Eff Completion :=
  tryCatch (bind m (fun _ => ret Settled)) (fun e => ret (Rejected e)).

Record OptionDef := mkOptionDef {
  opt_name : option string;
  opt_description : option string;
  opt_type : string;
  opt_nameLocalized : bool;
  opt_descriptionLocalized : bool;
  opt_choices : bool
}.

Record ApiRoute := mkApiRoute { route_method : string; route_path : string }.

(** The object given to [new Command({...})], typed as the [CommandDefinition]
    typedef of the source: a property with a default in the constructor's
    destructuring pattern is optional. *)
Record CommandDefinition := mkCommandDefinition {
  def_name : option string;
  def_description : option string;
  def_commandHandler : option Handler;
  def_buttonsHandler : option Handler;
  def_selectMenusHandler : option Handler;
  def_mentionHandler : option Handler;
  def_messageHandler : option Handler;
  def_dmHandler : option Handler;
  def_isSlashCommand : option bool;
  def_isMessageCommand : option bool;
  def_acceptDM : option bool;
  def_requiredRoles : option (list string);
  def_requireAllRoles : option bool;
  def_requiredRolesErrorMessage : option string;
  def_options : option (list OptionDef);
  def_buttonsHandheld : option (list string);
  def_selectMenusHandheld : option (list string);
  def_requiredPermissions : option (list Z);
  def_apiRoutes : option (list ApiRoute)
}.

Module Command.

Record t := mk {
  name : string;
  description : option string;
  commandHandler : option Handler;
  buttonsHandler : option Handler;
  selectMenusHandler : option Handler;
  mentionHandler : option Handler;
  messageHandler : option Handler;
  dmHandler : option Handler;
  isSlashCommand : bool;
  isMessageCommand : bool;
  acceptDM : bool;
  requiredRoles : list string;
  requireAllRoles : bool;
  requiredRolesErrorMessage : string;
  options : list OptionDef;
  buttonsHandheld : list string;
  selectMenusHandheld : list string;
  requiredPermissions : Z;
  apiRoutes : list ApiRoute
}.

Definition set_buttonsHandheld (v : list string) (c : t) : t :=
  {| name := name c; description := description c;
     commandHandler := commandHandler c; buttonsHandler := buttonsHandler c;
     selectMenusHandler := selectMenusHandler c;
     mentionHandler := mentionHandler c; messageHandler := messageHandler c;
     dmHandler := dmHandler c; isSlashCommand := isSlashCommand c;
     isMessageCommand := isMessageCommand c; acceptDM := acceptDM c;
     requiredRoles := requiredRoles c; requireAllRoles := requireAllRoles c;
     requiredRolesErrorMessage := requiredRolesErrorMessage c;
     options := options c; buttonsHandheld := v;
     selectMenusHandheld := selectMenusHandheld c;
     requiredPermissions := requiredPermissions c; apiRoutes := apiRoutes c |}.

Definition set_selectMenusHandheld (v : list string) (c : t) : t :=
  {| name := name c; description := description c;
     commandHandler := commandHandler c; buttonsHandler := buttonsHandler c;
     selectMenusHandler := selectMenusHandler c;
     mentionHandler := mentionHandler c; messageHandler := messageHandler c;
     dmHandler := dmHandler c; isSlashCommand := isSlashCommand c;
     isMessageCommand := isMessageCommand c; acceptDM := acceptDM c;
     requiredRoles := requiredRoles c; requireAllRoles := requireAllRoles c;
     requiredRolesErrorMessage := requiredRolesErrorMessage c;
     options := options c; buttonsHandheld := buttonsHandheld c;
     selectMenusHandheld := v;
     requiredPermissions := requiredPermissions c; apiRoutes := apiRoutes c |}.

Definition set_apiRoutes (v : list ApiRoute) (c : t) : t :=
  {| name := name c; description := description c;
     commandHandler := commandHandler c; buttonsHandler := buttonsHandler c;
     selectMenusHandler := selectMenusHandler c;
     mentionHandler := mentionHandler c; messageHandler := messageHandler c;
     dmHandler := dmHandler c; isSlashCommand := isSlashCommand c;
     isMessageCommand := isMessageCommand c; acceptDM := acceptDM c;
     requiredRoles := requiredRoles c; requireAllRoles := requireAllRoles c;
     requiredRolesErrorMessage := requiredRolesErrorMessage c;
     options := options c; buttonsHandheld := buttonsHandheld c;
     selectMenusHandheld := selectMenusHandheld c;
     requiredPermissions := requiredPermissions c; apiRoutes := v |}.

(** The event a listener was attached for, with the identifier its
    closure captured. *)
Inductive ListenerKind :=
| ButtonL (buttonId : string)
| SelectMenuL (selectMenuId : string)
| SlashL
| MessageCommandL
| MessageL
| MentionL
| DirectMessageL.

(** A listener attached with [this.bot.on(key, ...)]: the closure holds
    the command ([this]) and what it was attached for. *)
Record Listener := mkListener { l_command : t; l_kind : ListenerKind }.

(** The listener table of the bot's event emitter: for each event name,
    the listeners in the order they were attached. *)
Abbreviation Registry := (gmap string (list Listener)).

(** [emitter.on(key, listener)]: the listener is appended to the ones
    already attached for [key]. *)
Definition on (key : string) (l : Listener) (reg : Registry) : Registry :=
  <[key := default [] (reg !! key) ++ [l]]> reg.

(** The listeners attached for [key], in call order. *)
Definition listenersOf (reg : Registry) (key : string) : list Listener :=
  default [] (reg !! key).

Definition warn (msg : string) : Eff unit := tell (Log LWarn msg).
Definition info (msg : string) : Eff unit := tell (Log LInfo msg).
Definition error (msg : string) : Eff unit := tell (Log LError msg).

(** [_check()].  The definition is typed as the typedef says, so the
    branches that repair an ill-typed [buttonsHandheld] or a handler that
    is not a function have nothing to do and are left out. *)
Definition check (c : t) : Eff t :=
  ((if negb (Js.truthy (Some (name c)))
    then throw (Error "A command must have a name...")
    else ret tt) >>>
   (if negb (Js.truthy (description c))
    then throw (Error ("Command " +:+ name c +:+ " must have a description"))
    else ret tt) >>>
   c1 <- (if Nat.ltb 0 (length (buttonsHandheld c)) && negb (isFunction (buttonsHandler c))
          then warn ("You must provide a buttonsHandler function if you want to handle buttons in command "
                     +:+ name c) >>>
               ret (set_buttonsHandheld [] c)
          else ret c) ;;
   (if Nat.eqb (length (buttonsHandheld c1)) 0 && isFunction (buttonsHandler c1)
    then warn ("You have to declare which buttons the command " +:+ name c1 +:+ " handles")
    else ret tt) >>>
   c2 <- (if Nat.ltb 0 (length (selectMenusHandheld c1)) && negb (isFunction (selectMenusHandler c1))
          then warn ("You must provide a selectMenusHandler function if you want to handle select menus in command "
                     +:+ name c1) >>>
               ret (set_selectMenusHandheld [] c1)
          else ret c1) ;;
   (if Nat.eqb (length (buttonsHandheld c2)) 0 && isFunction (buttonsHandler c2)
    then warn ("You have to declare which buttons the command " +:+ name c2 +:+ " handles")
    else ret tt) >>>
   (if (isSlashCommand c2 || isMessageCommand c2) && negb (isFunction (commandHandler c2))
    then warn ("The " +:+ name c2 +:+ " command must have a commandHandler function")
    else ret tt) >>>
   ret c2)%eff.

(** The option types [_addOptions] and [_injectOptions] know, after
    [String(opt.type).toLowerCase()]. *)
Definition knownOptionType (ty : string) : bool :=
  bool_decide (Js.toLowerCase ty ∈
    ["attachment"; "boolean"; "channel"; "integer"; "number"; "decimal";
     "mentionable"; "string"; "member"; "user"; "role"]).

(** One turn of the [forEach] of [_addOptions()].  [builder] is an arrow
    function, so [builder.setNameLocalizations] and its two siblings are
    [undefined]: calling one is a TypeError. *)
Definition addOption (c : t) (opt : OptionDef) : Eff unit :=
  if negb (isSlashCommand c) then ret tt
  else if negb (Js.truthy (opt_name opt))
  then throw (Error ("Option must have a name in command " +:+ name c))
  else if negb (Js.truthy (opt_description opt))
  then throw (Error ("Option must have a description in command " +:+ name c))
  else if opt_nameLocalized opt
  then throw (TypeError "builder.setNameLocalizations is not a function")
  else if opt_descriptionLocalized opt
  then throw (TypeError "builder.setDescriptionLocalizations is not a function")
  else if opt_choices opt
  then throw (TypeError "builder.addChoices is not a function")
  else if knownOptionType (opt_type opt) then ret tt
  else throw (Error ("Unknown option type while declaring command " +:+ name c)).

(** [_addOptions()] *)
Fixpoint addOptions (c : t) (opts : list OptionDef) : Eff unit :=
  match opts with
  | [] => ret tt
  | opt :: opts' => bind (addOption c opt) (fun _ => addOptions c opts')
  end.

(** [_setApiRoot()].  The source rewrites the [path] of each route object
    in place, so the route objects of the definition change with those of
    the command; the embedding gives the routes the command holds after one
    registration of a definition and does not follow the definition's own
    objects. *)
Definition setApiRoot (c : t) : t :=
  if Nat.ltb 0 (length (apiRoutes c))
  then set_apiRoutes
         (map (fun route => mkApiRoute (route_method route)
                              ("/" +:+ name c +:+ route_path route))
              (apiRoutes c)) c
  else c.

(** [_listen()].  [listening] is the local variable of the source; each
    [this.bot.on] goes to the listener table. *)
Definition listen (c : t) (reg : Registry) : Eff Registry :=
  let listening0 := false in
  let reg1 :=
    if Nat.ltb 0 (length (buttonsHandheld c))
    then foldl (fun r buttonId => on ("button:" +:+ buttonId) (mkListener c (ButtonL buttonId)) r)
               reg (buttonsHandheld c)
    else reg in
  let reg2 :=
    if Nat.ltb 0 (length (selectMenusHandheld c))
    then foldl (fun r selectMenuId =>
                  on ("selectMenu:" +:+ selectMenuId) (mkListener c (SelectMenuL selectMenuId)) r)
               reg1 (selectMenusHandheld c)
    else reg1 in
  let '(listening1, reg3) :=
    if isSlashCommand c
    then (true, on ("slashCommand:" +:+ name c) (mkListener c SlashL) reg2)
    else (listening0, reg2) in
  let '(listening2, reg4) :=
    if isMessageCommand c
    then (true, on ("messageCommand:" +:+ name c) (mkListener c MessageCommandL) reg3)
    else (listening1, reg3) in
  let '(listening3, reg5) :=
    if isFunction (messageHandler c)
    then (true, on "message" (mkListener c MessageL) reg4)
    else (listening2, reg4) in
  let '(listening4, reg6) :=
    if isFunction (mentionHandler c)
    then (true, on "mention" (mkListener c MentionL) reg5)
    else (listening3, reg5) in
  let '(listening5, reg7) :=
    if isFunction (dmHandler c)
    then (true, on "directMessage" (mkListener c DirectMessageL) reg6)
    else (listening4, reg6) in
  if Nat.ltb 0 (length (apiRoutes c)) && negb listening5
  then bind (info ("Command " +:+ name c +:+ " has API routes.")) (fun _ => ret reg7)
  else if negb listening5
  then bind (warn ("Command " +:+ name c +:+ " is not handling anything!")) (fun _ => ret reg7)
  else ret reg7.

(** [constructor({...})]: the defaults of the destructuring pattern, the
    required permissions (numbers, as the typedef has them) folded with the
    32-bit [|], then [_check], the slash-command builder, [_addOptions],
    [_setApiRoot] and [_listen].  The builder is a discord.js object; what
    it validates on its own (the form and length of names and descriptions)
    is outside this development, which describes the registration of the
    definitions the builder accepts: a failure stated below is a failure of
    the source, a success is one up to the builder's own checks. *)
Definition new (d : CommandDefinition) (reg : Registry) : Eff (t * Registry) :=
  match def_name d with
  | None => throw (TypeError "Cannot read properties of undefined (reading 'toLowerCase')")
  | Some n =>
      let c0 :=
        {| name := Js.toLowerCase n;
           description := def_description d;
           commandHandler := def_commandHandler d;
           buttonsHandler := def_buttonsHandler d;
           selectMenusHandler := def_selectMenusHandler d;
           mentionHandler := def_mentionHandler d;
           messageHandler := def_messageHandler d;
           dmHandler := def_dmHandler d;
           isSlashCommand := default true (def_isSlashCommand d);
           isMessageCommand := default true (def_isMessageCommand d);
           acceptDM := default false (def_acceptDM d);
           requiredRoles := default [] (def_requiredRoles d);
           requireAllRoles := default false (def_requireAllRoles d);
           requiredRolesErrorMessage :=
             default "You do not have the required roles to use this command."
                     (def_requiredRolesErrorMessage d);
           options := default [] (def_options d);
           buttonsHandheld := default [] (def_buttonsHandheld d);
           selectMenusHandheld := default [] (def_selectMenusHandheld d);
           requiredPermissions :=
             foldl (fun acc permission => Js.bitOr acc permission) 0%Z
                   (default [] (def_requiredPermissions d));
           apiRoutes := default [] (def_apiRoutes d) |} in
      (c1 <- check c0 ;;
       addOptions c1 (options c1) >>>
       let c2 := setApiRoot c1 in
       reg' <- listen c2 reg ;;
       ret (c2, reg'))%eff
  end.

(** [_checkRequiredRoles(interaction)]: [rolesFound] is filled by the
    [forEach] with [push]. *)
Definition checkRequiredRoles (c : t) (i : UnifiedInteraction.t) : bool :=
  if Nat.ltb 0 (length (requiredRoles c))
  then
    let rolesFound :=
      foldl (fun found role =>
               if User.hasRole (UnifiedInteraction.author i) role
               then found ++ [role] else found)
            [] (requiredRoles c) in
    if requireAllRoles c
    then Nat.eqb (length rolesFound) (length (requiredRoles c))
    else Nat.ltb 0 (length rolesFound)
  else true.

(** [_listenerWrapper(eventType, interaction, handler, comment)].  It
    returns a promise; [Rejected] is that promise rejecting.  A [handler]
    that is [undefined] makes the call [handler(interaction)] a TypeError
    inside the [try]. *)
Definition listenerWrapper (c : t) (eventType : string)
    (i : UnifiedInteraction.t) (handler : option Handler) (comment : string)
    : Eff Completion :=
  (info (eventType +:+ " " +:+ name c +:+ " triggered by <@"
         +:+ User.userId (UnifiedInteraction.author i) +:+ "> " +:+ comment
         +:+ " (id: " +:+ raw_id (UnifiedInteraction.originalObject i) +:+ ")") >>>
   if negb (checkRequiredRoles c i)
   then promise (UnifiedInteraction.reply i (requiredRolesErrorMessage c) true)
   else
     let caught (e : JsError) : Eff Completion :=
       error ("Error while executing command " +:+ name c +:+ " " +:+ errorMessage e) >>>
       error "Interaction Object:" >>>
       error (errorMessage e) >>>
       promise (UnifiedInteraction.reply i "An error occurred while executing the command" true) in
     match handler with
     | None => caught (TypeError "handler is not a function")
     | Some h =>
         tell (Invoke (name c) eventType) >>>
         match h i with
         | Returns => ret Settled
         | ThrowsSync e => caught e
         | Rejects e => ret (Rejected e)
         end
     end)%eff.

(** One turn of the [forEach] of [_injectOptions(interaction)]: member and
    user options are wrapped as Actors, the other known types store the
    platform's value, an unknown type stores nothing. *)
Definition injectOption (i : UnifiedInteraction.t)
    (values : gmap string OptionValue) (opt : OptionDef)
    : Outcome (gmap string OptionValue) :=
  let o := UnifiedInteraction.originalObject i in
  let key := Js.showUndef (opt_name opt) in
  let ty := Js.toLowerCase (opt_type opt) in
  if String.eqb ty "member"
  then match User.new (raw_optionMember o !! key) None (raw_guild o) with
       | Ok u => Ok (<[key := OptActor u]> values)
       | Throw e => Throw e
       end
  else if String.eqb ty "user"
  then match User.new None (raw_optionUser o !! key) (raw_guild o) with
       | Ok u => Ok (<[key := OptActor u]> values)
       | Throw e => Throw e
       end
  else if knownOptionType (opt_type opt)
  then Ok (<[key := OptPlatform]> values)
  else Ok values.

Fixpoint injectEach (i : UnifiedInteraction.t)
    (values : gmap string OptionValue) (opts : list OptionDef)
    : Outcome (gmap string OptionValue) :=
  match opts with
  | [] => Ok values
  | opt :: opts' =>
      match injectOption i values opt with
      | Ok values' => injectEach i values' opts'
      | Throw e => Throw e
      end
  end.

(** [_injectOptions(interaction)] *)
Definition injectOptions (c : t) (i : UnifiedInteraction.t)
    : Outcome UnifiedInteraction.t :=
  match injectEach i ∅ (options c) with
  | Ok values => Ok (UnifiedInteraction.injectOptions values i)
  | Throw e => Throw e
  end.

(** The [comment] of the slash-command and message-command listeners:
    outside a DM it reads [interaction.guild.name] and then
    [interaction.channel.name], the channel being the one of the
    original object. *)
Definition channelComment (i : UnifiedInteraction.t) : Outcome string :=
  if UnifiedInteraction.isDM i then Ok "in DM"
  else match UnifiedInteraction.guild i with
       | GuildObject g =>
           match raw_channelName (UnifiedInteraction.originalObject i) with
           | Some channel => Ok ("in channel " +:+ guild_name g +:+ "/" +:+ channel)
           | None => Throw (TypeError "Cannot read properties of null (reading 'name')")
           end
       | GuildNull => Throw (TypeError "Cannot read properties of null (reading 'name')")
       | GuildUndefined => Throw (TypeError "Cannot read properties of undefined (reading 'name')")
       end.

(** Calling a listener attached by [_listen] with the interaction.  A
    [Throw] is an exception thrown before the listener returns its
    promise; the interaction comes back as the listener left it. *)
Definition call (l : Listener) (i : UnifiedInteraction.t)
    : Eff (UnifiedInteraction.t * Completion) :=
  let c := l_command l in
  (match l_kind l with
   | ButtonL buttonId =>
       r <- listenerWrapper c "Button handler" i (buttonsHandler c)
              ("via button: " +:+ buttonId) ;;
       ret (i, r)
   | SelectMenuL selectMenuId =>
       r <- listenerWrapper c "Select menu handler" i (selectMenusHandler c)
              ("via menu: " +:+ selectMenuId) ;;
       ret (i, r)
   | SlashL =>
       comment <- lift (channelComment i) ;;
       i' <- lift (injectOptions c i) ;;
       r <- listenerWrapper c "Slash Command" i' (commandHandler c) comment ;;
       ret (i', r)
   | MessageCommandL =>
       comment <- lift (channelComment i) ;;
       r <- listenerWrapper c "Message Command" i (commandHandler c) comment ;;
       ret (i, r)
   | MessageL =>
       r <- listenerWrapper c "Message Handler" i (messageHandler c) "via message" ;;
       ret (i, r)
   | MentionL =>
       r <- listenerWrapper c "Mention Handler" i (mentionHandler c) "via message" ;;
       ret (i, r)
   | DirectMessageL =>
       r <- listenerWrapper c "DM Handler" i (dmHandler c) EmptyString ;;
       ret (i, r)
   end)%eff.

End Command.

(** ** lib/DiscordBot.js *)

Module DiscordBot.

Record t := mk {
  env : BotEnv;
  commands : list Command.t;
  listeners : Command.Registry
}.

(** An event as the gateway delivers it: complete, or a partial whose
    [fetch()] gives the complete event or fails. *)
Inductive Incoming :=
| Full (o : RawEvent)
| Partial (stub : RawEvent) (fetched : Outcome RawEvent).

(** The object the gateway handed to [_mainListener]. *)
Definition delivered (incoming : Incoming) : RawEvent :=
  match incoming with
  | Full o => o
  | Partial stub _ => stub
  end.

(** [addCommand(commandDefinition)] *)
Definition addCommand (d : CommandDefinition) (b : t) : Eff t :=
  bind (Command.new d (listeners b)) (fun '(c, reg) =>
    ret {| env := env b; commands := commands b ++ [c]; listeners := reg |}).

(** [addCommands(commandsDefinitions)] *)
Fixpoint addCommands (ds : list CommandDefinition) (b : t) : Eff t :=
  match ds with
  | [] => ret b
  | d :: ds' => bind (addCommand d b) (addCommands ds')
  end.

(** The part of [_listCommands()] the classifier depends on: the names of
    the message commands are added to [this.messageCommands]. *)
Definition listCommands (b : t) : t :=
  let names :=
    foldl (fun acc command =>
             if Command.isMessageCommand command
             then acc ∪ {[Command.name command]} else acc)
          (messageCommands (env b)) (commands b) in
  {| env := {| prefix := prefix (env b);
               messageCommands := names;
               client_user_id := client_user_id (env b);
               client_user_username := client_user_username (env b);
               errorContent := errorContent (env b) |};
     commands := commands b;
     listeners := listeners b |}.

(** The listeners of one [emit], called in the order they were attached.
    The emitter was created with [captureRejections], so a promise that
    rejects is reported through [this.error]; an exception thrown by a
    listener before it returns leaves [emit].  The embedding records the
    effects of each listener as one block, in the order of the calls; in the
    source the listeners are all called at once and what they do after their
    first [await] may interleave. *)
Fixpoint callListeners (key : string) (ls : list Command.Listener)
    (i : UnifiedInteraction.t) : Eff UnifiedInteraction.t :=
  match ls with
  | [] => ret i
  | l :: ls' =>
      bind (Command.call l i) (fun '(i', r) =>
        bind (match r with
              | Settled => ret tt
              | Rejected e =>
                  Command.error ("rejection happened for " +:+ key +:+ " with "
                                 +:+ errorMessage e)
              end)
             (fun _ => callListeners key ls' i'))
  end.

(** [this.emit(key, interactionObject)] *)
Definition emit (b : t) (key : string) (i : UnifiedInteraction.t)
    : Eff UnifiedInteraction.t :=
  bind (tell (Emit key))
       (fun _ => callListeners key (Command.listenersOf (listeners b) key) i).

(** The first statement of [_handleInteraction]: a partial event is
    fetched, then the event is wrapped. *)
Definition normalize (b : t) (incoming : Incoming) : Eff UnifiedInteraction.t :=
  (match incoming with
   | Partial _ fetched =>
       tell RawFetch >>>
       fullInteraction <- lift fetched ;;
       lift (UnifiedInteraction.new fullInteraction (env b))
   | Full o => lift (UnifiedInteraction.new o (env b))
   end)%eff.

(** [_handleInteraction(interaction)] *)
Definition handleInteraction (b : t) (incoming : Incoming) : Eff unit :=
  (interactionObject <- normalize b incoming ;;
   if UnifiedInteraction.isFromBot interactionObject
   then
     if UnifiedInteraction.isFromMe interactionObject then ret tt
     else Command.info ("Ignoring interaction from a bot "
                        +:+ User.userId (UnifiedInteraction.author interactionObject))
   else
     let '(eventName, interactionObject') :=
       UnifiedInteraction.eventName interactionObject in
     if Js.truthy eventName
     then
       let key := Js.showUndef eventName in
       Command.info ("Interaction received: " +:+ key) >>>
       i1 <- emit b ("external:" +:+ Js.splitHead ":"%char key) interactionObject' ;;
       emit b key i1 >>>
       ret tt
     else Command.info "Ignoring interaction")%eff.

(** [_mainListener(interaction)] *)
Definition mainListener (b : t) (incoming : Incoming) : Eff unit :=
  tryCatch (handleInteraction b incoming)
    (fun e =>
       bind (Command.error (errorMessage e)) (fun _ =>
         UnifiedInteraction.platformCall
           (RawReply (errorContent (env b)) false)
           (raw_replyResult (delivered incoming)))).

End DiscordBot.

(** ** Derived notions used in the statements *)

Module Derived.
Import UnifiedInteraction.

(** The effects of a reply are platform calls carrying the given payload
    and warnings. *)
Definition replyEffect (e : Effect) : bool :=
  match e with
  | RawReply _ _ | RawEditReply _ _ | RawFollowUp _ _ | Log LWarn _ => true
  | _ => false
  end.

(** The text starts with the configured prefix and the token after it is
    a registered message command. *)
Definition prefixedCommand (i : t) : bool :=
  Js.startsWith (content i) (prefix (bot i))
  && bool_decide (possibleCommand i ∈ messageCommands (bot i)).

(** The event kind as the specification words it: the first rule that
    matches, in the fixed priority order, on the flags of the event. *)
Definition classifyByPriority (i : t) : option string :=
  if isButton i then
    Some ("button:" +:+ Js.showNull (raw_customId (originalObject i)))
  else if isSelectMenu i then
    Some ("selectMenu:" +:+ Js.showNull (raw_customId (originalObject i)))
  else if isSlashCommand i then
    Some ("slashCommand:" +:+ Js.showUndef (commandName i))
  else if prefixedCommand i then
    Some ("messageCommand:" +:+ possibleCommand i)
  else if isToMe i || isMentioningMe i then Some "mention"
  else if isDM i then Some "directMessage"
  else Some "message".

(** The classifier reaches the message-command rule and the rule matches. *)
Definition messageCommandMatched (i : t) : bool :=
  negb (isButton i) && negb (isSelectMenu i) && negb (isSlashCommand i)
  && prefixedCommand i.

(** What [fetch()] costs: one platform call for a partial event. *)
Definition fetchTrace (incoming : DiscordBot.Incoming) : list Effect :=
  match incoming with
  | DiscordBot.Full _ => []
  | DiscordBot.Partial _ _ => [RawFetch]
  end.

(** The complete event behind a delivery, when the fetch succeeds. *)
Definition resolved (incoming : DiscordBot.Incoming) : Outcome RawEvent :=
  match incoming with
  | DiscordBot.Full o => Ok o
  | DiscordBot.Partial _ fetched => fetched
  end.

(** The [bot.on] calls of [_listen] for a command, in order: event name and
    listener. *)
Definition attached (c : Command.t) : list (string * Command.Listener) :=
  map (fun buttonId => ("button:" +:+ buttonId,
                        Command.mkListener c (Command.ButtonL buttonId)))
      (Command.buttonsHandheld c)
  ++ map (fun selectMenuId => ("selectMenu:" +:+ selectMenuId,
                               Command.mkListener c (Command.SelectMenuL selectMenuId)))
         (Command.selectMenusHandheld c)
  ++ (if Command.isSlashCommand c
      then [("slashCommand:" +:+ Command.name c, Command.mkListener c Command.SlashL)]
      else [])
  ++ (if Command.isMessageCommand c
      then [("messageCommand:" +:+ Command.name c,
             Command.mkListener c Command.MessageCommandL)]
      else [])
  ++ (if isFunction (Command.messageHandler c)
      then [("message", Command.mkListener c Command.MessageL)] else [])
  ++ (if isFunction (Command.mentionHandler c)
      then [("mention", Command.mkListener c Command.MentionL)] else [])
  ++ (if isFunction (Command.dmHandler c)
      then [("directMessage", Command.mkListener c Command.DirectMessageL)] else []).

(** The listeners a command attaches under one event name. *)
Definition ownListeners (c : Command.t) (key : string) : list Command.Listener :=
  map snd (List.filter (fun kl => String.eqb (fst kl) key) (attached c)).

(** Attaching a sequence of listeners. *)
Definition attachAll (kls : list (string * Command.Listener))
    (reg : Command.Registry) : Command.Registry :=
  foldl (fun r kl => Command.on (fst kl) (snd kl) r) reg kls.

End Derived.

(** ** Concrete events used below *)

Module Sample.

Definition alice : RawUser := mkRawUser "42" "alice" false.
Definition otherBot : RawUser := mkRawUser "77" "helper" true.

Definition env0 : BotEnv := mkBotEnv "!" {["ping"]} "1" "unicorn" "Oh no...".

(** A message-shaped event: text, author, guild. *)
Definition message (text : string) (author : option RawUser) (g : GuildField)
    : RawEvent :=
  {| raw_id := "m1"; raw_content := Some text; raw_locale := None;
     raw_guildLocale := None; raw_member := None; raw_user := None;
     raw_author := author; raw_guild := g; raw_channelName := Some "general";
     raw_commandName := None; raw_customId := None; raw_isButton := None;
     raw_isSelectMenu := None; raw_mentions := Some ∅;
     raw_optionMember := ∅; raw_optionUser := ∅;
     raw_replyResult := None;
     raw_editReplyResult := Some "editReply is not a function";
     raw_followUpResult := Some "followUp is not a function" |}.

(** An interaction whose direct reply is refused by the platform while
    editing the deferred reply and following up both work. *)
Definition deferred : RawEvent :=
  {| raw_id := "i1"; raw_content := None; raw_locale := Some "fr";
     raw_guildLocale := None; raw_member := None; raw_user := Some alice;
     raw_author := None; raw_guild := GuildNull; raw_channelName := Some "dm";
     raw_commandName := Some "ping"; raw_customId := None;
     raw_isButton := Some false; raw_isSelectMenu := Some false;
     raw_mentions := None; raw_optionMember := ∅; raw_optionUser := ∅;
     raw_replyResult := Some "The reply to this interaction has already been sent or deferred.";
     raw_editReplyResult := None;
     raw_followUpResult := None |}.

Definition aliceActor : User.t :=
  {| User.member := None; User.user := alice; User.userId := "42";
     User.originalNickname := Some EmptyString;
     User.currentNickname := Some EmptyString;
     User.initialized := true; User.isBot := false |}.

(** An interaction object with nothing in it, for [fromOk]. *)
Definition blank (o : RawEvent) : UnifiedInteraction.t :=
  {| UnifiedInteraction.bot := env0;
     UnifiedInteraction.content := EmptyString;
     UnifiedInteraction.locale := "default";
     UnifiedInteraction.author := aliceActor;
     UnifiedInteraction.guild := raw_guild o;
     UnifiedInteraction.isDM := false;
     UnifiedInteraction.commandName := None;
     UnifiedInteraction.isSlashCommand := false;
     UnifiedInteraction.replied := false;
     UnifiedInteraction.originalObject := o;
     UnifiedInteraction.commandOptions := ∅ |}.

(** The value of a computation that is known to succeed. *)
Definition fromOk {A} (d : A) (r : Outcome A) : A :=
  match r with Ok a => a | Throw _ => d end.

(** The wrapped form of an event, for the bot [env0]. *)
Definition wrap (o : RawEvent) : UnifiedInteraction.t :=
  fromOk (blank o) (UnifiedInteraction.new o env0).

Definition deferredInteraction : UnifiedInteraction.t := wrap deferred.

Definition pingMessage : UnifiedInteraction.t :=
  wrap (message "!ping now" (Some alice) GuildNull).

Definition djRole : Role := mkRole "100" "dj".
Definition modRole : Role := mkRole "200" "mod".

Definition bob : RawUser := mkRawUser "43" "bob" false.
Definition bobMember : Member := mkMember bob (Some "Bobby") [djRole].

Definition stable : Guild := mkGuild "Stable" {["43" := bobMember]}.

(** Bob writes in the guild: his membership is in the cache. *)
Definition bobMessage : UnifiedInteraction.t :=
  wrap (message "hello there" (Some bob) (GuildObject stable)).

(** A message whose [guild] property is missing. *)
Definition guildless : RawEvent := message "hi" (Some alice) GuildUndefined.

(** An event with no member, no user and no author. *)
Definition anonymous : RawEvent := message "who" None GuildNull.

Definition pong : Handler := fun _ => Returns.

(** A command with a command handler and the given role policy. *)
Definition gated (n : string) (roles : list string) (all : bool) : Command.t :=
  {| Command.name := n; Command.description := Some "a sample command";
     Command.commandHandler := Some pong; Command.buttonsHandler := None;
     Command.selectMenusHandler := None; Command.mentionHandler := None;
     Command.messageHandler := None; Command.dmHandler := None;
     Command.isSlashCommand := true; Command.isMessageCommand := true;
     Command.acceptDM := false; Command.requiredRoles := roles;
     Command.requireAllRoles := all;
     Command.requiredRolesErrorMessage := "DJs only.";
     Command.options := []; Command.buttonsHandheld := [];
     Command.selectMenusHandheld := []; Command.requiredPermissions := 0%Z;
     Command.apiRoutes := [] |}.

Definition bot0 : DiscordBot.t :=
  {| DiscordBot.env := env0; DiscordBot.commands := []; DiscordBot.listeners := ∅ |}.

(** A message written by another bot, and one written by this bot. *)
Definition fromOtherBot : RawEvent := message "beep" (Some otherBot) GuildNull.
Definition fromSelf : RawEvent :=
  message "I am back!" (Some (mkRawUser "1" "unicorn" true)) GuildNull.

(** Two definitions with the same name. *)
Definition fooDefinition (text : string) : CommandDefinition :=
  {| def_name := Some "Foo"; def_description := Some text;
     def_commandHandler := Some pong; def_buttonsHandler := None;
     def_selectMenusHandler := None; def_mentionHandler := None;
     def_messageHandler := None; def_dmHandler := None;
     def_isSlashCommand := None; def_isMessageCommand := Some false;
     def_acceptDM := None; def_requiredRoles := None;
     def_requireAllRoles := None; def_requiredRolesErrorMessage := None;
     def_options := None; def_buttonsHandheld := None;
     def_selectMenusHandheld := None; def_requiredPermissions := None;
     def_apiRoutes := None |}.

(** The command [new Command] builds from [fooDefinition text]. *)
Definition foo (text : string) : Command.t :=
  {| Command.name := "foo"; Command.description := Some text;
     Command.commandHandler := Some pong; Command.buttonsHandler := None;
     Command.selectMenusHandler := None; Command.mentionHandler := None;
     Command.messageHandler := None; Command.dmHandler := None;
     Command.isSlashCommand := true; Command.isMessageCommand := false;
     Command.acceptDM := false; Command.requiredRoles := [];
     Command.requireAllRoles := false;
     Command.requiredRolesErrorMessage :=
       "You do not have the required roles to use this command.";
     Command.options := []; Command.buttonsHandheld := [];
     Command.selectMenusHandheld := []; Command.requiredPermissions := 0%Z;
     Command.apiRoutes := [] |}.

End Sample.

(** ** lib/utils/menusBuilders.js, and the callers in lib/SoundManager.js
       and lib/utils/soundCommandBuilder.js *)

Module MenusBuilders.

Inductive ButtonStyle := Primary | Secondary | Success | Danger | Link.

(** An item given to the builders: [id] and [label], and the optional
    properties the builders read. *)
Record Item := mkItem {
  item_id : string;
  item_label : string;
  item_description : option string;
  item_disabled : bool;
  item_style : option ButtonStyle;
  item_emoji : option string;
  item_url : option string
}.

(** What the discord.js builders hold once the setters have been called;
    the limits discord.js itself enforces on them are not part of this
    development. *)
Record Button := mkButton {
  button_customId : string;
  button_disabled : bool;
  button_label : string;
  button_style : ButtonStyle;
  button_emoji : option string;
  button_url : option string
}.

Record MenuOption := mkMenuOption {
  option_label : string;
  option_description : option string;
  option_value : string
}.

Record SelectMenu := mkSelectMenu {
  menu_customId : string;
  menu_placeholder : string;
  menu_minValues : option nat;
  menu_maxValues : option nat;
  menu_options : list MenuOption
}.

Inductive Component :=
| ButtonC (b : Button)
| SelectMenuC (m : SelectMenu).

(** An action row: its components, in order. *)
Abbreviation Row := (list Component).

(** The button built for an item in [buildButtonsMenu]. *)
Definition button (prefix : string) (item : Item) : Button :=
  {| button_customId := prefix +:+ "-" +:+ item_id item;
     button_disabled := item_disabled item || false;
     button_label := item_label item;
     button_style := default Primary (item_style item);
     button_emoji := Js.orUndefined (item_emoji item);
     button_url := Js.orUndefined (item_url item) |}.

(** One turn of the [forEach] of [buildButtonsMenu], on the variables
    [rows], [row] and [rowCount]. *)
Definition addButton (prefix : string) (st : list Row * Row * nat) (item : Item)
    : list Row * Row * nat :=
  let '(rows, row, rowCount) := st in
  let b := button prefix item in
  let '(rows1, row1, rowCount1) :=
    if Nat.eqb rowCount 5 then (rows ++ [row], [], 0) else (rows, row, rowCount) in
  (rows1, row1 ++ [ButtonC b], S rowCount1).

(** [buildSelectMenu(items, prefix, placeholder = 'Nothing selected',
    min = 1, max = 1)]: what the select-menu builder holds after the calls
    of the source.  The builder of discord.js refuses a twenty-sixth
    option; this limit, like the builders' other limits, is not part of the
    embedding, which describes the menu of at most twenty-five items. *)
Definition buildSelectMenu (items : list Item) (prefix : string)
    (placeholder : option string) (min max : option nat) : list Row :=
  let placeholder0 := default "Nothing selected" placeholder in
  let min0 := default 1 min in
  let max0 := default 1 max in
  let menu0 :=
    {| menu_customId := prefix; menu_placeholder := placeholder0;
       menu_minValues := None; menu_maxValues := None; menu_options := [] |} in
  let menu1 :=
    if Nat.ltb 1 max0
    then {| menu_customId := menu_customId menu0;
            menu_placeholder := menu_placeholder menu0;
            menu_minValues := Some min0; menu_maxValues := Some max0;
            menu_options := menu_options menu0 |}
    else menu0 in
  let menu2 :=
    foldl (fun menu item =>
             {| menu_customId := menu_customId menu;
                menu_placeholder := menu_placeholder menu;
                menu_minValues := menu_minValues menu;
                menu_maxValues := menu_maxValues menu;
                menu_options :=
                  menu_options menu
                  ++ [mkMenuOption (item_label item) (item_description item)
                                   (item_id item)] |})
          menu1 items in
  [[SelectMenuC menu2]].

(** [buildButtonsMenu(items, prefix)] *)
Definition buildButtonsMenu (items : list Item) (prefix : string) : list Row :=
  let '(rows, row, rowCount) := foldl (addButton prefix) ([], [], 0) items in
  let rows1 := if Nat.ltb 0 rowCount then rows ++ [row] else rows in
  if Nat.ltb 5 (length rows1)
  then buildSelectMenu items prefix None None None
  else rows1.

(** [SoundManager.menu()], on the sound names the glob found. *)
Definition menu (soundNames : list string) (selectMenuName buttonPrefix : string)
    : list Row :=
  let items :=
    map (fun soundName => mkItem soundName soundName None false (Some Primary) None None)
        soundNames in
  let selectMenu :=
    buildSelectMenu items selectMenuName (Some "Choisissez un son à jouer") None None in
  let buttons :=
    buildButtonsMenu [mkItem "stop" "Stop" None false (Some Danger) None None]
                     buttonPrefix in
  selectMenu ++ buttons.

(** The argument of [soundCommandBuilder]; the volumes, which only the
    player reads, are left out. *)
Record SoundCommandDefinition := mkSoundCommandDefinition {
  sc_channelName : string;
  sc_soundFilesDir : string;
  sc_commandName : option string;
  sc_commandDescription : option string;
  sc_playSoundText : option string;
  sc_buttonPrefix : option string;
  sc_selectMenuName : option string;
  sc_requiredRoles : option (list string);
  sc_requiredRolesErrorMessage : option string
}.

(** [soundCommandBuilder({...})].  The three handlers are closures over the
    sound manager and the audio player; they are taken as given. *)
Definition soundCommandBuilder (sc : SoundCommandDefinition)
    (commandHandler buttonsHandler selectMenusHandler : Handler)
    : CommandDefinition :=
  let commandName := default "playsound" (sc_commandName sc) in
  let commandDescription :=
    default "Play some sounds in Vocal Channel" (sc_commandDescription sc) in
  let buttonPrefix := default "playsound" (sc_buttonPrefix sc) in
  let selectMenuName := default "playsound" (sc_selectMenuName sc) in
  let requiredRoles := default [] (sc_requiredRoles sc) in
  let requiredRolesErrorMessage :=
    default "You do not have the required roles to use this command."
            (sc_requiredRolesErrorMessage sc) in
  {| def_name := Some commandName;
     def_description := Some commandDescription;
     def_commandHandler := Some commandHandler;
     def_buttonsHandler := Some buttonsHandler;
     def_selectMenusHandler := Some selectMenusHandler;
     def_mentionHandler := None; def_messageHandler := None;
     def_dmHandler := None;
     def_isSlashCommand := Some true; def_isMessageCommand := None;
     def_acceptDM := None;
     def_requiredRoles := Some requiredRoles;
     def_requireAllRoles := None;
     def_requiredRolesErrorMessage := Some requiredRolesErrorMessage;
     def_options := None;
     def_buttonsHandheld := Some [buttonPrefix +:+ "-stop"];
     def_selectMenusHandheld := Some [selectMenuName];
     def_requiredPermissions := None; def_apiRoutes := None |}.

(** The menu the sound manager of that command shows: it is created with
    the builder's button prefix and select-menu name. *)
Definition soundMenu (sc : SoundCommandDefinition) (soundNames : list string)
    : list Row :=
  menu soundNames (default "playsound" (sc_selectMenuName sc))
       (default "playsound" (sc_buttonPrefix sc)).

(** What the loop of [buildButtonsMenu] keeps true of [rows], [row] and
    [rowCount] after the items [done]. *)
Definition rowsInvariant (prefix : string) (done : list Item) (st : list Row * Row * nat) : Prop :=
  let '(rows, row, rowCount) := st in
  concat rows ++ row = map (fun item => ButtonC (button prefix item)) done
  /\ rowCount = length row
  /\ Forall (fun r => length r = 5) rows
  /\ rowCount <= 5
  /\ length done = 5 * length rows + rowCount
  /\ (done = [] -> rows = [] /\ row = [])
  /\ (done <> [] -> 1 <= rowCount).

End MenusBuilders.

(** ** Notions used in the further properties *)

Module Observed.

(** The platform reply calls of a trace, in order. *)
Definition isPlatformReply (e : Effect) : bool :=
  match e with
  | RawReply _ _ | RawEditReply _ _ | RawFollowUp _ _ => true
  | _ => false
  end.

Definition platformReplies (t : list Effect) : list Effect :=
  List.filter isPlatformReply t.

(** The handler calls of a trace, in order. *)
Definition isInvoke (e : Effect) : bool :=
  match e with Invoke _ _ => true | _ => false end.

Definition invocations (t : list Effect) : list Effect :=
  List.filter isInvoke t.

(** [!s.includes(' ')] *)
Definition spaceFree (s : string) : bool := negb (Js.includes s " ").

(** The leading segments of the seven event kinds. *)
Definition kindNames : list string :=
  ["button"; "selectMenu"; "slashCommand"; "messageCommand"; "mention";
   "directMessage"; "message"].

End Observed.

(** ** Notions used in the properties of registration *)

Module Registered.

(** An option [_addOptions] accepts for a slash command: name and
    description present, none of the three properties whose setter is
    missing on the builder function, and a known type. *)
Definition validOption (opt : OptionDef) : bool :=
  Js.truthy (opt_name opt) && Js.truthy (opt_description opt)
  && negb (opt_nameLocalized opt) && negb (opt_descriptionLocalized opt)
  && negb (opt_choices opt) && Command.knownOptionType (opt_type opt).

(** A definition the constructor accepts. *)
Definition acceptable (d : CommandDefinition) : bool :=
  Js.truthy (def_name d) && Js.truthy (def_description d)
  && (negb (default true (def_isSlashCommand d))
      || forallb validOption (default [] (def_options d))).

(** The button identifiers [_check] keeps. *)
Definition keptButtons (c : Command.t) : Command.t :=
  if Nat.ltb 0 (length (Command.buttonsHandheld c))
     && negb (isFunction (Command.buttonsHandler c))
  then Command.set_buttonsHandheld [] c else c.

(** The select-menu identifiers [_check] keeps. *)
Definition keptMenus (c : Command.t) : Command.t :=
  if Nat.ltb 0 (length (Command.selectMenusHandheld c))
     && negb (isFunction (Command.selectMenusHandler c))
  then Command.set_selectMenusHandheld [] c else c.

(** The command as the constructor's first assignments leave it, before
    [_check]: the defaults of the destructuring pattern applied. *)
Definition initial (d : CommandDefinition) (n : string) : Command.t :=
  {| Command.name := Js.toLowerCase n;
     Command.description := def_description d;
     Command.commandHandler := def_commandHandler d;
     Command.buttonsHandler := def_buttonsHandler d;
     Command.selectMenusHandler := def_selectMenusHandler d;
     Command.mentionHandler := def_mentionHandler d;
     Command.messageHandler := def_messageHandler d;
     Command.dmHandler := def_dmHandler d;
     Command.isSlashCommand := default true (def_isSlashCommand d);
     Command.isMessageCommand := default true (def_isMessageCommand d);
     Command.acceptDM := default false (def_acceptDM d);
     Command.requiredRoles := default [] (def_requiredRoles d);
     Command.requireAllRoles := default false (def_requireAllRoles d);
     Command.requiredRolesErrorMessage :=
       default "You do not have the required roles to use this command."
               (def_requiredRolesErrorMessage d);
     Command.options := default [] (def_options d);
     Command.buttonsHandheld := default [] (def_buttonsHandheld d);
     Command.selectMenusHandheld := default [] (def_selectMenusHandheld d);
     Command.requiredPermissions :=
       foldl (fun acc permission => Js.bitOr acc permission) 0%Z
             (default [] (def_requiredPermissions d));
     Command.apiRoutes := default [] (def_apiRoutes d) |}.

(** The command a successful registration leaves. *)
Definition built (d : CommandDefinition) (n : string) : Command.t :=
  Command.setApiRoot (keptMenus (keptButtons (initial d n))).

(** The handler a listener calls. *)
Definition handlerOf (l : Command.Listener) : option Handler :=
  match Command.l_kind l with
  | Command.ButtonL _ => Command.buttonsHandler (Command.l_command l)
  | Command.SelectMenuL _ => Command.selectMenusHandler (Command.l_command l)
  | Command.SlashL | Command.MessageCommandL =>
      Command.commandHandler (Command.l_command l)
  | Command.MessageL => Command.messageHandler (Command.l_command l)
  | Command.MentionL => Command.mentionHandler (Command.l_command l)
  | Command.DirectMessageL => Command.dmHandler (Command.l_command l)
  end.

(** The event name [_listen] attaches a listener under. *)
Definition keyOf (l : Command.Listener) : string :=
  match Command.l_kind l with
  | Command.ButtonL buttonId => "button:" +:+ buttonId
  | Command.SelectMenuL selectMenuId => "selectMenu:" +:+ selectMenuId
  | Command.SlashL => "slashCommand:" +:+ Command.name (Command.l_command l)
  | Command.MessageCommandL =>
      "messageCommand:" +:+ Command.name (Command.l_command l)
  | Command.MessageL => "message"
  | Command.MentionL => "mention"
  | Command.DirectMessageL => "directMessage"
  end.

(** The listeners whose call reads [interaction.guild.name] or extracts
    options before the wrapper's [try]. *)
Definition commandKind (l : Command.Listener) : bool :=
  match Command.l_kind l with
  | Command.SlashL | Command.MessageCommandL => true
  | _ => false
  end.

(** The label the wrapper logs and records for a listener. *)
Definition eventTypeOf (l : Command.Listener) : string :=
  match Command.l_kind l with
  | Command.ButtonL _ => "Button handler"
  | Command.SelectMenuL _ => "Select menu handler"
  | Command.SlashL => "Slash Command"
  | Command.MessageCommandL => "Message Command"
  | Command.MessageL => "Message Handler"
  | Command.MentionL => "Mention Handler"
  | Command.DirectMessageL => "DM Handler"
  end.

(** The command declared what the listener is for. *)
Definition declares (c : Command.t) (l : Command.Listener) : Prop :=
  match Command.l_kind l with
  | Command.ButtonL buttonId => buttonId ∈ Command.buttonsHandheld c
  | Command.SelectMenuL selectMenuId => selectMenuId ∈ Command.selectMenusHandheld c
  | Command.SlashL => Command.isSlashCommand c = true
  | Command.MessageCommandL => Command.isMessageCommand c = true
  | Command.MessageL => isFunction (Command.messageHandler c) = true
  | Command.MentionL => isFunction (Command.mentionHandler c) = true
  | Command.DirectMessageL => isFunction (Command.dmHandler c) = true
  end.

(** The listener table is the index of what the commands declared: the
    listeners under an event name are those of the bot's commands that
    belong under it. *)
Definition indexed (b : DiscordBot.t) : Prop :=
  forall key l,
    l ∈ Command.listenersOf (DiscordBot.listeners b) key
    <-> keyOf l = key /\ Command.l_command l ∈ DiscordBot.commands b
        /\ declares (Command.l_command l) l.

(** The command has a handler for the buttons and the select menus it
    declares. *)
Definition handled (c : Command.t) : Prop :=
  (Command.buttonsHandheld c <> [] -> isFunction (Command.buttonsHandler c) = true)
  /\ (Command.selectMenusHandheld c <> [] ->
      isFunction (Command.selectMenusHandler c) = true).

(** The handler call a listener makes for an interaction: one when the
    Actor is authorised and the handler is a function, none otherwise. *)
Definition invokedBy (i : UnifiedInteraction.t) (l : Command.Listener)
    : list Effect :=
  if Command.checkRequiredRoles (Command.l_command l) i && isFunction (handlerOf l)
  then [Invoke (Command.name (Command.l_command l)) (eventTypeOf l)]
  else [].

End Registered.

(** ** Further concrete cases *)

Module Cases.

Definition target : OptionDef :=
  mkOptionDef (Some "target") (Some "who") "User" false false false.

(** A slash command with one user option. *)
Definition kick : Command.t :=
  {| Command.name := "kick"; Command.description := Some "kick someone";
     Command.commandHandler := Some Sample.pong; Command.buttonsHandler := None;
     Command.selectMenusHandler := None; Command.mentionHandler := None;
     Command.messageHandler := None; Command.dmHandler := None;
     Command.isSlashCommand := true; Command.isMessageCommand := false;
     Command.acceptDM := false; Command.requiredRoles := [];
     Command.requireAllRoles := false;
     Command.requiredRolesErrorMessage := "no";
     Command.options := [target];
     Command.buttonsHandheld := []; Command.selectMenusHandheld := [];
     Command.requiredPermissions := 0%Z; Command.apiRoutes := [] |}.

(** A bot as its constructor leaves it: no command, no listener, empty
    live sets. *)
Definition fresh : DiscordBot.t :=
  {| DiscordBot.env := mkBotEnv "!" ∅ "1" "unicorn" "Oh no...";
     DiscordBot.commands := []; DiscordBot.listeners := ∅ |}.

(** A command for slash and message use, with a button. *)
Definition pingDefinition : CommandDefinition :=
  {| def_name := Some "Ping"; def_description := Some "answers pong";
     def_commandHandler := Some Sample.pong; def_buttonsHandler := Some Sample.pong;
     def_selectMenusHandler := None; def_mentionHandler := None;
     def_messageHandler := None; def_dmHandler := None;
     def_isSlashCommand := None; def_isMessageCommand := None;
     def_acceptDM := None; def_requiredRoles := None;
     def_requireAllRoles := None; def_requiredRolesErrorMessage := None;
     def_options := None; def_buttonsHandheld := Some ["ping-again"];
     def_selectMenusHandheld := None; def_requiredPermissions := None;
     def_apiRoutes := None |}.

(** A definition that gives a name and no description. *)
Definition undescribed : CommandDefinition :=
  {| def_name := Some "Ping"; def_description := None;
     def_commandHandler := Some Sample.pong; def_buttonsHandler := None;
     def_selectMenusHandler := None; def_mentionHandler := None;
     def_messageHandler := None; def_dmHandler := None;
     def_isSlashCommand := None; def_isMessageCommand := None;
     def_acceptDM := None; def_requiredRoles := None;
     def_requireAllRoles := None; def_requiredRolesErrorMessage := None;
     def_options := None; def_buttonsHandheld := None;
     def_selectMenusHandheld := None; def_requiredPermissions := None;
     def_apiRoutes := None |}.

(** The bot after [addCommands], before [_listCommands]. *)
Definition loaded : DiscordBot.t :=
  Sample.fromOk fresh (outcome (DiscordBot.addCommands [pingDefinition] fresh)).

(** The command registration builds from [pingDefinition]. *)
Definition ping : Command.t := Registered.built pingDefinition "Ping".

(** Alice presses the button [ping-again] in a direct message. *)
Definition pressAgain : RawEvent :=
  {| raw_id := "i2"; raw_content := None; raw_locale := None;
     raw_guildLocale := None; raw_member := None; raw_user := Some Sample.alice;
     raw_author := None; raw_guild := GuildNull; raw_channelName := Some "dm";
     raw_commandName := None; raw_customId := Some "ping-again";
     raw_isButton := Some true; raw_isSelectMenu := Some false;
     raw_mentions := None; raw_optionMember := ∅; raw_optionUser := ∅;
     raw_replyResult := None; raw_editReplyResult := None;
     raw_followUpResult := None |}.

(** The interaction object the loaded bot builds for it. *)
Definition pressed : UnifiedInteraction.t :=
  Sample.fromOk (Sample.blank pressAgain)
    (UnifiedInteraction.new pressAgain (DiscordBot.env loaded)).

(** The sound command with every default. *)
Definition sound : MenusBuilders.SoundCommandDefinition :=
  MenusBuilders.mkSoundCommandDefinition "Music" "./sounds" None None None None None
    None None.

Definition soundDefinition : CommandDefinition :=
  MenusBuilders.soundCommandBuilder sound Sample.pong Sample.pong Sample.pong.

Definition soundCommand : Command.t := Registered.built soundDefinition "playsound".

(** A slash command whose option declares choices. *)
Definition volumeDefinition : CommandDefinition :=
  {| def_name := Some "volume"; def_description := Some "sets the volume";
     def_commandHandler := Some Sample.pong; def_buttonsHandler := None;
     def_selectMenusHandler := None; def_mentionHandler := None;
     def_messageHandler := None; def_dmHandler := None;
     def_isSlashCommand := None; def_isMessageCommand := None;
     def_acceptDM := None; def_requiredRoles := None;
     def_requireAllRoles := None; def_requiredRolesErrorMessage := None;
     def_options :=
       Some [mkOptionDef (Some "level") (Some "how loud") "integer" false false true];
     def_buttonsHandheld := None; def_selectMenusHandheld := None;
     def_requiredPermissions := None; def_apiRoutes := None |}.

(** A definition that declares a button and has no buttons handler, with
    one API route. *)
Definition statusDefinition : CommandDefinition :=
  {| def_name := Some "Status"; def_description := Some "shows the status";
     def_commandHandler := Some Sample.pong; def_buttonsHandler := None;
     def_selectMenusHandler := None; def_mentionHandler := None;
     def_messageHandler := None; def_dmHandler := None;
     def_isSlashCommand := None; def_isMessageCommand := None;
     def_acceptDM := None; def_requiredRoles := None;
     def_requireAllRoles := None; def_requiredRolesErrorMessage := None;
     def_options := None; def_buttonsHandheld := Some ["refresh"];
     def_selectMenusHandheld := None; def_requiredPermissions := None;
     def_apiRoutes := Some [mkApiRoute "GET" "/health"] |}.

Definition status : Command.t := Registered.built statusDefinition "Status".

(** A command that handles one button and nothing else. *)
Definition panel : Command.t :=
  {| Command.name := "panel"; Command.description := Some "buttons";
     Command.commandHandler := None; Command.buttonsHandler := Some Sample.pong;
     Command.selectMenusHandler := None; Command.mentionHandler := None;
     Command.messageHandler := None; Command.dmHandler := None;
     Command.isSlashCommand := false; Command.isMessageCommand := false;
     Command.acceptDM := false; Command.requiredRoles := [];
     Command.requireAllRoles := false;
     Command.requiredRolesErrorMessage := "no";
     Command.options := []; Command.buttonsHandheld := ["again"];
     Command.selectMenusHandheld := []; Command.requiredPermissions := 0%Z;
     Command.apiRoutes := [] |}.

(** Alice names the bot, in capitals, in a direct message. *)
(** Bob's slash command [ping] in the guild, on an event that carries no
    channel. *)
Definition channelless : RawEvent :=
  {| raw_id := "i3"; raw_content := None; raw_locale := None;
     raw_guildLocale := None; raw_member := None; raw_user := Some Sample.bob;
     raw_author := None; raw_guild := GuildObject Sample.stable;
     raw_channelName := None;
     raw_commandName := Some "ping"; raw_customId := None;
     raw_isButton := Some false; raw_isSelectMenu := Some false;
     raw_mentions := None; raw_optionMember := ∅; raw_optionUser := ∅;
     raw_replyResult := None; raw_editReplyResult := None;
     raw_followUpResult := None |}.

Definition shout : UnifiedInteraction.t :=
  Sample.wrap (Sample.message "Hey UNICORN!" (Some Sample.alice) GuildNull).

End Cases.

(** * Properties *)

Import Derived.

(** ** The effect monad *)

Lemma bind_ret_l {A B} (a : A) (k : A -> Eff B) : bind (ret a) k = k a.
Proof. unfold bind, ret. destruct (k a) as [t r]. reflexivity. Qed.

Lemma bind_trace_ok {A B} (m : Eff A) (k : A -> Eff B) t a :
  m = (t, Ok a) -> bind m k = (t ++ trace (k a), outcome (k a)).
Proof. intros ->. unfold bind, trace, outcome. destruct (k a); reflexivity. Qed.

Lemma bind_throw {A B} (m : Eff A) (k : A -> Eff B) t e :
  m = (t, Throw e) -> bind m k = (t, Throw e).
Proof. intros ->. reflexivity. Qed.

(** ** Reply fallback *)

Section Reply.
Import UnifiedInteraction.

Variable i : UnifiedInteraction.t.
Variables (text : string) (ephemeral : bool).

(** When the direct reply resolves nothing else is attempted. *)
Lemma reply_direct_ok :
  raw_replyResult (originalObject i) = None ->
  reply i text ephemeral = ([RawReply text ephemeral], Ok tt).
Proof. intros H. unfold reply, platformCall. rewrite H. reflexivity. Qed.

(** When the direct reply fails, both other strategies are attempted,
    whatever the edit gives, and the operation throws. *)
Lemma reply_direct_fails msg :
  raw_replyResult (originalObject i) = Some msg ->
  outcome (reply i text ephemeral) = Throw (Error "failed to reply to interaction")
  /\ RawEditReply text ephemeral ∈ trace (reply i text ephemeral)
  /\ RawFollowUp text ephemeral ∈ trace (reply i text ephemeral).
Proof.
  intros H. unfold reply, platformCall, warnFailed. rewrite H.
  destruct (raw_editReplyResult (originalObject i)),
           (raw_followUpResult (originalObject i));
    cbn; repeat split; set_solver.
Qed.


Lemma reply_effects : forallb replyEffect (trace (reply i text ephemeral)) = true.
Proof.
  unfold reply, platformCall, warnFailed.
  destruct (raw_replyResult (originalObject i)),
           (raw_editReplyResult (originalObject i)),
           (raw_followUpResult (originalObject i)); reflexivity.
Qed.

(** The first effect of a reply is the direct reply. *)
Lemma reply_starts_direct :
  exists rest, trace (reply i text ephemeral) = RawReply text ephemeral :: rest.
Proof.
  unfold reply, platformCall, warnFailed.
  destruct (raw_replyResult (originalObject i)),
           (raw_editReplyResult (originalObject i)),
           (raw_followUpResult (originalObject i)); cbn; eauto.
Qed.

End Reply.


(** C1, at the failing input: the direct reply fails and the edit of the
    existing reply succeeds.  The reply operation still sends the follow-up
    message and then throws its terminal error, where the specified protocol
    ends with success after the edit. *)
Theorem reply_edit_success_still_throws :
  UnifiedInteraction.reply Sample.deferredInteraction "pong" false =
    ([ RawReply "pong" false;
       Log LWarn ("Failed to reply to an interaction because " +:+ Js.dquote
                  +:+ "The reply to this interaction has already been sent or deferred."
                  +:+ Js.dquote);
       Log LWarn "The reply to this interaction has already been sent or deferred.";
       RawEditReply "pong" false;
       RawFollowUp "pong" false ],
     Throw (Error "failed to reply to interaction")).
Proof. vm_compute. reflexivity. Qed.

Example deferred_normalises :
  UnifiedInteraction.new Sample.deferred Sample.env0 = Ok Sample.deferredInteraction.
Proof. reflexivity. Qed.

Example pingMessage_normalises :
  UnifiedInteraction.new (Sample.message "!ping now" (Some Sample.alice) GuildNull)
    Sample.env0 = Ok Sample.pingMessage.
Proof. reflexivity. Qed.

(** ** Classification *)

Section Classification.
Import UnifiedInteraction.


Lemma isMessageCommand_unfold i :
  isMessageCommand i =
    (negb (isSlashCommand i) && negb (isButton i) && prefixedCommand i,
     if negb (isSlashCommand i) && negb (isButton i) && prefixedCommand i
     then set_commandName (Some (possibleCommand i)) i else i).
Proof.
  unfold isMessageCommand, prefixedCommand.
  destruct (isSlashCommand i), (isButton i),
           (Js.startsWith (content i) (prefix (bot i))),
           (bool_decide (possibleCommand i ∈ messageCommands (bot i)));
    reflexivity.
Qed.

(** The value and the final object of [eventName], in closed form. *)
Lemma eventName_unfold i :
  eventName i =
    (classifyByPriority i,
     if messageCommandMatched i
     then set_commandName (Some (possibleCommand i)) i else i).
Proof.
  unfold eventName, eventCases, switchTrue, pureGetter, guard, body.
  unfold classifyByPriority, messageCommandMatched, buttonId, selectMenuId.
  destruct (isButton i) eqn:Hb; [reflexivity|].
  destruct (isSelectMenu i) eqn:Hs; [reflexivity|].
  destruct (isSlashCommand i) eqn:Hc; [reflexivity|].
  rewrite isMessageCommand_unfold, Hb, Hc. cbn [negb andb].
  destruct (prefixedCommand i) eqn:Hp; [reflexivity|].
  destruct (isToMe i || isMentioningMe i) eqn:Hm; [reflexivity|].
  destruct (isDM i) eqn:Hd; [reflexivity|].
  apply orb_false_elim in Hm as [-> ->]. reflexivity.
Qed.

(** No flag of the classifier reads [commandName]. *)
Lemma flags_set_commandName v i :
  let i' := set_commandName v i in
  isButton i' = isButton i /\ isSelectMenu i' = isSelectMenu i
  /\ isSlashCommand i' = isSlashCommand i
  /\ prefixedCommand i' = prefixedCommand i
  /\ possibleCommand i' = possibleCommand i
  /\ isToMe i' = isToMe i /\ isMentioningMe i' = isMentioningMe i
  /\ isDM i' = isDM i.
Proof. repeat split. Qed.

Lemma set_commandName_same i : set_commandName (commandName i) i = i.
Proof. destruct i; reflexivity. Qed.

(** Outside slash commands the event kind does not read [commandName]. *)
Lemma classify_set_commandName v i :
  isSlashCommand i = false ->
  classifyByPriority (set_commandName v i) = classifyByPriority i.
Proof. destruct i. cbn [isSlashCommand]. intros ->. reflexivity. Qed.

(** A guard of [eventName] that is false has assigned nothing. *)
Lemma guard_false_keeps c i :
  c ∈ eventCases -> fst (guard c i) = false -> snd (guard c i) = i.
Proof.
  unfold eventCases. intros Hc Hg.
  repeat (apply elem_of_cons in Hc as [-> | Hc]); try reflexivity.
  - cbn [guard] in *. rewrite isMessageCommand_unfold in *. cbn [fst snd] in *.
    rewrite Hg. reflexivity.
  - by apply elem_of_nil in Hc.
Qed.

(** A [switch (true)] returns at its first true guard: the cases after it
    play no part. *)
Lemma switchTrue_first_match pre c other i :
  (forall c', c' ∈ pre -> fst (guard c' i) = false -> snd (guard c' i) = i) ->
  forallb (fun c' => negb (fst (guard c' i))) pre = true ->
  fst (guard c i) = true ->
  switchTrue (pre ++ c :: other) i
  = (Some (body c (snd (guard c i))), snd (guard c i)).
Proof.
  induction pre as [|c0 pre IH]; intros Hkeep Hpre Hc; cbn [app switchTrue].
  - destruct (guard c i) as [b i1]. cbn in Hc |- *. subst b. reflexivity.
  - cbn [forallb] in Hpre. apply andb_true_iff in Hpre as [H0 Hpre].
    apply negb_true_iff in H0.
    pose proof (Hkeep c0 (proj2 (elem_of_cons _ _ _) (or_introl eq_refl)) H0) as Hsame.
    destruct (guard c0 i) as [b i1]. cbn in H0, Hsame. subst b i1.
    apply IH; [|assumption..].
    intros c' Hc'. apply Hkeep. apply elem_of_cons. by right.
Qed.

End Classification.

(** C4.  The value of the classifier is the event kind of the first rule
    that matches, in the order button, select menu, slash command, message
    command (prefix, and token in the live message-command set), mention or
    name, direct message, plain message; and the evaluation stops at that
    rule: whatever cases follow the first true guard, the result and the
    object afterwards are the same. *)
Theorem eventName_first_match_wins (i : UnifiedInteraction.t) :
  fst (UnifiedInteraction.eventName i) = classifyByPriority i
  /\ forall pre c post,
       UnifiedInteraction.eventCases = pre ++ c :: post ->
       forallb (fun c' => negb (fst (UnifiedInteraction.guard c' i))) pre = true ->
       fst (UnifiedInteraction.guard c i) = true ->
       forall other,
         UnifiedInteraction.switchTrue (pre ++ c :: other) i
         = UnifiedInteraction.eventName i.
Proof.
  split; [rewrite eventName_unfold; reflexivity|].
  intros pre c post Hsplit Hpre Hc other.
  assert (Hkeep : forall c', c' ∈ pre ->
            fst (UnifiedInteraction.guard c' i) = false ->
            snd (UnifiedInteraction.guard c' i) = i).
  { intros c' Hc'. apply guard_false_keeps. rewrite Hsplit.
    apply elem_of_app. by left. }
  rewrite (switchTrue_first_match pre c other i Hkeep Hpre Hc).
  unfold UnifiedInteraction.eventName. rewrite Hsplit.
  rewrite (switchTrue_first_match pre c post i Hkeep Hpre Hc). reflexivity.
Qed.

Lemma eventName_first_match_wins_witness :
  fst (UnifiedInteraction.eventName Sample.pingMessage) = Some "messageCommand:ping"
  /\ UnifiedInteraction.switchTrue (firstn 4 UnifiedInteraction.eventCases) Sample.pingMessage
     = UnifiedInteraction.eventName Sample.pingMessage.
Proof.
  destruct (eventName_first_match_wins Sample.pingMessage) as [Hvalue Hstop].
  split.
  - rewrite Hvalue. reflexivity.
  - apply (Hstop (firstn 3 UnifiedInteraction.eventCases)
                 (UnifiedInteraction.mkCase UnifiedInteraction.isMessageCommand
                    (fun i => "messageCommand:" +:+ Js.showUndef (UnifiedInteraction.commandName i)))
                 (skipn 4 UnifiedInteraction.eventCases)
                 eq_refl eq_refl eq_refl []).
Defined.

(** C7.  Evaluating the classifier again on the object the first evaluation
    left gives the same event kind, and leaves the object as it is. *)
Theorem classification_idempotent (i : UnifiedInteraction.t) :
  fst (UnifiedInteraction.eventName (snd (UnifiedInteraction.eventName i)))
  = fst (UnifiedInteraction.eventName i)
  /\ snd (UnifiedInteraction.eventName (snd (UnifiedInteraction.eventName i)))
     = snd (UnifiedInteraction.eventName i).
Proof.
  rewrite (eventName_unfold i). cbn [fst snd].
  destruct (messageCommandMatched i) eqn:Hm.
  - rewrite eventName_unfold. cbn [fst snd].
    assert (Hm' : messageCommandMatched
                    (UnifiedInteraction.set_commandName
                       (Some (UnifiedInteraction.possibleCommand i)) i) = true)
      by exact Hm.
    rewrite Hm'. split; [|reflexivity].
    apply classify_set_commandName.
    unfold messageCommandMatched in Hm.
    destruct (UnifiedInteraction.isSlashCommand i); [|reflexivity].
    rewrite andb_false_r in Hm. discriminate.
  - rewrite eventName_unfold, Hm. split; reflexivity.
Qed.

(** C8, refuted as stated: classifying the message ["!ping now"] assigns the
    [commandName] of the event, which was absent. *)
Lemma classification_assigns_commandName :
  UnifiedInteraction.commandName Sample.pingMessage = None
  /\ UnifiedInteraction.commandName
       (snd (UnifiedInteraction.eventName Sample.pingMessage)) = Some "ping"
  /\ UnifiedInteraction.commandName
       (snd (UnifiedInteraction.isMessageCommand Sample.pingMessage)) = Some "ping"
  /\ snd (UnifiedInteraction.eventName Sample.pingMessage) <> Sample.pingMessage.
Proof. repeat split; try reflexivity. discriminate. Qed.

(** C8, amended.  The classifier and the message-command check assign at
    most [commandName]: when the message-command rule is evaluated and
    matches, [commandName] becomes the token after the prefix; otherwise the
    object is left as it was.  Every other field is the same afterwards. *)
Theorem classification_writes_only_commandName (i : UnifiedInteraction.t) :
  snd (UnifiedInteraction.eventName i)
  = UnifiedInteraction.set_commandName
      (if messageCommandMatched i
       then Some (UnifiedInteraction.possibleCommand i)
       else UnifiedInteraction.commandName i) i
  /\ snd (UnifiedInteraction.isMessageCommand i)
     = UnifiedInteraction.set_commandName
         (if fst (UnifiedInteraction.isMessageCommand i)
          then Some (UnifiedInteraction.possibleCommand i)
          else UnifiedInteraction.commandName i) i.
Proof.
  rewrite eventName_unfold, isMessageCommand_unfold. cbn [fst snd].
  split.
  - destruct (messageCommandMatched i); [reflexivity|].
    symmetry. apply set_commandName_same.
  - destruct (negb _ && negb _ && prefixedCommand i); [reflexivity|].
    symmetry. apply set_commandName_same.
Qed.

(** ** Authorization *)

Section Authorization.

Variable A : Type.
Variable p : A -> bool.

(** A [forEach] that pushes the elements passing a test builds the filtered
    list after what was already there. *)
Lemma foldl_push_filter (l acc : list A) :
  foldl (fun found x => if p x then found ++ [x] else found) acc l
  = acc ++ List.filter p l.
Proof.
  revert acc. induction l as [|x l IH]; intros acc; cbn [foldl List.filter].
  - by rewrite app_nil_r.
  - rewrite IH. destruct (p x); [by rewrite <- app_assoc | reflexivity].
Qed.

Lemma filter_length_le (l : list A) : length (List.filter p l) <= length l.
Proof.
  induction l as [|x l IH]; cbn; [lia|]. destruct (p x); cbn; lia.
Qed.

(** All found: the filtered list is as long as the list. *)
Lemma filter_length_all (l : list A) :
  length (List.filter p l) = length l <-> forall x, x ∈ l -> p x = true.
Proof.
  induction l as [|x l IH]; cbn.
  - split; [intros _ y Hy; by apply elem_of_nil in Hy | reflexivity].
  - pose proof (filter_length_le l) as Hle.
    destruct (p x) eqn:Hx; cbn.
    + split.
      * intros Hlen y Hy. apply elem_of_cons in Hy as [-> | Hy]; [assumption|].
        apply IH; [lia | assumption].
      * intros Hall. f_equal. apply IH. intros y Hy. apply Hall.
        apply elem_of_cons. by right.
    + split; [lia|]. intros Hall.
      specialize (Hall x (proj2 (elem_of_cons _ _ _) (or_introl eq_refl))).
      congruence.
Qed.

(** Some found: the filtered list is not empty. *)
Lemma filter_length_some (l : list A) :
  0 < length (List.filter p l) <-> exists x, x ∈ l /\ p x = true.
Proof.
  induction l as [|x l IH]; cbn.
  - split; [lia | intros (y & Hy & _); by apply elem_of_nil in Hy].
  - destruct (p x) eqn:Hx; cbn.
    + split; [|lia]. intros _. exists x. split; [|assumption].
      apply elem_of_cons. by left.
    + rewrite IH. split.
      * intros (y & Hy & Hp). exists y. split; [|assumption].
        apply elem_of_cons. by right.
      * intros (y & Hy & Hp). apply elem_of_cons in Hy as [-> | Hy]; [congruence|].
        eauto.
Qed.

End Authorization.

(** The role check in closed form. *)
Lemma checkRequiredRoles_unfold c i :
  Command.checkRequiredRoles c i =
    match Command.requiredRoles c with
    | [] => true
    | _ :: _ =>
        let found := List.filter (User.hasRole (UnifiedInteraction.author i))
                                 (Command.requiredRoles c) in
        if Command.requireAllRoles c
        then Nat.eqb (length found) (length (Command.requiredRoles c))
        else Nat.ltb 0 (length found)
    end.
Proof.
  unfold Command.checkRequiredRoles.
  rewrite (foldl_push_filter _ (User.hasRole (UnifiedInteraction.author i))).
  destruct (Command.requiredRoles c); reflexivity.
Qed.

(** A role is matched by its name or by its id. *)
Lemma hasRole_iff u x :
  User.hasRole u x = true
  <-> exists r, r ∈ User.roles u /\ (role_name r = x \/ role_id r = x).
Proof.
  unfold User.hasRole. rewrite existsb_exists. split.
  - intros (r & Hr & Hm). exists r. split; [by apply list_elem_of_In|].
    apply orb_true_iff in Hm as [Hm | Hm]; apply String.eqb_eq in Hm; auto.
  - intros (r & Hr & Hm). exists r. split; [by apply list_elem_of_In|].
    apply orb_true_iff. destruct Hm as [Hm | Hm]; apply String.eqb_eq in Hm; auto.
Qed.

(** A denied event gets the reply protocol with the denial message, and no
    handler call. *)
Lemma listenerWrapper_denied c eventType i handler comment :
  Command.checkRequiredRoles c i = false ->
  exists line rest,
    trace (Command.listenerWrapper c eventType i handler comment)
    = Log LInfo line :: RawReply (Command.requiredRolesErrorMessage c) true :: rest
    /\ forallb replyEffect rest = true.
Proof.
  intros Hdenied. unfold Command.listenerWrapper, Command.info, tell.
  rewrite Hdenied. cbn [negb]. unfold promise.
  pose proof (reply_effects i (Command.requiredRolesErrorMessage c) true) as Heff.
  destruct (reply_starts_direct i (Command.requiredRolesErrorMessage c) true)
    as [rest Hrest].
  destruct (UnifiedInteraction.reply i (Command.requiredRolesErrorMessage c) true)
    as [t [[]|e]]; cbn in Hrest, Heff; subst t; cbn in Heff |- *;
    eexists _, _; (split; [reflexivity|]).
  - rewrite app_nil_r. assumption.
  - rewrite app_nil_r. assumption.
Qed.

(** Reply effects are not handler calls. *)
Lemma replyEffect_not_invoke (t : list Effect) name ev :
  forallb replyEffect t = true -> Invoke name ev ∉ t.
Proof.
  intros Hall Hin. rewrite forallb_forall in Hall.
  apply list_elem_of_In in Hin. apply Hall in Hin. discriminate.
Qed.

(** C3.  With no required role the check succeeds; with [requireAllRoles] it
    succeeds exactly when the Actor has every required role; without it,
    and with some role required, exactly when the Actor has one of them.
    When the check fails the listener logs, runs the reply protocol with the
    descriptor's denial message, ephemeral, and never calls the handler. *)
Theorem authorization_gate (c : Command.t) (i : UnifiedInteraction.t) :
  (Command.requiredRoles c = [] -> Command.checkRequiredRoles c i = true)
  /\ (Command.requireAllRoles c = true ->
      (Command.checkRequiredRoles c i = true
       <-> forall r, r ∈ Command.requiredRoles c ->
                     User.hasRole (UnifiedInteraction.author i) r = true))
  /\ (Command.requireAllRoles c = false -> Command.requiredRoles c <> [] ->
      (Command.checkRequiredRoles c i = true
       <-> exists r, r ∈ Command.requiredRoles c
                     /\ User.hasRole (UnifiedInteraction.author i) r = true))
  /\ (Command.checkRequiredRoles c i = false ->
      forall eventType handler comment,
        (exists line rest,
           trace (Command.listenerWrapper c eventType i handler comment)
           = Log LInfo line
               :: RawReply (Command.requiredRolesErrorMessage c) true :: rest)
        /\ forall name ev,
             Invoke name ev ∉ trace (Command.listenerWrapper c eventType i handler comment)).
Proof.
  split; [|split; [|split]].
  - intros Hroles. rewrite checkRequiredRoles_unfold, Hroles. reflexivity.
  - intros Hall. rewrite checkRequiredRoles_unfold, Hall.
    destruct (Command.requiredRoles c) as [|r0 rs] eqn:Hroles.
    + split; [intros _ r Hr; by apply elem_of_nil in Hr | reflexivity].
    + cbv zeta. rewrite Nat.eqb_eq. apply filter_length_all.
  - intros Hany Hne. rewrite checkRequiredRoles_unfold, Hany.
    destruct (Command.requiredRoles c) as [|r0 rs] eqn:Hroles; [congruence|].
    cbv zeta. rewrite Nat.ltb_lt. apply filter_length_some.
  - intros Hdenied eventType handler comment.
    destruct (listenerWrapper_denied c eventType i handler comment Hdenied)
      as (line & rest & Htrace & Heff).
    split; [eauto|].
    intros name ev. rewrite Htrace. intros Hin.
    apply elem_of_cons in Hin as [Hin | Hin]; [discriminate|].
    apply elem_of_cons in Hin as [Hin | Hin]; [discriminate|].
    by apply (replyEffect_not_invoke rest name ev Heff).
Qed.

Lemma authorization_gate_witness :
  Command.checkRequiredRoles (Sample.gated "ping" [] false) Sample.pingMessage = true
  /\ Command.checkRequiredRoles (Sample.gated "play" ["dj"; "100"] true) Sample.bobMessage = true
  /\ Command.checkRequiredRoles (Sample.gated "play" ["mod"; "dj"] false) Sample.bobMessage = true
  /\ Command.checkRequiredRoles (Sample.gated "play" ["dj"] false) Sample.pingMessage = false
  /\ forall name ev,
       Invoke name ev ∉ trace (Command.listenerWrapper (Sample.gated "play" ["dj"] false)
                                 "Message Command" Sample.pingMessage
                                 (Some Sample.pong) "in DM").
Proof.
  split; [|split; [|split; [|split]]].
  - apply (proj1 (authorization_gate (Sample.gated "ping" [] false) Sample.pingMessage)).
    reflexivity.
  - apply (proj1 (proj2 (authorization_gate (Sample.gated "play" ["dj"; "100"] true)
                           Sample.bobMessage)) eq_refl).
    intros r Hr.
    apply elem_of_cons in Hr as [-> | Hr]; [reflexivity|].
    apply elem_of_cons in Hr as [-> | Hr]; [reflexivity|].
    by apply elem_of_nil in Hr.
  - apply (proj1 (proj2 (proj2 (authorization_gate (Sample.gated "play" ["mod"; "dj"] false)
                                  Sample.bobMessage))) eq_refl).
    + discriminate.
    + exists "dj". split; [|reflexivity].
      apply elem_of_cons. right. apply elem_of_cons. by left.
  - reflexivity.
  - intros name ev.
    apply (proj2 (proj2 (proj2 (authorization_gate (Sample.gated "play" ["dj"] false)
                                  Sample.pingMessage))) eq_refl
             "Message Command" (Some Sample.pong) "in DM").
Defined.

(** The Actor keeps the membership the constructor resolved. *)
Lemma new_member member0 user0 guild0 u :
  User.new member0 user0 guild0 = Ok u ->
  User.member u = User.pickMember member0 user0 guild0.
Proof.
  unfold User.new, User.initFromUser, User.initFromMember, User.finish.
  cbn [User.p_member]. destruct (User.pickMember member0 user0 guild0) as [m|].
  - cbn. intros [= <-]. reflexivity.
  - destruct user0 as [usr|]; [|discriminate]. cbn. intros [= <-]. reflexivity.
Qed.

(** C10.  [hasRole] matches a required entry against the name or the id of
    each of the Actor's roles, and the authorization check is decided by
    these matches alone: it passes exactly when the policy is empty, or
    every required entry (under [requireAllRoles]) or some required entry
    (otherwise) equals the name or the id of one of the author's roles, so
    a policy may mix names and ids.  An Actor built without a resolved
    membership has no role and fails every policy that requires some
    role. *)
Theorem roles_match_by_name_or_id :
  (forall u x,
     User.hasRole u x = true
     <-> exists r, r ∈ User.roles u /\ (role_name r = x \/ role_id r = x))
  /\ (forall c i,
        Command.checkRequiredRoles c i = true
        <-> Command.requiredRoles c = []
            \/ if Command.requireAllRoles c
               then forall x, x ∈ Command.requiredRoles c ->
                      exists r, r ∈ User.roles (UnifiedInteraction.author i)
                                /\ (role_name r = x \/ role_id r = x)
               else exists x, x ∈ Command.requiredRoles c
                      /\ exists r, r ∈ User.roles (UnifiedInteraction.author i)
                                   /\ (role_name r = x \/ role_id r = x))
  /\ (forall member0 user0 guild0 u,
        User.new member0 user0 guild0 = Ok u ->
        User.pickMember member0 user0 guild0 = None ->
        User.roles u = []
        /\ forall c i,
             UnifiedInteraction.author i = u ->
             Command.requiredRoles c <> [] ->
             Command.checkRequiredRoles c i = false).
Proof.
  split; [exact hasRole_iff|]. split.
  { intros c i. rewrite checkRequiredRoles_unfold.
    destruct (Command.requiredRoles c) as [|r0 rs] eqn:Hreq; [split; auto|].
    cbv zeta. destruct (Command.requireAllRoles c).
    - rewrite Nat.eqb_eq, filter_length_all. split.
      + intros Hall. right. intros x Hx. apply hasRole_iff. by apply Hall.
      + intros [Hnil | Hall]; [discriminate|].
        intros x Hx. apply hasRole_iff. by apply Hall.
    - rewrite Nat.ltb_lt, filter_length_some. split.
      + intros (x & Hx & Hp). right. exists x. split; [assumption|].
        by apply hasRole_iff.
      + intros [Hnil | (x & Hx & Hp)]; [discriminate|].
        exists x. split; [assumption|]. by apply hasRole_iff. }
  intros member0 user0 guild0 u Hnew Hnone.
  assert (Hroles : User.roles u = []).
  { unfold User.roles. rewrite (new_member _ _ _ _ Hnew), Hnone. reflexivity. }
  split; [assumption|].
  intros c i Hauthor Hne. rewrite checkRequiredRoles_unfold.
  destruct (Command.requiredRoles c) as [|r0 rs] eqn:Hreq; [congruence|].
  cbv zeta.
  assert (Hnone' : forall l, List.filter (User.hasRole (UnifiedInteraction.author i)) l = []).
  { rewrite Hauthor. intros l. induction l as [|r l IH]; [reflexivity|]. cbn.
    unfold User.hasRole at 1. rewrite Hroles. cbn. exact IH. }
  rewrite Hnone'. destruct (Command.requireAllRoles c); reflexivity.
Qed.

Lemma roles_match_by_name_or_id_witness :
  User.hasRole (UnifiedInteraction.author Sample.bobMessage) "100" = true
  /\ Command.checkRequiredRoles (Sample.gated "play" ["dj"; "100"] true)
       Sample.bobMessage = true
  /\ Command.checkRequiredRoles (Sample.gated "play" ["mod"; "100"] false)
       Sample.bobMessage = true
  /\ User.roles Sample.aliceActor = []
  /\ Command.checkRequiredRoles (Sample.gated "play" ["dj"] false) Sample.pingMessage = false.
Proof.
  destruct roles_match_by_name_or_id as (Hmatch & Hcheck & Hnone).
  split; [|split; [|split]].
  - apply Hmatch. exists Sample.djRole. split; [|by right].
    apply elem_of_cons. by left.
  - apply Hcheck. right.
    change (forall x, x ∈ ["dj"; "100"] ->
              exists r, r ∈ [Sample.djRole] /\ (role_name r = x \/ role_id r = x)).
    intros x Hx. exists Sample.djRole. split; [apply elem_of_cons; by left|].
    apply elem_of_cons in Hx as [-> | Hx]; [by left|].
    apply elem_of_cons in Hx as [-> | Hx]; [by right | by apply elem_of_nil in Hx].
  - apply Hcheck. right.
    change (exists x, x ∈ ["mod"; "100"]
              /\ exists r, r ∈ [Sample.djRole] /\ (role_name r = x \/ role_id r = x)).
    exists "100". split; [apply elem_of_cons; right; apply elem_of_cons; by left|].
    exists Sample.djRole. split; [apply elem_of_cons; by left | by right].
  - destruct (Hnone None (Some Sample.alice) GuildNull Sample.aliceActor eq_refl eq_refl)
      as [Hroles Hdeny].
    split; [exact Hroles|].
    apply Hdeny; [reflexivity | discriminate].
Defined.

(** C9, refuted as stated: a message whose [guild] property is missing has
    no guild, normalises, and its [isDM] flag is false. *)
Lemma isDM_false_without_guild :
  guildTruthy (raw_guild Sample.guildless) = None
  /\ exists i, UnifiedInteraction.new Sample.guildless Sample.env0 = Ok i
               /\ UnifiedInteraction.isDM i = false.
Proof. split; [reflexivity|]. eexists. split; reflexivity. Qed.

(** C9, amended.  [isDM] is true exactly when the [guild] property of the
    raw event is [null]. *)
Theorem isDM_iff_guild_null (o : RawEvent) (b : BotEnv) (i : UnifiedInteraction.t) :
  UnifiedInteraction.new o b = Ok i ->
  (UnifiedInteraction.isDM i = true <-> raw_guild o = GuildNull).
Proof.
  unfold UnifiedInteraction.new.
  destruct (User.new _ _ _); [|discriminate]. intros [= <-].
  cbn [UnifiedInteraction.isDM]. unfold UnifiedInteraction.strictNull.
  destruct (raw_guild o); split; congruence.
Qed.

Lemma isDM_iff_guild_null_witness :
  UnifiedInteraction.isDM Sample.pingMessage = true.
Proof.
  apply (isDM_iff_guild_null
           (Sample.message "!ping now" (Some Sample.alice) GuildNull)
           Sample.env0 Sample.pingMessage eq_refl).
  reflexivity.
Defined.

(** ** Registration *)

Lemma listenersOf_on k l reg key :
  Command.listenersOf (Command.on k l reg) key
  = Command.listenersOf reg key ++ (if String.eqb k key then [l] else []).
Proof.
  unfold Command.listenersOf, Command.on.
  destruct (String.eqb_spec k key) as [-> | Hne].
  - by rewrite lookup_insert_eq.
  - rewrite lookup_insert_ne by assumption. by rewrite app_nil_r.
Qed.

(** Attaching listeners keeps, under every event name, the listeners that
    were there and appends the new ones for that name in order. *)
Lemma listenersOf_attachAll kls reg key :
  Command.listenersOf (attachAll kls reg) key
  = Command.listenersOf reg key
    ++ map snd (List.filter (fun kl => String.eqb (fst kl) key) kls).
Proof.
  unfold attachAll. revert reg.
  induction kls as [|[k l] kls IH]; intros reg; cbn [foldl List.filter map].
  - by rewrite app_nil_r.
  - rewrite IH, listenersOf_on. cbn [fst snd].
    destruct (String.eqb k key); cbn [map]; [by rewrite <- app_assoc|].
    by rewrite app_nil_r.
Qed.

Lemma attachAll_app kls1 kls2 reg :
  attachAll (kls1 ++ kls2) reg = attachAll kls2 (attachAll kls1 reg).
Proof. unfold attachAll. apply foldl_app. Qed.

Lemma attachAll_map {A} (f : A -> string * Command.Listener) (l : list A) reg :
  (if Nat.ltb 0 (length l)
   then foldl (fun r x => Command.on (fst (f x)) (snd (f x)) r) reg l
   else reg)
  = attachAll (map f l) reg.
Proof.
  unfold attachAll. destruct l as [|x l]; [reflexivity|].
  cbn [length Nat.ltb Nat.leb]. generalize (x :: l). clear x l. intros l.
  revert reg. induction l as [|x l IH]; intros reg; [reflexivity|].
  cbn [foldl map]. apply IH.
Qed.

(** [_listen] always completes; its log depends on the command only, and the
    table it leaves is the one it was given with the command's listeners
    attached. *)
Lemma listen_unfold c reg :
  Command.listen c reg
  = (trace (Command.listen c ∅), Ok (attachAll (attached c) reg)).
Proof.
  unfold Command.listen, attached.
  rewrite !attachAll_app.
  rewrite <- !attachAll_map. cbn [fst snd].
  destruct (Nat.ltb 0 (length (Command.buttonsHandheld c)));
  destruct (Nat.ltb 0 (length (Command.selectMenusHandheld c)));
  destruct (Command.isSlashCommand c), (Command.isMessageCommand c),
           (isFunction (Command.messageHandler c)),
           (isFunction (Command.mentionHandler c)),
           (isFunction (Command.dmHandler c)),
           (Nat.ltb 0 (length (Command.apiRoutes c)));
    reflexivity.
Qed.

(** Registering a definition into a table that already has listeners goes
    as it does into an empty table, up to the table that comes out. *)
Lemma new_any_registry d reg :
  Command.new d reg
  = match Command.new d ∅ with
    | (t, Ok (c, _)) => (t, Ok (c, attachAll (attached c) reg))
    | (t, Throw e) => (t, Throw e)
    end.
Proof.
  unfold Command.new. destruct (def_name d) as [n|]; [|reflexivity].
  match goal with |- context [Command.check ?c0] =>
    destruct (Command.check c0) as [t1 [c1|e1]] end; [|reflexivity].
  cbn [bind].
  destruct (Command.addOptions c1 (Command.options c1)) as [t2 [[]|e2]];
    [|reflexivity].
  cbn [bind].
  rewrite (listen_unfold (Command.setApiRoot c1) reg).
  set (L := trace (Command.listen (Command.setApiRoot c1) ∅)).
  rewrite (listen_unfold (Command.setApiRoot c1) ∅).
  fold L. cbn. reflexivity.
Qed.

(** C2, refuted as stated: two definitions named [Foo] are registered one
    after the other; the second registration completes, and both commands
    listen on [slashCommand:foo]. *)
Lemma colliding_registration_accepted :
  exists reg1 reg2,
    Command.new (Sample.fooDefinition "first") ∅
      = ([], Ok (Sample.foo "first", reg1))
    /\ Command.new (Sample.fooDefinition "second") reg1
       = ([], Ok (Sample.foo "second", reg2))
    /\ Command.listenersOf reg2 "slashCommand:foo"
       = [ Command.mkListener (Sample.foo "first") Command.SlashL;
           Command.mkListener (Sample.foo "second") Command.SlashL ].
Proof. eexists _, _. repeat split. Qed.

(** C2, amended.  A later registration is not affected by what is already
    registered: it completes in a table with listeners exactly as it does
    in the empty table, and under every event name the listeners attached
    before stay, in their order, followed by the listeners of the new
    command for that name.  Two commands with a common event name share it. *)
Theorem colliding_registration_shares_key
    (d1 d2 : CommandDefinition) (reg0 reg1 regAlone : Command.Registry)
    (t1 t2 : list Effect) (c1 c2 : Command.t) :
  Command.new d1 reg0 = (t1, Ok (c1, reg1)) ->
  Command.new d2 ∅ = (t2, Ok (c2, regAlone)) ->
  exists reg2,
    Command.new d2 reg1 = (t2, Ok (c2, reg2))
    /\ forall key,
         Command.listenersOf reg2 key
         = Command.listenersOf reg0 key ++ ownListeners c1 key ++ ownListeners c2 key.
Proof.
  intros H1 H2.
  rewrite new_any_registry in H1.
  destruct (Command.new d1 ∅) as [t1' [[c1' r1']|e1]]; [|discriminate].
  injection H1 as <- <- <-.
  exists (attachAll (attached c2) (attachAll (attached c1') reg0)).
  split.
  - rewrite new_any_registry, H2. reflexivity.
  - intros key. rewrite !listenersOf_attachAll, <- app_assoc. reflexivity.
Qed.

Lemma colliding_registration_shares_key_witness :
  exists reg2,
    Command.new (Sample.fooDefinition "second")
      (attachAll (attached (Sample.foo "first")) ∅)
    = ([], Ok (Sample.foo "second", reg2))
    /\ Command.listenersOf reg2 "slashCommand:foo"
       = [ Command.mkListener (Sample.foo "first") Command.SlashL;
           Command.mkListener (Sample.foo "second") Command.SlashL ].
Proof.
  destruct (colliding_registration_shares_key
              (Sample.fooDefinition "first") (Sample.fooDefinition "second")
              ∅ (attachAll (attached (Sample.foo "first")) ∅)
              (attachAll (attached (Sample.foo "second")) ∅)
              [] [] (Sample.foo "first") (Sample.foo "second")
              eq_refl eq_refl) as (reg2 & Hnew & Hkeys).
  exists reg2. split; [exact Hnew|].
  rewrite (Hkeys "slashCommand:foo"). reflexivity.
Defined.

(** ** Dispatch *)

(** Normalisation costs the fetch of a partial event and nothing else. *)
Lemma normalize_unfold b incoming :
  DiscordBot.normalize b incoming
  = match resolved incoming with
    | Ok o => (fetchTrace incoming, UnifiedInteraction.new o (DiscordBot.env b))
    | Throw e => (fetchTrace incoming, Throw e)
    end.
Proof.
  unfold DiscordBot.normalize, resolved, fetchTrace, lift, tell, bind.
  destruct incoming as [o | stub [o | e]]; try reflexivity;
    destruct (UnifiedInteraction.new o (DiscordBot.env b)); reflexivity.
Qed.

Lemma fetchTrace_quiet incoming :
  (forall key, Emit key ∉ fetchTrace incoming)
  /\ (forall name ev, Invoke name ev ∉ fetchTrace incoming)
  /\ (forall text eph, RawReply text eph ∉ fetchTrace incoming).
Proof.
  destruct incoming; cbn; repeat split; intros;
    rewrite ?elem_of_cons, ?elem_of_nil; intuition discriminate.
Qed.

(** C5.  An event whose author is a bot account ends the dispatch right
    after normalisation: nothing more happens when the author is this bot,
    one information line is logged when it is another bot.  No event kind
    is computed or emitted and no handler is called. *)
Theorem bot_authored_event_dropped
    (b : DiscordBot.t) (incoming : DiscordBot.Incoming)
    (t : list Effect) (i : UnifiedInteraction.t) :
  DiscordBot.normalize b incoming = (t, Ok i) ->
  UnifiedInteraction.isFromBot i = true ->
  DiscordBot.handleInteraction b incoming
  = (fetchTrace incoming
       ++ (if UnifiedInteraction.isFromMe i then []
           else [Log LInfo ("Ignoring interaction from a bot "
                            +:+ User.userId (UnifiedInteraction.author i))]),
     Ok tt)
  /\ DiscordBot.mainListener b incoming = DiscordBot.handleInteraction b incoming
  /\ (forall key, Emit key ∉ trace (DiscordBot.handleInteraction b incoming))
  /\ (forall name ev, Invoke name ev ∉ trace (DiscordBot.handleInteraction b incoming)).
Proof.
  intros Hnorm Hbot.
  assert (Ht : t = fetchTrace incoming).
  { rewrite normalize_unfold in Hnorm.
    destruct (resolved incoming); congruence. }
  subst t.
  assert (Hrun : DiscordBot.handleInteraction b incoming
    = (fetchTrace incoming
         ++ (if UnifiedInteraction.isFromMe i then []
             else [Log LInfo ("Ignoring interaction from a bot "
                              +:+ User.userId (UnifiedInteraction.author i))]),
       Ok tt)).
  { unfold DiscordBot.handleInteraction. rewrite Hnorm. cbn [bind].
    rewrite Hbot. destruct (UnifiedInteraction.isFromMe i); reflexivity. }
  split; [exact Hrun|].
  split; [unfold DiscordBot.mainListener; rewrite Hrun; reflexivity|].
  rewrite Hrun. cbn [trace fst].
  destruct (fetchTrace_quiet incoming) as (Hemit & Hinvoke & _).
  split.
  - intros key Hin. apply elem_of_app in Hin as [Hin | Hin]; [by apply (Hemit key)|].
    destruct (UnifiedInteraction.isFromMe i);
      [by apply elem_of_nil in Hin|].
    apply elem_of_cons in Hin as [Hin | Hin]; [discriminate | by apply elem_of_nil in Hin].
  - intros name ev Hin.
    apply elem_of_app in Hin as [Hin | Hin]; [by apply (Hinvoke name ev)|].
    destruct (UnifiedInteraction.isFromMe i);
      [by apply elem_of_nil in Hin|].
    apply elem_of_cons in Hin as [Hin | Hin]; [discriminate | by apply elem_of_nil in Hin].
Qed.

Lemma bot_authored_event_dropped_witness :
  DiscordBot.handleInteraction Sample.bot0 (DiscordBot.Full Sample.fromSelf) = ([], Ok tt)
  /\ DiscordBot.handleInteraction Sample.bot0
       (DiscordBot.Partial Sample.anonymous (Ok Sample.fromOtherBot))
     = ([RawFetch; Log LInfo "Ignoring interaction from a bot 77"], Ok tt).
Proof.
  split.
  - apply (bot_authored_event_dropped Sample.bot0 (DiscordBot.Full Sample.fromSelf)
             [] (Sample.wrap Sample.fromSelf) eq_refl eq_refl).
  - apply (bot_authored_event_dropped Sample.bot0
             (DiscordBot.Partial Sample.anonymous (Ok Sample.fromOtherBot))
             [RawFetch] (Sample.wrap Sample.fromOtherBot) eq_refl eq_refl).
Defined.

(** The constructor of the Actor fails when there is neither a member nor a
    user. *)
Lemma User_new_nobody guild0 :
  User.new None None guild0
  = Throw (TypeError "Cannot read properties of undefined (reading 'id')").
Proof. reflexivity. Qed.

(** The [initialized] check at the end of the constructor never fires. *)
Lemma User_new_never_uninitialized member0 user0 guild0 msg :
  User.new member0 user0 guild0 <> Throw (Error msg).
Proof.
  unfold User.new, User.initFromUser, User.initFromMember, User.finish.
  cbn [User.p_member].
  destruct (User.pickMember member0 user0 guild0) as [m|]; [discriminate|].
  destruct user0; discriminate.
Qed.

(** C6, refuted as stated: for an event with no member, no user and no
    author the wrapping fails, and the dispatcher does send a reply: the
    generic error text, on the raw event. *)
Lemma unresolved_author_is_answered :
  (exists e, UnifiedInteraction.new Sample.anonymous Sample.env0 = Throw e)
  /\ RawReply "Oh no..." false
     ∈ trace (DiscordBot.mainListener Sample.bot0 (DiscordBot.Full Sample.anonymous)).
Proof.
  split; [eexists; reflexivity|].
  cbn. apply elem_of_cons. right. apply elem_of_cons. by left.
Qed.

(** C6, amended.  When the complete event has no member, no user and no
    author, wrapping it fails and the dispatcher ends this event: it logs
    the error and calls the raw event's [reply] once with the configured
    error text; it emits no event kind and calls no handler. *)
Theorem unresolved_author_aborts_event
    (b : DiscordBot.t) (incoming : DiscordBot.Incoming) (o : RawEvent) :
  resolved incoming = Ok o ->
  raw_member o = None -> raw_user o = None -> raw_author o = None ->
  exists e,
    UnifiedInteraction.new o (DiscordBot.env b) = Throw e
    /\ trace (DiscordBot.mainListener b incoming)
       = fetchTrace incoming
         ++ [ Log LError (errorMessage e);
              RawReply (errorContent (DiscordBot.env b)) false ]
    /\ (forall key, Emit key ∉ trace (DiscordBot.mainListener b incoming))
    /\ (forall name ev, Invoke name ev ∉ trace (DiscordBot.mainListener b incoming)).
Proof.
  intros Hres Hmember Huser Hauthor.
  exists (TypeError "Cannot read properties of undefined (reading 'id')").
  assert (Hnew : UnifiedInteraction.new o (DiscordBot.env b)
                 = Throw (TypeError "Cannot read properties of undefined (reading 'id')")).
  { unfold UnifiedInteraction.new. rewrite Hmember, Huser, Hauthor.
    cbn [UnifiedInteraction.orElse]. rewrite User_new_nobody. reflexivity. }
  assert (Htrace : trace (DiscordBot.mainListener b incoming)
       = fetchTrace incoming
         ++ [ Log LError "Cannot read properties of undefined (reading 'id')";
              RawReply (errorContent (DiscordBot.env b)) false ]).
  { unfold DiscordBot.mainListener, DiscordBot.handleInteraction.
    rewrite normalize_unfold, Hres, Hnew. cbn [bind tryCatch].
    unfold UnifiedInteraction.platformCall, Command.error, tell, bind.
    destruct (raw_replyResult (DiscordBot.delivered incoming)); reflexivity. }
  split; [exact Hnew|]. split; [exact Htrace|].
  rewrite Htrace.
  destruct (fetchTrace_quiet incoming) as (Hemit & Hinvoke & _).
  split.
  - intros key Hin. apply elem_of_app in Hin as [Hin | Hin]; [by apply (Hemit key)|].
    repeat (apply elem_of_cons in Hin as [Hin | Hin]; [discriminate|]).
    by apply elem_of_nil in Hin.
  - intros name ev Hin.
    apply elem_of_app in Hin as [Hin | Hin]; [by apply (Hinvoke name ev)|].
    repeat (apply elem_of_cons in Hin as [Hin | Hin]; [discriminate|]).
    by apply elem_of_nil in Hin.
Qed.

Lemma unresolved_author_aborts_event_witness :
  exists e,
    UnifiedInteraction.new Sample.anonymous Sample.env0 = Throw e
    /\ trace (DiscordBot.mainListener Sample.bot0 (DiscordBot.Full Sample.anonymous))
       = [ Log LError (errorMessage e); RawReply "Oh no..." false ].
Proof.
  destruct (unresolved_author_aborts_event Sample.bot0
              (DiscordBot.Full Sample.anonymous) Sample.anonymous
              eq_refl eq_refl eq_refl eq_refl) as (e & Hnew & Htrace & _).
  exists e. split; [exact Hnew | exact Htrace].
Defined.

(** * Further properties of the modelled code *)

(** ** The Actor constructor *)

(** X1.  The constructor fails exactly when no membership is resolved and no
    user is given; the failure is the TypeError of reading [user.id], never
    the constructor's own "must be initialized" error. *)
Theorem User_new_fails_iff (member0 : option Member) (user0 : option RawUser)
    (guild0 : GuildField) :
  (User.pickMember member0 user0 guild0 = None /\ user0 = None
   <-> User.new member0 user0 guild0
       = Throw (TypeError "Cannot read properties of undefined (reading 'id')"))
  /\ (forall e, User.new member0 user0 guild0 = Throw e ->
        e = TypeError "Cannot read properties of undefined (reading 'id')").
Proof.
  unfold User.new, User.initFromUser, User.initFromMember, User.finish.
  cbn [User.p_member].
  destruct (User.pickMember member0 user0 guild0) as [m|]; cbn.
  - split; [split; [intros [? _]; discriminate | discriminate] | discriminate].
  - destruct user0 as [u|]; cbn.
    + split; [split; [intros [_ ?]; discriminate | discriminate] | discriminate].
    + split; [split; [reflexivity | auto] | congruence].
Qed.

(** X2.  When a user and a guild are given, the [member] argument is not
    looked at: the membership is the guild cache's entry for the user's id.
    With an entry, the Actor's membership is that entry, and its roles, user
    and id are the entry's, whatever member and user were passed; with no
    entry the Actor has no membership and no role, whatever member was
    passed. *)
Theorem User_new_ignores_member_with_guild (member0 : option Member)
    (u : RawUser) (g : Guild) :
  User.new member0 (Some u) (GuildObject g) = User.new None (Some u) (GuildObject g)
  /\ (forall m, guild_members g !! user_id u = Some m ->
        exists a, User.new member0 (Some u) (GuildObject g) = Ok a
                  /\ User.member a = Some m
                  /\ User.roles a = member_roles m
                  /\ User.user a = member_user m
                  /\ User.userId a = user_id (member_user m))
  /\ (guild_members g !! user_id u = None ->
      exists a, User.new member0 (Some u) (GuildObject g) = Ok a
                /\ User.member a = None /\ User.roles a = []
                /\ User.user a = u).
Proof.
  split; [reflexivity|]. split.
  - intros m Hhit. unfold User.new, User.pickMember. cbn [guildTruthy].
    rewrite Hhit. cbn. eexists. repeat split.
  - intros Hmiss. unfold User.new, User.pickMember. cbn [guildTruthy].
    rewrite Hmiss. cbn. eexists. repeat split.
Qed.

Lemma User_new_ignores_member_with_guild_witness :
  (exists a,
     User.new (Some Sample.bobMember) (Some Sample.alice) (GuildObject Sample.stable) = Ok a
     /\ User.member a = None /\ User.roles a = [] /\ User.user a = Sample.alice)
  /\ (exists a,
        User.new None (Some Sample.bob) (GuildObject Sample.stable) = Ok a
        /\ User.member a = Some Sample.bobMember
        /\ User.roles a = [Sample.djRole]
        /\ User.user a = Sample.bob
        /\ User.userId a = "43").
Proof.
  split.
  - apply (proj2 (proj2 (User_new_ignores_member_with_guild
                           (Some Sample.bobMember) Sample.alice Sample.stable))).
    reflexivity.
  - apply (proj1 (proj2 (User_new_ignores_member_with_guild
                           None Sample.bob Sample.stable)) Sample.bobMember).
    reflexivity.
Defined.

(** X3.  An Actor that the constructor returns is consistent: it is
    initialised, its id and bot flag are those of its user, and its user and
    both nicknames are those of its membership when it has one; without a
    membership its user is the one given and both nicknames are the empty
    string. *)
Theorem User_new_consistent (member0 : option Member) (user0 : option RawUser)
    (guild0 : GuildField) (a : User.t) :
  User.new member0 user0 guild0 = Ok a ->
  User.initialized a = true
  /\ User.userId a = user_id (User.user a)
  /\ User.isBot a = user_bot (User.user a)
  /\ match User.member a with
     | Some m => User.user a = member_user m
                 /\ User.currentNickname a = member_nickname m
                 /\ User.originalNickname a = member_nickname m
     | None => user0 = Some (User.user a)
               /\ User.currentNickname a = Some EmptyString
               /\ User.originalNickname a = Some EmptyString
     end.
Proof.
  unfold User.new, User.initFromUser, User.initFromMember, User.finish.
  cbn [User.p_member].
  destruct (User.pickMember member0 user0 guild0) as [m|]; cbn.
  - intros [= <-]. cbn. rewrite orb_false_r. repeat split.
  - destruct user0 as [u|]; [|discriminate]. cbn.
    intros [= <-]. cbn. rewrite orb_false_r. repeat split.
Qed.

Lemma User_new_consistent_witness :
  User.userId Sample.aliceActor = user_id (User.user Sample.aliceActor)
  /\ User.isBot Sample.aliceActor = user_bot (User.user Sample.aliceActor)
  /\ User.currentNickname Sample.aliceActor = Some EmptyString
  /\ User.originalNickname Sample.aliceActor = Some EmptyString.
Proof.
  destruct (User_new_consistent None (Some Sample.alice) GuildNull
              Sample.aliceActor eq_refl) as (_ & Hid & Hbot & Hrest).
  destruct Hrest as (_ & Hcurrent & Horiginal).
  repeat split; assumption.
Defined.

(** ** Replies and classification *)

Import Observed.

(** X4.  A reply calls the platform with the payload it was given and
    nothing else: the direct reply alone when it resolves, otherwise the
    direct reply, the edit and the follow-up, once each and in this order. *)
Theorem reply_platform_calls (i : UnifiedInteraction.t) (text : string)
    (ephemeral : bool) :
  platformReplies (trace (UnifiedInteraction.reply i text ephemeral))
  = match raw_replyResult (UnifiedInteraction.originalObject i) with
    | None => [RawReply text ephemeral]
    | Some _ => [RawReply text ephemeral; RawEditReply text ephemeral;
                 RawFollowUp text ephemeral]
    end.
Proof.
  unfold UnifiedInteraction.reply, UnifiedInteraction.platformCall,
    UnifiedInteraction.warnFailed.
  destruct (raw_replyResult (UnifiedInteraction.originalObject i)),
           (raw_editReplyResult (UnifiedInteraction.originalObject i)),
           (raw_followUpResult (UnifiedInteraction.originalObject i));
    reflexivity.
Qed.

(** The wrapped event starts unreplied. *)
Lemma new_replied o b i :
  UnifiedInteraction.new o b = Ok i -> UnifiedInteraction.replied i = false.
Proof.
  unfold UnifiedInteraction.new. destruct (User.new _ _ _); [|discriminate].
  intros [= <-]. reflexivity.
Qed.

Lemma eventName_replied i :
  UnifiedInteraction.replied (snd (UnifiedInteraction.eventName i))
  = UnifiedInteraction.replied i.
Proof.
  rewrite eventName_unfold. cbn [snd].
  destruct (messageCommandMatched i); reflexivity.
Qed.

Lemma injectOptions_replied c i i' :
  Command.injectOptions c i = Ok i' ->
  UnifiedInteraction.replied i' = UnifiedInteraction.replied i.
Proof.
  unfold Command.injectOptions.
  destruct (Command.injectEach i ∅ (Command.options c)); [|discriminate].
  intros [= <-]. reflexivity.
Qed.

(** X5.  Nothing sets [replied]: on the interaction the dispatcher builds,
    after classification and after option extraction, [followUp] is the
    reply protocol itself, direct reply first. *)
Theorem followUp_is_reply (o : RawEvent) (b : BotEnv) (i : UnifiedInteraction.t)
    (text : string) (ephemeral : bool) :
  UnifiedInteraction.new o b = Ok i ->
  let i1 := snd (UnifiedInteraction.eventName i) in
  UnifiedInteraction.followUp i text ephemeral
    = UnifiedInteraction.reply i text ephemeral
  /\ UnifiedInteraction.followUp i1 text ephemeral
     = UnifiedInteraction.reply i1 text ephemeral
  /\ forall c i2, Command.injectOptions c i1 = Ok i2 ->
       UnifiedInteraction.followUp i2 text ephemeral
       = UnifiedInteraction.reply i2 text ephemeral.
Proof.
  intros Hnew. pose proof (new_replied o b i Hnew) as Hrep. cbv zeta.
  unfold UnifiedInteraction.followUp.
  rewrite eventName_replied, Hrep. cbn [negb].
  repeat split. intros c i2 Hinj.
  rewrite (injectOptions_replied c _ i2 Hinj), eventName_replied, Hrep.
  reflexivity.
Qed.

Lemma followUp_is_reply_witness :
  UnifiedInteraction.followUp Sample.deferredInteraction "pong" false
  = UnifiedInteraction.reply Sample.deferredInteraction "pong" false.
Proof.
  apply (followUp_is_reply Sample.deferred Sample.env0
           Sample.deferredInteraction "pong" false eq_refl).
Defined.

Lemma eventName_some (i : UnifiedInteraction.t) :
  exists k,
    fst (UnifiedInteraction.eventName i) = Some k
    /\ Js.truthy (Some k) = true
    /\ Js.splitHead ":"%char k ∈ kindNames.
Proof.
  rewrite eventName_unfold. cbn [fst]. unfold classifyByPriority, kindNames.
  destruct (UnifiedInteraction.isButton i);
    [eexists; split; [reflexivity|]; split; [reflexivity|]; cbn; set_solver|].
  destruct (UnifiedInteraction.isSelectMenu i);
    [eexists; split; [reflexivity|]; split; [reflexivity|]; cbn; set_solver|].
  destruct (UnifiedInteraction.isSlashCommand i);
    [eexists; split; [reflexivity|]; split; [reflexivity|]; cbn; set_solver|].
  destruct (prefixedCommand i);
    [eexists; split; [reflexivity|]; split; [reflexivity|]; cbn; set_solver|].
  destruct (UnifiedInteraction.isToMe i || UnifiedInteraction.isMentioningMe i);
    [eexists; split; [reflexivity|]; split; [reflexivity|]; cbn; set_solver|].
  destruct (UnifiedInteraction.isDM i);
    eexists; (split; [reflexivity|]); (split; [reflexivity|]); cbn; set_solver.
Qed.

(** X6.  The classifier always yields an event kind: the [default] branch of
    its [switch] is never taken.  The kind is a non-empty string and its
    segment before the first colon, which names the external notification,
    is one of the seven kind names. *)
Theorem eventName_always_some (i : UnifiedInteraction.t) :
  exists k,
    fst (UnifiedInteraction.eventName i) = Some k
    /\ Js.truthy (Some k) = true
    /\ Js.splitHead ":"%char k ∈ kindNames.
Proof. exact (eventName_some i). Qed.

(** X7.  On a wrapped event the slash-command flag is set exactly when the
    raw event carries a non-empty command name, and then, unless the event
    is a button or select-menu press, the kind is [slashCommand:] followed
    by that very name. *)
Theorem slash_kind_uses_raw_name (o : RawEvent) (b : BotEnv)
    (i : UnifiedInteraction.t) :
  UnifiedInteraction.new o b = Ok i ->
  (UnifiedInteraction.isSlashCommand i = true
   <-> exists n, raw_commandName o = Some n /\ n <> EmptyString)
  /\ forall n,
       raw_commandName o = Some n -> n <> EmptyString ->
       UnifiedInteraction.isButton i = false ->
       UnifiedInteraction.isSelectMenu i = false ->
       UnifiedInteraction.eventName i = (Some ("slashCommand:" +:+ n), i).
Proof.
  unfold UnifiedInteraction.new. destruct (User.new _ _ _) as [a|]; [|discriminate].
  intros [= <-]. split.
  - cbn [UnifiedInteraction.isSlashCommand]. rewrite orb_false_r.
    unfold Js.truthy. destruct (raw_commandName o) as [n|].
    + destruct (String.eqb_spec n EmptyString) as [-> | Hne]; cbn.
      * split; [discriminate | intros (n & [= <-] & Hn); congruence].
      * split; [eauto | reflexivity].
    + split; [discriminate | intros (n & [=] & _)].
  - intros n Hn Hne Hb Hs. rewrite eventName_unfold.
    unfold classifyByPriority, messageCommandMatched. rewrite Hb, Hs.
    cbn [UnifiedInteraction.isSlashCommand UnifiedInteraction.commandName].
    unfold Js.orUndefined, Js.truthy. rewrite Hn.
    apply String.eqb_neq in Hne. rewrite Hne. reflexivity.
Qed.

Lemma slash_kind_uses_raw_name_witness :
  UnifiedInteraction.eventName Sample.deferredInteraction
  = (Some "slashCommand:ping", Sample.deferredInteraction).
Proof.
  apply (proj2 (slash_kind_uses_raw_name Sample.deferred Sample.env0
                  Sample.deferredInteraction eq_refl) "ping");
    [reflexivity | discriminate | reflexivity | reflexivity].
Defined.

(** *** Strings *)

Lemma prefix_empty s : String.prefix EmptyString s = true.
Proof. destruct s; reflexivity. Qed.

Lemma prefix_append p s : String.prefix p (p +:+ s) = true.
Proof.
  induction p as [|c p IH]; [apply prefix_empty|].
  change (String c p +:+ s) with (String c (p +:+ s)).
  change (String.prefix (String c p) (String c (p +:+ s)))
    with (if Ascii.ascii_dec c c then String.prefix p (p +:+ s) else false).
  destruct (Ascii.ascii_dec c c); [exact IH | congruence].
Qed.

Lemma slice_append p s : Js.slice (p +:+ s) (String.length p) = s.
Proof. induction p as [|c p IH]; [destruct s; reflexivity | exact IH]. Qed.

Lemma includes_space_cons c n :
  Js.includes (String c n) " " = false ->
  Ascii.eqb c " "%char = false /\ Js.includes n " " = false.
Proof.
  cbn [Js.includes String.prefix].
  destruct (Ascii.ascii_dec " "%char c) as [<- | Hne];
    [rewrite prefix_empty; discriminate|].
  cbn. intros Hn. split; [|assumption].
  apply Ascii.eqb_neq. congruence.
Qed.

(** The first word of a space-free name followed by nothing or by a space
    and more text is the name. *)
Lemma splitHead_name n :
  spaceFree n = true ->
  Js.splitHead " "%char n = n
  /\ forall rest, Js.splitHead " "%char (n +:+ " " +:+ rest) = n.
Proof.
  unfold spaceFree. rewrite negb_true_iff.
  induction n as [|c n IH]; intros Hfree.
  - split; reflexivity.
  - apply includes_space_cons in Hfree as [Hc Hn].
    destruct (IH Hn) as [IH1 IH2]. split.
    + cbn [Js.splitHead]. by rewrite Hc, IH1.
    + intros rest.
      change (String c n +:+ " " +:+ rest) with (String c (n +:+ " " +:+ rest)).
      cbn [Js.splitHead]. by rewrite Hc, IH2.
Qed.

(** X8.  A text made of the configured prefix, a registered message-command
    name without spaces and, optionally, a space and arguments is a message
    command of that name, on any event that is not a slash command, a button
    or a select menu; the classifier stores the name in [commandName]. *)
Theorem prefixed_name_is_message_command (i : UnifiedInteraction.t)
    (n rest : string) :
  UnifiedInteraction.isSlashCommand i = false ->
  UnifiedInteraction.isButton i = false ->
  UnifiedInteraction.isSelectMenu i = false ->
  spaceFree n = true ->
  n ∈ messageCommands (UnifiedInteraction.bot i) ->
  UnifiedInteraction.content i = prefix (UnifiedInteraction.bot i) +:+ n
  \/ UnifiedInteraction.content i
     = prefix (UnifiedInteraction.bot i) +:+ n +:+ " " +:+ rest ->
  UnifiedInteraction.eventName i
  = (Some ("messageCommand:" +:+ n),
     UnifiedInteraction.set_commandName (Some n) i).
Proof.
  intros Hc Hb Hs Hfree Hin Hcontent.
  destruct (splitHead_name n Hfree) as [Hhead1 Hhead2].
  assert (Hstart : Js.startsWith (UnifiedInteraction.content i)
                     (prefix (UnifiedInteraction.bot i)) = true).
  { unfold Js.startsWith. destruct Hcontent as [-> | ->]; apply prefix_append. }
  assert (Hpc : UnifiedInteraction.possibleCommand i = n).
  { unfold UnifiedInteraction.possibleCommand.
    destruct Hcontent as [-> | ->]; rewrite slice_append; auto. }
  rewrite eventName_unfold.
  unfold classifyByPriority, messageCommandMatched, prefixedCommand.
  rewrite Hb, Hs, Hc, Hstart, Hpc. cbn [negb andb].
  rewrite bool_decide_eq_true_2 by assumption. reflexivity.
Qed.

Lemma prefixed_name_is_message_command_witness :
  UnifiedInteraction.eventName Sample.pingMessage
  = (Some "messageCommand:ping",
     UnifiedInteraction.set_commandName (Some "ping") Sample.pingMessage).
Proof.
  apply (prefixed_name_is_message_command Sample.pingMessage "ping" "now"
           eq_refl eq_refl eq_refl eq_refl).
  - vm_compute. reflexivity.
  - right. reflexivity.
Defined.

(** ** Registration of a command *)

Import Registered.

(** [_check] in closed form: it fails on a missing name or description and
    otherwise returns the command with the orphan identifiers dropped. *)
Lemma check_unfold c :
  Command.check c
  = if negb (Js.truthy (Some (Command.name c)))
    then ([], Throw (Error "A command must have a name..."))
    else if negb (Js.truthy (Command.description c))
    then ([], Throw (Error ("Command " +:+ Command.name c +:+ " must have a description")))
    else (trace (Command.check c), Ok (keptMenus (keptButtons c))).
Proof.
  destruct c as [n d ch bh sh mh gh dh sl ml dm rr ra re os bs ss rp ar].
  unfold Command.check, keptMenus, keptButtons, Command.warn, tell.
  cbn [Command.name Command.description Command.buttonsHandheld
       Command.buttonsHandler Command.selectMenusHandheld
       Command.selectMenusHandler].
  destruct (Js.truthy (Some n)); [|reflexivity].
  destruct (Js.truthy d); [|reflexivity].
  destruct bs, bh, ss, sh, sl, ml, ch; reflexivity.
Qed.

Lemma toLowerCase_empty n : Js.toLowerCase n = EmptyString <-> n = EmptyString.
Proof. destruct n; cbn; split; congruence. Qed.

Lemma truthy_toLowerCase n :
  Js.truthy (Some (Js.toLowerCase n)) = Js.truthy (Some n).
Proof. destruct n; reflexivity. Qed.

Lemma addOption_unfold c opt :
  Command.isSlashCommand c = true ->
  if validOption opt
  then Command.addOption c opt = ret tt
  else exists e, Command.addOption c opt = throw e.
Proof.
  intros Hs. unfold Command.addOption, validOption. rewrite Hs. cbn [negb].
  destruct (Js.truthy (opt_name opt)); cbn [negb andb]; [|eauto].
  destruct (Js.truthy (opt_description opt)); cbn [negb andb]; [|eauto].
  destruct (opt_nameLocalized opt); cbn [negb andb]; [eauto|].
  destruct (opt_descriptionLocalized opt); cbn [negb andb]; [eauto|].
  destruct (opt_choices opt); cbn [negb andb]; [eauto|].
  destruct (Command.knownOptionType (opt_type opt)); eauto.
Qed.

(** [_addOptions] completes, silently, exactly when the command is not a
    slash command or every option is valid. *)
Lemma addOptions_unfold c opts :
  if negb (Command.isSlashCommand c) || forallb validOption opts
  then Command.addOptions c opts = ([], Ok tt)
  else exists e, Command.addOptions c opts = ([], Throw e).
Proof.
  destruct (Command.isSlashCommand c) eqn:Hs; cbn [negb orb].
  - induction opts as [|opt opts IH]; [reflexivity|].
    cbn [forallb Command.addOptions].
    pose proof (addOption_unfold c opt Hs) as Hopt.
    destruct (validOption opt); cbn [andb].
    + rewrite Hopt, bind_ret_l. exact IH.
    + destruct Hopt as [e ->]. exists e. reflexivity.
  - induction opts as [|opt opts IH]; [reflexivity|].
    cbn [Command.addOptions]. unfold Command.addOption. rewrite Hs. cbn [negb].
    rewrite bind_ret_l. exact IH.
Qed.

Lemma kept_fields c :
  let c' := keptMenus (keptButtons c) in
  Command.name c' = Command.name c
  /\ Command.description c' = Command.description c
  /\ Command.options c' = Command.options c
  /\ Command.isSlashCommand c' = Command.isSlashCommand c
  /\ Command.apiRoutes c' = Command.apiRoutes c.
Proof.
  unfold keptMenus, keptButtons.
  destruct (_ && _); destruct (_ && _); repeat split.
Qed.

Lemma outcome_bind_ok {A B} (m : Eff A) (k : A -> Eff B) t a :
  m = (t, Ok a) -> outcome (bind m k) = outcome (k a).
Proof. intros H. rewrite (bind_trace_ok m k t a H). reflexivity. Qed.

Lemma outcome_bind_throw {A B} (m : Eff A) (k : A -> Eff B) t e :
  m = (t, Throw e) -> outcome (bind m k) = Throw e.
Proof. intros ->. reflexivity. Qed.

(** The constructor succeeds on an acceptable definition, with the command
    [built] and its listeners attached. *)
Lemma new_ok d reg n :
  def_name d = Some n -> acceptable d = true ->
  outcome (Command.new d reg)
  = Ok (built d n, attachAll (attached (built d n)) reg).
Proof.
  intros Hname Hacc. unfold acceptable in Hacc. rewrite Hname in Hacc.
  apply andb_true_iff in Hacc as [Hacc Hopts].
  apply andb_true_iff in Hacc as [Hn Hd].
  unfold Command.new. rewrite Hname. fold (initial d n).
  pose proof (check_unfold (initial d n)) as Hcheck.
  change (Command.name (initial d n)) with (Js.toLowerCase n) in Hcheck.
  change (Command.description (initial d n)) with (def_description d) in Hcheck.
  rewrite truthy_toLowerCase, Hn, Hd in Hcheck. cbn [negb] in Hcheck.
  rewrite (outcome_bind_ok _ _ _ _ Hcheck).
  destruct (kept_fields (initial d n)) as (_ & _ & Hopts' & Hslash & _).
  pose proof (addOptions_unfold (keptMenus (keptButtons (initial d n)))
                (Command.options (keptMenus (keptButtons (initial d n))))) as Hadd.
  rewrite Hslash, Hopts' in Hadd.
  change (Command.isSlashCommand (initial d n))
    with (default true (def_isSlashCommand d)) in Hadd.
  change (Command.options (initial d n)) with (default [] (def_options d)) in Hadd.
  rewrite Hopts in Hadd. rewrite Hopts'.
  change (Command.options (initial d n)) with (default [] (def_options d)).
  rewrite (outcome_bind_ok _ _ _ _ Hadd).
  rewrite (outcome_bind_ok _ _ _ _ (listen_unfold _ reg)).
  reflexivity.
Qed.

(** The constructor throws on any other definition. *)
Lemma new_fail d reg :
  acceptable d = false -> exists e, outcome (Command.new d reg) = Throw e.
Proof.
  intros Hacc. unfold acceptable in Hacc. unfold Command.new.
  destruct (def_name d) as [n|]; [|eauto]. fold (initial d n).
  pose proof (check_unfold (initial d n)) as Hcheck.
  change (Command.name (initial d n)) with (Js.toLowerCase n) in Hcheck.
  change (Command.description (initial d n)) with (def_description d) in Hcheck.
  rewrite truthy_toLowerCase in Hcheck.
  destruct (Js.truthy (Some n)); cbn [negb andb] in Hacc, Hcheck;
    [|rewrite (outcome_bind_throw _ _ _ _ Hcheck); eauto].
  destruct (Js.truthy (def_description d)); cbn [negb andb] in Hacc, Hcheck;
    [|rewrite (outcome_bind_throw _ _ _ _ Hcheck); eauto].
  rewrite (outcome_bind_ok _ _ _ _ Hcheck).
  destruct (kept_fields (initial d n)) as (_ & _ & Hopts' & Hslash & _).
  pose proof (addOptions_unfold (keptMenus (keptButtons (initial d n)))
                (Command.options (keptMenus (keptButtons (initial d n))))) as Hadd.
  rewrite Hslash, Hopts' in Hadd.
  change (Command.isSlashCommand (initial d n))
    with (default true (def_isSlashCommand d)) in Hadd.
  change (Command.options (initial d n)) with (default [] (def_options d)) in Hadd.
  rewrite Hacc in Hadd. destruct Hadd as [e Hadd]. rewrite Hopts'.
  change (Command.options (initial d n)) with (default [] (def_options d)).
  rewrite (outcome_bind_throw _ _ _ _ Hadd). eauto.
Qed.

(** What a successful registration returns. *)
Lemma new_ok_inv d reg t c reg' :
  Command.new d reg = (t, Ok (c, reg')) ->
  acceptable d = true
  /\ exists n, def_name d = Some n /\ c = built d n
               /\ reg' = attachAll (attached c) reg.
Proof.
  intros Hnew. assert (Hout : outcome (Command.new d reg) = Ok (c, reg'))
    by (rewrite Hnew; reflexivity).
  destruct (acceptable d) eqn:Hacc.
  - split; [reflexivity|].
    destruct (def_name d) as [n|] eqn:Hname;
      [|unfold acceptable in Hacc; rewrite Hname in Hacc; discriminate].
    rewrite (new_ok d reg n Hname Hacc) in Hout. injection Hout as <- <-.
    eauto.
  - destruct (new_fail d reg Hacc) as [e He]. congruence.
Qed.

(** What [_listen] attaches: every pair is a listener of the command under
    its own event name, and its kind is one the command declared. *)
Lemma attached_spec c k l :
  (k, l) ∈ attached c <->
  k = keyOf l /\ Command.l_command l = c /\ declares c l.
Proof.
  unfold attached, declares, keyOf. rewrite !elem_of_app, !list_elem_of_In, !in_map_iff.
  split.
  - intros [H|[H|[H|[H|[H|[H|H]]]]]].
    + destruct H as (x & [= <- <-] & Hx). cbn. by rewrite list_elem_of_In.
    + destruct H as (x & [= <- <-] & Hx). cbn. by rewrite list_elem_of_In.
    + destruct (Command.isSlashCommand c); [|by destruct H].
      destruct H as [[= <- <-]|[]]. cbn. auto.
    + destruct (Command.isMessageCommand c); [|by destruct H].
      destruct H as [[= <- <-]|[]]. cbn. auto.
    + destruct (isFunction (Command.messageHandler c)); [|by destruct H].
      destruct H as [[= <- <-]|[]]. cbn. auto.
    + destruct (isFunction (Command.mentionHandler c)); [|by destruct H].
      destruct H as [[= <- <-]|[]]. cbn. auto.
    + destruct (isFunction (Command.dmHandler c)); [|by destruct H].
      destruct H as [[= <- <-]|[]]. cbn. auto.
  - destruct l as [c' kind]. cbn. intros (-> & -> & Hdecl).
    destruct kind as [buttonId|selectMenuId| | | | | ].
    + left. exists buttonId. split; [reflexivity | by apply list_elem_of_In].
    + right; left. exists selectMenuId. split; [reflexivity | by apply list_elem_of_In].
    + right; right; left. rewrite Hdecl. by left.
    + right; right; right; left. rewrite Hdecl. by left.
    + right; right; right; right; left. rewrite Hdecl. by left.
    + right; right; right; right; right; left. rewrite Hdecl. by left.
    + right; right; right; right; right; right. rewrite Hdecl. by left.
Qed.

Lemma ownListeners_spec c key l :
  l ∈ ownListeners c key <->
  keyOf l = key /\ Command.l_command l = c /\ declares c l.
Proof.
  unfold ownListeners. rewrite list_elem_of_In, in_map_iff. split.
  - intros ([k l'] & Hl & Hin). cbn in Hl. subst l'.
    apply filter_In in Hin as [Hin Hk]. cbn in Hk. apply String.eqb_eq in Hk.
    apply list_elem_of_In, attached_spec in Hin as (-> & ? & ?). auto.
  - intros (Hk & Hc & Hd). exists (key, l). split; [reflexivity|].
    apply filter_In. split; [|cbn; apply String.eqb_refl].
    apply list_elem_of_In, attached_spec. auto.
Qed.

(** X9.  Registration, into any table, throws on a definition that is not
    acceptable: one without a name (a TypeError, from lowercasing it), with
    an empty name or without a non-empty description (an Error of [_check],
    before anything is logged), or, for a slash command, with an option
    that lacks a name, a description or a known type or that has
    [nameLocalized], [descriptionLocalized] or [choices]. *)
Theorem Command_new_rejects_unacceptable (d : CommandDefinition)
    (reg : Command.Registry) :
  acceptable d = false ->
  (exists e, outcome (Command.new d reg) = Throw e)
  /\ (def_name d = None ->
      exists msg, Command.new d reg = ([], Throw (TypeError msg)))
  /\ (def_name d = Some EmptyString ->
      Command.new d reg = ([], Throw (Error "A command must have a name...")))
  /\ (Js.truthy (def_name d) = true -> Js.truthy (def_description d) = false ->
      exists msg, Command.new d reg = ([], Throw (Error msg))).
Proof.
  intros Hacc. split; [by apply new_fail|]. split; [|split].
  - intros Hname. unfold Command.new. rewrite Hname. eauto.
  - intros Hname. unfold Command.new. rewrite Hname.
    fold (initial d EmptyString).
    rewrite (check_unfold (initial d EmptyString)). reflexivity.
  - intros Hn Hd. unfold Command.new.
    destruct (def_name d) as [n|]; [|discriminate]. fold (initial d n).
    rewrite (check_unfold (initial d n)).
    change (Command.name (initial d n)) with (Js.toLowerCase n).
    change (Command.description (initial d n)) with (def_description d).
    rewrite truthy_toLowerCase, Hn, Hd. cbn. eauto.
Qed.

Lemma Command_new_rejects_unacceptable_witness :
  exists msg, Command.new Cases.undescribed ∅ = ([], Throw (Error msg)).
Proof.
  apply (proj2 (proj2 (proj2 (Command_new_rejects_unacceptable
                                Cases.undescribed ∅ eq_refl)))); reflexivity.
Defined.

(** X10.  A slash command declaring an option with localised names, a
    localised description or choices cannot be registered: the option
    builder is called as an object although it is a function. *)
Theorem localized_option_rejected (d : CommandDefinition) (reg : Command.Registry)
    (opt : OptionDef) :
  default true (def_isSlashCommand d) = true ->
  opt ∈ default [] (def_options d) ->
  opt_nameLocalized opt = true \/ opt_descriptionLocalized opt = true
    \/ opt_choices opt = true ->
  exists e, outcome (Command.new d reg) = Throw e.
Proof.
  intros Hslash Hin Hloc. apply new_fail. unfold acceptable.
  rewrite Hslash. cbn [negb orb].
  assert (Hbad : forallb validOption (default [] (def_options d)) = false).
  { apply not_true_is_false. intros Hall. rewrite forallb_forall in Hall.
    apply list_elem_of_In, Hall in Hin. unfold validOption in Hin.
    destruct Hloc as [H|[H|H]]; rewrite H in Hin; cbn in Hin;
      rewrite ?andb_false_r in Hin; discriminate. }
  rewrite Hbad. by rewrite andb_false_r.
Qed.

Lemma lowerAscii_idempotent c : Js.lowerAscii (Js.lowerAscii c) = Js.lowerAscii c.
Proof.
  destruct c as [[] [] [] [] [] [] [] []]; vm_compute; reflexivity.
Qed.

Lemma toLowerCase_idempotent s : Js.toLowerCase (Js.toLowerCase s) = Js.toLowerCase s.
Proof.
  induction s as [|c s IH]; [reflexivity|]. cbn.
  by rewrite lowerAscii_idempotent, IH.
Qed.

Lemma setApiRoot_fields c :
  Command.name (Command.setApiRoot c) = Command.name c
  /\ Command.description (Command.setApiRoot c) = Command.description c
  /\ Command.options (Command.setApiRoot c) = Command.options c
  /\ Command.isSlashCommand (Command.setApiRoot c) = Command.isSlashCommand c
  /\ Command.buttonsHandheld (Command.setApiRoot c) = Command.buttonsHandheld c
  /\ Command.selectMenusHandheld (Command.setApiRoot c) = Command.selectMenusHandheld c
  /\ Command.buttonsHandler (Command.setApiRoot c) = Command.buttonsHandler c
  /\ Command.selectMenusHandler (Command.setApiRoot c) = Command.selectMenusHandler c
  /\ Command.apiRoutes (Command.setApiRoot c)
     = map (fun route => mkApiRoute (route_method route)
                           ("/" +:+ Command.name c +:+ route_path route))
           (Command.apiRoutes c).
Proof.
  unfold Command.setApiRoot.
  destruct (Command.apiRoutes c) eqn:Hr; cbn; rewrite ?Hr; repeat split.
Qed.

(** X11.  A registered command has the lowercased, non-empty name of its
    definition and a non-empty description; each of its API routes is the
    definition's route with the path put under [/<name>]; and if it is a
    slash command all its options are valid.  (Lowercasing is that of
    [Js.toLowerCase], which covers the ASCII letters.) *)
Theorem registered_command_invariants (d : CommandDefinition)
    (reg reg' : Command.Registry) (t : list Effect) (c : Command.t) :
  Command.new d reg = (t, Ok (c, reg')) ->
  exists n,
    def_name d = Some n
    /\ Command.name c = Js.toLowerCase n
    /\ Command.name c <> EmptyString
    /\ Js.toLowerCase (Command.name c) = Command.name c
    /\ Js.truthy (Command.description c) = true
    /\ Command.apiRoutes c
       = map (fun route => mkApiRoute (route_method route)
                             ("/" +:+ Command.name c +:+ route_path route))
             (default [] (def_apiRoutes d))
    /\ (Command.isSlashCommand c = true ->
        forallb validOption (Command.options c) = true).
Proof.
  intros Hnew. apply new_ok_inv in Hnew as (Hacc & n & Hname & -> & _).
  exists n. split; [assumption|].
  unfold acceptable in Hacc. rewrite Hname in Hacc.
  apply andb_true_iff in Hacc as [Hacc Hopts].
  apply andb_true_iff in Hacc as [Hn Hd].
  unfold built.
  destruct (setApiRoot_fields (keptMenus (keptButtons (initial d n))))
    as (-> & -> & -> & -> & _ & _ & _ & _ & ->).
  destruct (kept_fields (initial d n)) as (-> & -> & -> & -> & ->).
  cbn [initial Command.name Command.description Command.options
       Command.isSlashCommand Command.apiRoutes].
  repeat split.
  - intros Hempty. apply (proj1 (toLowerCase_empty n)) in Hempty.
    rewrite Hempty in Hn. discriminate.
  - apply toLowerCase_idempotent.
  - assumption.
  - intros Hslash. rewrite Hslash in Hopts. exact Hopts.
Qed.

Lemma keptButtons_spec c :
  Command.buttonsHandheld (keptMenus (keptButtons c))
  = (if isFunction (Command.buttonsHandler c) then Command.buttonsHandheld c else [])
  /\ Command.selectMenusHandheld (keptMenus (keptButtons c))
     = (if isFunction (Command.selectMenusHandler c)
        then Command.selectMenusHandheld c else [])
  /\ Command.buttonsHandler (keptMenus (keptButtons c)) = Command.buttonsHandler c
  /\ Command.selectMenusHandler (keptMenus (keptButtons c))
     = Command.selectMenusHandler c.
Proof.
  unfold keptMenus, keptButtons.
  destruct (Command.buttonsHandheld c) eqn:Hb,
           (isFunction (Command.buttonsHandler c)) eqn:Hbh,
           (Command.selectMenusHandheld c) eqn:Hs,
           (isFunction (Command.selectMenusHandler c)) eqn:Hsh;
    cbn; rewrite ?Hs, ?Hsh, ?Hb, ?Hbh; cbn; rewrite ?Hs, ?Hsh, ?Hb, ?Hbh; auto.
Qed.

(** X12.  Registration keeps the button and select-menu identifiers of a
    definition only when the matching handler is a function; otherwise it
    drops them and goes on.  So every button or select-menu listener it
    attaches has its handler, and with no buttons handler the button event
    names of the table are left as they were. *)
Theorem orphan_identifiers_dropped (d : CommandDefinition)
    (reg reg' : Command.Registry) (t : list Effect) (c : Command.t) :
  Command.new d reg = (t, Ok (c, reg')) ->
  Command.buttonsHandheld c
  = (if isFunction (def_buttonsHandler d)
     then default [] (def_buttonsHandheld d) else [])
  /\ Command.selectMenusHandheld c
     = (if isFunction (def_selectMenusHandler d)
        then default [] (def_selectMenusHandheld d) else [])
  /\ (forall key l,
        l ∈ ownListeners c key ->
        (exists id, Command.l_kind l = Command.ButtonL id
                    \/ Command.l_kind l = Command.SelectMenuL id) ->
        isFunction (handlerOf l) = true)
  /\ (def_buttonsHandler d = None ->
      forall id, Command.listenersOf reg' ("button:" +:+ id)
                 = Command.listenersOf reg ("button:" +:+ id)).
Proof.
  intros Hnew. apply new_ok_inv in Hnew as (_ & n & _ & -> & ->).
  assert (Hb : Command.buttonsHandheld (built d n)
               = (if isFunction (def_buttonsHandler d)
                  then default [] (def_buttonsHandheld d) else [])).
  { unfold built.
    destruct (setApiRoot_fields (keptMenus (keptButtons (initial d n))))
      as (_ & _ & _ & _ & -> & _).
    apply (keptButtons_spec (initial d n)). }
  assert (Hs : Command.selectMenusHandheld (built d n)
               = (if isFunction (def_selectMenusHandler d)
                  then default [] (def_selectMenusHandheld d) else [])).
  { unfold built.
    destruct (setApiRoot_fields (keptMenus (keptButtons (initial d n))))
      as (_ & _ & _ & _ & _ & -> & _).
    apply (keptButtons_spec (initial d n)). }
  assert (Hbh : Command.buttonsHandler (built d n) = def_buttonsHandler d).
  { unfold built.
    destruct (setApiRoot_fields (keptMenus (keptButtons (initial d n))))
      as (_ & _ & _ & _ & _ & _ & -> & _).
    apply (keptButtons_spec (initial d n)). }
  assert (Hsh : Command.selectMenusHandler (built d n) = def_selectMenusHandler d).
  { unfold built.
    destruct (setApiRoot_fields (keptMenus (keptButtons (initial d n))))
      as (_ & _ & _ & _ & _ & _ & _ & -> & _).
    apply (keptButtons_spec (initial d n)). }
  split; [exact Hb|]. split; [exact Hs|]. split.
  - intros key l Hl (id & Hkind).
    apply ownListeners_spec in Hl as (_ & Hc & Hdecl).
    unfold handlerOf, declares in *. rewrite Hc.
    destruct Hkind as [Hkind | Hkind]; rewrite Hkind in *.
    + rewrite Hbh. rewrite Hb in Hdecl.
      destruct (isFunction (def_buttonsHandler d)); [reflexivity|].
      by apply elem_of_nil in Hdecl.
    + rewrite Hsh. rewrite Hs in Hdecl.
      destruct (isFunction (def_selectMenusHandler d)); [reflexivity|].
      by apply elem_of_nil in Hdecl.
  - intros Hnone id. rewrite listenersOf_attachAll.
    fold (ownListeners (built d n) ("button:" +:+ id)).
    destruct (ownListeners (built d n) ("button:" +:+ id)) as [|l ls] eqn:Hown;
      [by rewrite app_nil_r|].
    assert (Hl : l ∈ ownListeners (built d n) ("button:" +:+ id))
      by (rewrite Hown; apply elem_of_cons; by left).
    apply ownListeners_spec in Hl as (Hkey & _ & Hdecl).
    unfold keyOf, declares in *. rewrite Hb, Hnone in Hdecl. cbn in Hdecl.
    destruct (Command.l_kind l); try discriminate Hkey.
    by apply elem_of_nil in Hdecl.
Qed.

(** ** Authorization and the listener wrapper *)

Lemma filter_nonempty_existsb {A} (p : A -> bool) (l : list A) :
  Nat.ltb 0 (length (List.filter p l)) = existsb p l.
Proof.
  induction l as [|x l IH]; [reflexivity|]. cbn.
  destruct (p x); [reflexivity | exact IH].
Qed.

(** X13.  Without [requireAllRoles], the role check of a command that
    requires some role is the Actor's [hasOneOfRoles] on the required
    roles. *)
Theorem any_role_policy_is_hasOneOfRoles (c : Command.t) (i : UnifiedInteraction.t) :
  Command.requireAllRoles c = false ->
  Command.requiredRoles c <> [] ->
  Command.checkRequiredRoles c i
  = User.hasOneOfRoles (UnifiedInteraction.author i) (Command.requiredRoles c).
Proof.
  intros Hany Hne. rewrite checkRequiredRoles_unfold, Hany.
  destruct (Command.requiredRoles c) as [|r rs]; [congruence|].
  cbv zeta. apply filter_nonempty_existsb.
Qed.

Lemma any_role_policy_is_hasOneOfRoles_witness :
  Command.checkRequiredRoles (Sample.gated "play" ["mod"; "dj"] false) Sample.bobMessage
  = User.hasOneOfRoles (UnifiedInteraction.author Sample.bobMessage) ["mod"; "dj"].
Proof.
  apply (any_role_policy_is_hasOneOfRoles
           (Sample.gated "play" ["mod"; "dj"] false) Sample.bobMessage eq_refl).
  discriminate.
Defined.

Lemma promise_spec (m : Eff unit) :
  trace (promise m) = trace m /\ exists r, outcome (promise m) = Ok r.
Proof.
  unfold promise. destruct m as [t [[]|e]]; cbn; rewrite app_nil_r; eauto.
Qed.

Lemma invocations_app t1 t2 :
  invocations (t1 ++ t2) = invocations t1 ++ invocations t2.
Proof. unfold invocations. apply List.filter_app. Qed.

Lemma platformReplies_app t1 t2 :
  platformReplies (t1 ++ t2) = platformReplies t1 ++ platformReplies t2.
Proof. unfold platformReplies. apply List.filter_app. Qed.

Lemma invocations_reply i text ephemeral :
  invocations (trace (UnifiedInteraction.reply i text ephemeral)) = [].
Proof.
  pose proof (reply_effects i text ephemeral) as Heff.
  induction (trace (UnifiedInteraction.reply i text ephemeral)) as [|e t IH];
    [reflexivity|].
  cbn in Heff. apply andb_true_iff in Heff as [He Ht].
  unfold invocations. cbn. destruct e; try discriminate; cbn; by apply IH.
Qed.

(** The wrapper in closed form. *)
Lemma listenerWrapper_unfold c eventType i handler comment :
  exists line,
    Command.listenerWrapper c eventType i handler comment
    = bind (tell (Log LInfo line)) (fun _ =>
        if negb (Command.checkRequiredRoles c i)
        then promise (UnifiedInteraction.reply i (Command.requiredRolesErrorMessage c) true)
        else
          let caught (e : JsError) : Eff Completion :=
            bind (tell (Log LError ("Error while executing command " +:+ Command.name c
                                    +:+ " " +:+ errorMessage e))) (fun _ =>
            bind (tell (Log LError "Interaction Object:")) (fun _ =>
            bind (tell (Log LError (errorMessage e))) (fun _ =>
            promise (UnifiedInteraction.reply i
                       "An error occurred while executing the command" true)))) in
          match handler with
          | None => caught (TypeError "handler is not a function")
          | Some h =>
              bind (tell (Invoke (Command.name c) eventType)) (fun _ =>
                match h i with
                | Returns => ret Settled
                | ThrowsSync e => caught e
                | Rejects e => ret (Rejected e)
                end)
          end).
Proof. eexists. reflexivity. Qed.

Lemma listenerWrapper_spec (c : Command.t) (eventType : string)
    (i : UnifiedInteraction.t) (handler : option Handler) (comment : string) :
  (exists r, outcome (Command.listenerWrapper c eventType i handler comment) = Ok r)
  /\ invocations (trace (Command.listenerWrapper c eventType i handler comment))
     = if Command.checkRequiredRoles c i && isFunction handler
       then [Invoke (Command.name c) eventType] else [].
Proof.
  destruct (listenerWrapper_unfold c eventType i handler comment) as [line ->].
  set (generic := UnifiedInteraction.reply i
                    "An error occurred while executing the command" true).
  set (denial := UnifiedInteraction.reply i (Command.requiredRolesErrorMessage c) true).
  destruct (promise_spec generic) as [Hgt [rg Hgo]].
  destruct (promise_spec denial) as [Hdt [rd Hdo]].
  pose proof (invocations_reply i "An error occurred while executing the command" true) as Hgi.
  pose proof (invocations_reply i (Command.requiredRolesErrorMessage c) true) as Hdi.
  fold generic in Hgi. fold denial in Hdi. rewrite <- Hgt in Hgi. rewrite <- Hdt in Hdi.
  destruct (promise generic) as [tg og]. destruct (promise denial) as [td od].
  cbn [trace outcome fst snd] in *. subst og od.
  destruct (Command.checkRequiredRoles c i); cbn [negb andb].
  - destruct handler as [h|]; cbn [isFunction].
    + destruct (h i); cbn; unfold invocations in *; cbn;
        rewrite ?List.filter_app, ?Hgi; cbn; eauto.
    + cbn. unfold invocations in *. cbn. rewrite ?Hgi. eauto.
  - cbn. unfold invocations in *. cbn. rewrite ?Hdi. eauto.
Qed.

(** X14.  The listener wrapper never throws to the emitter, and it calls the
    handler exactly once when the Actor is authorised and the handler is a
    function, and not at all otherwise. *)
Theorem listenerWrapper_invokes_once (c : Command.t) (eventType : string)
    (i : UnifiedInteraction.t) (handler : option Handler) (comment : string) :
  (exists r, outcome (Command.listenerWrapper c eventType i handler comment) = Ok r)
  /\ invocations (trace (Command.listenerWrapper c eventType i handler comment))
     = if Command.checkRequiredRoles c i && isFunction handler
       then [Invoke (Command.name c) eventType] else [].
Proof. exact (listenerWrapper_spec c eventType i handler comment). Qed.

(** X15.  For an authorised Actor: a handler that returns costs no reply; a
    handler that throws before returning, or no handler at all, is answered
    by the reply protocol with the generic failure text, ephemeral; a
    handler whose promise rejects is not answered, the rejection is handed
    to the emitter as it is. *)
Theorem handler_failure_replies (c : Command.t) (eventType : string)
    (i : UnifiedInteraction.t) (handler : option Handler) (comment : string) :
  Command.checkRequiredRoles c i = true ->
  let generic :=
    UnifiedInteraction.reply i "An error occurred while executing the command" true in
  platformReplies (trace (Command.listenerWrapper c eventType i handler comment))
  = match handler with
    | None => platformReplies (trace generic)
    | Some h =>
        match h i with
        | ThrowsSync _ => platformReplies (trace generic)
        | Returns | Rejects _ => []
        end
    end
  /\ forall h e, handler = Some h -> h i = Rejects e ->
       outcome (Command.listenerWrapper c eventType i handler comment)
       = Ok (Rejected e).
Proof.
  intros Hauth generic.
  destruct (listenerWrapper_unfold c eventType i handler comment) as [line ->].
  rewrite Hauth. cbn [negb]. fold generic.
  destruct (promise_spec generic) as [Hgt _].
  destruct (promise generic) as [tg og]. cbn [trace fst] in Hgt. subst tg.
  split.
  - destruct handler as [h|]; [destruct (h i)|]; reflexivity.
  - intros h e -> Hrej. cbn. rewrite Hrej. reflexivity.
Qed.

Lemma handler_failure_replies_witness :
  platformReplies
    (trace (Command.listenerWrapper (Sample.gated "ping" [] false) "Slash Command"
              Sample.deferredInteraction None "in DM"))
  = [ RawReply "An error occurred while executing the command" true;
      RawEditReply "An error occurred while executing the command" true;
      RawFollowUp "An error occurred while executing the command" true ].
Proof.
  rewrite (proj1 (handler_failure_replies (Sample.gated "ping" [] false)
                    "Slash Command" Sample.deferredInteraction None "in DM" eq_refl)).
  reflexivity.
Defined.

Lemma injectEach_throws i opt opts values :
  opt ∈ opts ->
  (forall values', exists e, Command.injectOption i values' opt = Throw e) ->
  exists e, Command.injectEach i values opts = Throw e.
Proof.
  intros Hin Hopt. revert values.
  induction opts as [|o opts IH]; intros values; [by apply elem_of_nil in Hin|].
  cbn [Command.injectEach].
  apply elem_of_cons in Hin as [<- | Hin].
  - destruct (Hopt values) as [e ->]. eauto.
  - destruct (Command.injectOption i values o); [by apply IH | eauto].
Qed.

(** X16.  A declared [user] or [member] option for which the event carries
    no value makes option extraction throw, so the slash-command listener
    throws before its wrapper runs: nothing is logged and the handler is not
    called. *)
Theorem missing_actor_option_throws (c : Command.t) (i : UnifiedInteraction.t)
    (opt : OptionDef) :
  opt ∈ Command.options c ->
  (Js.toLowerCase (opt_type opt) = "user"
   /\ raw_optionUser (UnifiedInteraction.originalObject i)
        !! Js.showUndef (opt_name opt) = None)
  \/ (Js.toLowerCase (opt_type opt) = "member"
      /\ raw_optionMember (UnifiedInteraction.originalObject i)
           !! Js.showUndef (opt_name opt) = None) ->
  (exists e, Command.injectOptions c i = Throw e)
  /\ exists e, Command.call (Command.mkListener c Command.SlashL) i = ([], Throw e).
Proof.
  intros Hin Hmissing.
  assert (Hthrow : exists e, Command.injectOptions c i = Throw e).
  { unfold Command.injectOptions.
    destruct (injectEach_throws i opt (Command.options c) ∅ Hin) as [e ->]; [|eauto].
    intros values'. unfold Command.injectOption.
    destruct Hmissing as [[-> ->] | [-> ->]]; cbn; rewrite ?User_new_nobody; eauto. }
  split; [exact Hthrow|].
  destruct Hthrow as [e He].
  unfold Command.call. cbn [Command.l_kind Command.l_command]. unfold lift.
  destruct (Command.channelComment i) as [comment|e']; cbn; [|eauto].
  rewrite He. cbn. eauto.
Qed.

Lemma missing_actor_option_throws_witness :
  exists e, Command.injectOptions Cases.kick Sample.deferredInteraction = Throw e.
Proof.
  apply (missing_actor_option_throws Cases.kick Sample.deferredInteraction
           Cases.target).
  - apply elem_of_cons. by left.
  - left. split; reflexivity.
Defined.

(** X17.  On a wrapped event the comment of the slash-command and
    message-command listeners cannot be built exactly when the event is not
    a DM and lacks what the comment names: the raw event's [guild] property
    is missing, or the event has a guild and no channel.  Otherwise the
    comment is [in DM] for a DM and names the guild and the channel for a
    guild event.  Classification does not change it. *)
Theorem channelComment_fails_iff (o : RawEvent) (b : BotEnv)
    (i : UnifiedInteraction.t) :
  UnifiedInteraction.new o b = Ok i ->
  ((exists e, Command.channelComment i = Throw e)
   <-> raw_guild o = GuildUndefined
       \/ ((exists g, raw_guild o = GuildObject g) /\ raw_channelName o = None))
  /\ (raw_guild o = GuildNull -> Command.channelComment i = Ok "in DM")
  /\ (forall g channel,
        raw_guild o = GuildObject g -> raw_channelName o = Some channel ->
        Command.channelComment i
        = Ok ("in channel " +:+ guild_name g +:+ "/" +:+ channel))
  /\ Command.channelComment (snd (UnifiedInteraction.eventName i))
     = Command.channelComment i.
Proof.
  unfold UnifiedInteraction.new. destruct (User.new _ _ _) as [a|]; [|discriminate].
  intros [= <-]. split; [|split; [|split]].
  - unfold Command.channelComment.
    cbn [UnifiedInteraction.isDM UnifiedInteraction.guild
         UnifiedInteraction.originalObject].
    destruct (raw_guild o) as [| |g] eqn:Hg; cbn.
    + split; [eauto|]. intros [_ | [[g' Hg'] _]]; [eauto | discriminate].
    + split; [intros [e He]; discriminate|].
      intros [Hg' | [[g' Hg'] _]]; discriminate.
    + destruct (raw_channelName o) as [channel|] eqn:Hch.
      * split; [intros [e He]; discriminate|].
        intros [Hg' | [_ Hch']]; discriminate.
      * split; [eauto 6 | eauto].
  - intros Hg. unfold Command.channelComment.
    cbn [UnifiedInteraction.isDM]. by rewrite Hg.
  - intros g channel Hg Hch. unfold Command.channelComment.
    cbn [UnifiedInteraction.isDM UnifiedInteraction.guild
         UnifiedInteraction.originalObject].
    by rewrite Hg, Hch.
  - rewrite eventName_unfold. cbn [snd].
    destruct (messageCommandMatched _); reflexivity.
Qed.

Lemma channelComment_fails_iff_witness :
  (exists e, Command.channelComment (Sample.wrap Sample.guildless) = Throw e)
  /\ (exists e, Command.channelComment (Sample.wrap Cases.channelless) = Throw e)
  /\ Command.channelComment Sample.bobMessage = Ok "in channel Stable/general".
Proof.
  split; [|split].
  - apply (proj1 (channelComment_fails_iff Sample.guildless Sample.env0
                    (Sample.wrap Sample.guildless) eq_refl)).
    left. reflexivity.
  - apply (proj1 (channelComment_fails_iff Cases.channelless Sample.env0
                    (Sample.wrap Cases.channelless) eq_refl)).
    right. split; [by exists Sample.stable | reflexivity].
  - exact (proj1 (proj2 (proj2 (channelComment_fails_iff
             (Sample.message "hello there" (Some Sample.bob)
                (GuildObject Sample.stable))
             Sample.env0 Sample.bobMessage eq_refl)))
             Sample.stable "general" eq_refl eq_refl).
Defined.

(** ** The bot: command list, live sets and listener table *)

Lemma bind_unfold {A B} (m : Eff A) (k : A -> Eff B) :
  bind m k
  = (trace m ++ match outcome m with Ok a => trace (k a) | Throw _ => [] end,
     match outcome m with Ok a => outcome (k a) | Throw e => Throw e end).
Proof.
  destruct m as [t [a|e]]; cbn.
  - destruct (k a); reflexivity.
  - by rewrite app_nil_r.
Qed.

Lemma bind_ok_inv {A B} (m : Eff A) (k : A -> Eff B) t b :
  bind m k = (t, Ok b) ->
  exists t1 a t2, m = (t1, Ok a) /\ k a = (t2, Ok b) /\ t = t1 ++ t2.
Proof.
  destruct m as [t1 [a|e]]; cbn; [|discriminate].
  destruct (k a) as [t2 r] eqn:Hk. intros [= <- ->]. eauto 6.
Qed.

Lemma listCommands_names (cs : list Command.t) (acc : gset string) n :
  n ∈ foldl (fun acc command =>
               if Command.isMessageCommand command
               then acc ∪ {[Command.name command]} else acc) acc cs
  <-> n ∈ acc \/ exists c, c ∈ cs /\ Command.isMessageCommand c = true
                           /\ Command.name c = n.
Proof.
  revert acc. induction cs as [|c cs IH]; intros acc; cbn [foldl].
  - split; [auto | intros [?|(c & Hc & _)]; [assumption | by apply elem_of_nil in Hc]].
  - rewrite IH. split.
    + intros [Hacc | (c' & Hc' & Hm & Hn)].
      * destruct (Command.isMessageCommand c) eqn:Hc; [|auto].
        apply elem_of_union in Hacc as [Hacc | Hacc]; [auto|].
        apply elem_of_singleton in Hacc. right. exists c.
        split; [apply elem_of_cons; by left | auto].
      * right. exists c'. split; [apply elem_of_cons; by right | auto].
    + intros [Hacc | (c' & Hc' & Hm & Hn)].
      * left. destruct (Command.isMessageCommand c); [|assumption].
        apply elem_of_union. by left.
      * apply elem_of_cons in Hc' as [-> | Hc'].
        -- left. rewrite Hm. apply elem_of_union. right.
           by apply elem_of_singleton.
        -- right. eauto.
Qed.

Lemma listCommands_spec (b : DiscordBot.t) :
  (forall n,
     n ∈ messageCommands (DiscordBot.env (DiscordBot.listCommands b))
     <-> n ∈ messageCommands (DiscordBot.env b)
         \/ exists c, c ∈ DiscordBot.commands b
                      /\ Command.isMessageCommand c = true
                      /\ Command.name c = n)
  /\ DiscordBot.commands (DiscordBot.listCommands b) = DiscordBot.commands b
  /\ DiscordBot.listeners (DiscordBot.listCommands b) = DiscordBot.listeners b
  /\ DiscordBot.listCommands (DiscordBot.listCommands b) = DiscordBot.listCommands b.
Proof.
  split; [intros n; apply listCommands_names|].
  split; [reflexivity|]. split; [reflexivity|].
  unfold DiscordBot.listCommands at 1.
  cbn [DiscordBot.env DiscordBot.commands DiscordBot.listeners prefix
       messageCommands client_user_id client_user_username errorContent].
  unfold DiscordBot.listCommands. f_equal. f_equal.
  cbn [DiscordBot.env DiscordBot.commands messageCommands].
  apply set_eq. intros n. rewrite !listCommands_names.
  split; [intros [[?|?]|?]; auto | intros [?|?]; auto].
Qed.

(** X18.  [_listCommands] adds to the live message-command set exactly the
    names of the commands that are message commands, leaves the commands
    and the listener table as they are, and doing it again changes
    nothing. *)
Theorem listCommands_adds_message_names (b : DiscordBot.t) :
  (forall n,
     n ∈ messageCommands (DiscordBot.env (DiscordBot.listCommands b))
     <-> n ∈ messageCommands (DiscordBot.env b)
         \/ exists c, c ∈ DiscordBot.commands b
                      /\ Command.isMessageCommand c = true
                      /\ Command.name c = n)
  /\ DiscordBot.commands (DiscordBot.listCommands b) = DiscordBot.commands b
  /\ DiscordBot.listeners (DiscordBot.listCommands b) = DiscordBot.listeners b
  /\ DiscordBot.listCommands (DiscordBot.listCommands b) = DiscordBot.listCommands b.
Proof. exact (listCommands_spec b). Qed.

Lemma addCommand_inv d b t b' :
  DiscordBot.addCommand d b = (t, Ok b') ->
  exists c,
    (exists t1, Command.new d (DiscordBot.listeners b)
                = (t1, Ok (c, DiscordBot.listeners b')))
    /\ DiscordBot.env b' = DiscordBot.env b
    /\ DiscordBot.commands b' = DiscordBot.commands b ++ [c]
    /\ forall key,
         Command.listenersOf (DiscordBot.listeners b') key
         = Command.listenersOf (DiscordBot.listeners b) key ++ ownListeners c key.
Proof.
  unfold DiscordBot.addCommand. intros Hadd.
  apply bind_ok_inv in Hadd as (t1 & [c reg] & t2 & Hnew & Hret & _).
  injection Hret as _ <-. cbn.
  exists c. split; [eauto|]. split; [reflexivity|]. split; [reflexivity|].
  intros key. apply new_ok_inv in Hnew as (_ & n & _ & _ & ->).
  apply listenersOf_attachAll.
Qed.

Lemma built_handled d n : handled (built d n).
Proof.
  unfold handled, built.
  destruct (setApiRoot_fields (keptMenus (keptButtons (initial d n))))
    as (_ & _ & _ & _ & -> & -> & -> & -> & _).
  destruct (keptButtons_spec (initial d n)) as (-> & -> & -> & ->).
  split.
  - destruct (isFunction (Command.buttonsHandler (initial d n))); congruence.
  - destruct (isFunction (Command.selectMenusHandler (initial d n))); congruence.
Qed.

Lemma addCommands_indexed ds b t b' :
  DiscordBot.addCommands ds b = (t, Ok b') ->
  indexed b -> (forall c, c ∈ DiscordBot.commands b -> handled c) ->
  indexed b' /\ (forall c, c ∈ DiscordBot.commands b' -> handled c)
  /\ DiscordBot.env b' = DiscordBot.env b.
Proof.
  revert b t. induction ds as [|d ds IH]; intros b t; cbn [DiscordBot.addCommands].
  - intros [= <- <-]. auto.
  - intros Hadd Hidx Hhandled.
    apply bind_ok_inv in Hadd as (t1 & b1 & t2 & Hone & Hrest & _).
    apply addCommand_inv in Hone as (c & [t0 Hnew] & Henv & Hcmds & Hkeys).
    destruct (IH b1 t2 Hrest) as (Hidx' & Hhandled' & Henv').
    + intros key l. rewrite Hkeys, elem_of_app, Hcmds, elem_of_app,
        list_elem_of_singleton, (Hidx key l), ownListeners_spec.
      split.
      * intros [(? & ? & ?) | (? & Hc & ?)]; [auto|]. rewrite Hc. auto.
      * intros (? & [? | Hc] & ?); [auto|]. right. rewrite <- Hc. auto.
    + intros c' Hc'. rewrite Hcmds in Hc'.
      apply elem_of_app in Hc' as [Hc' | Hc']; [by apply Hhandled|].
      apply list_elem_of_singleton in Hc' as ->.
      apply new_ok_inv in Hnew as (_ & n & _ & -> & _). apply built_handled.
    + split; [assumption|]. split; [assumption | congruence].
Qed.

Lemma empty_indexed b :
  DiscordBot.commands b = [] -> DiscordBot.listeners b = ∅ -> indexed b.
Proof.
  intros Hc Hl key l. unfold Command.listenersOf. rewrite Hl, Hc, lookup_empty.
  cbn. split.
  - intros H. by apply elem_of_nil in H.
  - intros (_ & H & _). by apply elem_of_nil in H.
Qed.

Lemma from_empty_indexed ds b0 b t :
  DiscordBot.commands b0 = [] -> DiscordBot.listeners b0 = ∅ ->
  DiscordBot.addCommands ds b0 = (t, Ok b) ->
  indexed b /\ (forall c, c ∈ DiscordBot.commands b -> handled c)
  /\ DiscordBot.env b = DiscordBot.env b0.
Proof.
  intros Hc Hl Hadd.
  apply (addCommands_indexed ds b0 t b Hadd (empty_indexed b0 Hc Hl)).
  intros c Hin. rewrite Hc in Hin. by apply elem_of_nil in Hin.
Qed.

(** X19.  After the commands of a bot that had none are added, the listener
    table is exactly the index of their declarations: a listener is found
    under an event name if and only if it belongs to one of the bot's
    commands, that command declared it, and the name is the listener's own
    event name. *)
Theorem registry_indexes_commands (ds : list CommandDefinition)
    (b0 b : DiscordBot.t) (t : list Effect) :
  DiscordBot.commands b0 = [] -> DiscordBot.listeners b0 = ∅ ->
  DiscordBot.addCommands ds b0 = (t, Ok b) ->
  forall key l,
    l ∈ Command.listenersOf (DiscordBot.listeners b) key
    <-> keyOf l = key /\ Command.l_command l ∈ DiscordBot.commands b
        /\ declares (Command.l_command l) l.
Proof.
  intros Hc Hl Hadd. by apply (from_empty_indexed ds b0 b t).
Qed.

Lemma nonempty_elem {A} (l : list A) : l <> [] <-> exists x, x ∈ l.
Proof.
  destruct l as [|x l]; split.
  - congruence.
  - intros [x Hx]. by apply elem_of_nil in Hx.
  - intros _. exists x. apply elem_of_cons. by left.
  - discriminate.
Qed.

Lemma append_inj_l (p a b : string) : p +:+ a = p +:+ b -> a = b.
Proof. induction p as [|c p IH]; cbn; [auto | intros [= H]; auto]. Qed.

(** X20.  For a bot whose commands were added to an empty bot and then
    listed, the live message-command set is exactly the set of names that
    have a listener under [messageCommand:<name>]: a text classified as a
    message command always finds its listener. *)
Theorem message_command_names_have_listeners (ds : list CommandDefinition)
    (b0 b : DiscordBot.t) (t : list Effect) (n : string) :
  DiscordBot.commands b0 = [] -> DiscordBot.listeners b0 = ∅ ->
  messageCommands (DiscordBot.env b0) = ∅ ->
  DiscordBot.addCommands ds b0 = (t, Ok b) ->
  n ∈ messageCommands (DiscordBot.env (DiscordBot.listCommands b))
  <-> Command.listenersOf (DiscordBot.listeners (DiscordBot.listCommands b))
        ("messageCommand:" +:+ n) <> [].
Proof.
  intros Hc Hl Hm Hadd.
  destruct (from_empty_indexed ds b0 b t Hc Hl Hadd) as (Hidx & _ & Henv).
  destruct (listCommands_spec b) as (Hnames & _ & -> & _).
  rewrite Hnames, Henv, Hm, nonempty_elem. split.
  - intros [Hempty | (c & Hin & Hmsg & <-)]; [by apply not_elem_of_empty in Hempty|].
    exists (Command.mkListener c Command.MessageCommandL).
    apply Hidx. cbn. auto.
  - intros [l Hin]. apply Hidx in Hin as (Hkey & Hcmd & Hdecl).
    right. exists (Command.l_command l). split; [assumption|].
    unfold keyOf, declares in *.
    destruct (Command.l_kind l); try discriminate Hkey.
    split; [assumption|].
    by apply (append_inj_l "messageCommand:").
Qed.

Lemma message_command_names_have_listeners_witness :
  Command.listenersOf (DiscordBot.listeners (DiscordBot.listCommands Cases.loaded))
    "messageCommand:ping" <> [].
Proof.
  apply (message_command_names_have_listeners [Cases.pingDefinition]
           Cases.fresh Cases.loaded [] "ping" eq_refl eq_refl eq_refl eq_refl).
  vm_compute. reflexivity.
Defined.

(** ** Dispatch *)

Lemma call_noncommand l i :
  commandKind l = false ->
  exists comment,
    Command.call l i
    = bind (Command.listenerWrapper (Command.l_command l) (eventTypeOf l) i
              (handlerOf l) comment)
           (fun r => ret (i, r)).
Proof.
  unfold Command.call, commandKind, eventTypeOf, handlerOf.
  destruct (Command.l_kind l); try discriminate; intros _; eexists; reflexivity.
Qed.

Lemma call_noncommand_spec l i :
  commandKind l = false ->
  (exists r, outcome (Command.call l i) = Ok (i, r))
  /\ invocations (trace (Command.call l i)) = invokedBy i l.
Proof.
  intros Hkind. destruct (call_noncommand l i Hkind) as [comment ->].
  destruct (listenerWrapper_spec (Command.l_command l) (eventTypeOf l) i
              (handlerOf l) comment) as [[r Hr] Hinv].
  rewrite bind_unfold, Hr. cbn [trace outcome fst snd ret]. rewrite app_nil_r.
  split; [eauto | exact Hinv].
Qed.

Lemma callListeners_noncommand key ls i :
  forallb (fun l => negb (commandKind l)) ls = true ->
  outcome (DiscordBot.callListeners key ls i) = Ok i
  /\ invocations (trace (DiscordBot.callListeners key ls i))
     = concat (map (invokedBy i) ls).
Proof.
  induction ls as [|l ls IH]; cbn [forallb DiscordBot.callListeners map concat];
    [split; reflexivity|].
  intros Hall. apply andb_true_iff in Hall as [Hl Hall].
  apply negb_true_iff in Hl.
  destruct (call_noncommand_spec l i Hl) as [[r Hr] Hinv].
  destruct (IH Hall) as [IHo IHi].
  rewrite bind_unfold, Hr. cbn [trace outcome fst snd].
  rewrite bind_unfold.
  assert (Hlog : exists t, (match r with
                            | Settled => ret tt
                            | Rejected e =>
                                Command.error ("rejection happened for " +:+ key +:+ " with "
                                               +:+ errorMessage e)
                            end) = (t, Ok tt) /\ invocations t = []).
  { destruct r; eexists; split; reflexivity. }
  destruct Hlog as (tl & -> & Htl). cbn [trace outcome fst snd].
  split; [exact IHo|].
  rewrite !invocations_app, Hinv, Htl, IHi. reflexivity.
Qed.

(** X21.  Listeners attached for buttons, select menus, mentions, plain
    messages and direct messages are all called, in the order they were
    attached: none of them can throw to the emitter, so a handler that
    throws or rejects does not keep the later listeners from running.  The
    handler calls made are those of the authorised listeners that have a
    handler. *)
Theorem noncommand_listeners_all_run (key : string) (ls : list Command.Listener)
    (i : UnifiedInteraction.t) :
  forallb (fun l => negb (commandKind l)) ls = true ->
  outcome (DiscordBot.callListeners key ls i) = Ok i
  /\ invocations (trace (DiscordBot.callListeners key ls i))
     = concat (map (invokedBy i) ls).
Proof. exact (callListeners_noncommand key ls i). Qed.

Lemma noncommand_listeners_all_run_witness :
  invocations
    (trace (DiscordBot.callListeners "button:ping-again"
              [ Command.mkListener (Sample.gated "play" ["dj"] false)
                  (Command.ButtonL "ping-again");
                Command.mkListener Cases.ping (Command.ButtonL "ping-again") ]
              Sample.pingMessage))
  = [Invoke "ping" "Button handler"].
Proof.
  rewrite (proj2 (noncommand_listeners_all_run "button:ping-again"
                    [ Command.mkListener (Sample.gated "play" ["dj"] false)
                        (Command.ButtonL "ping-again");
                      Command.mkListener Cases.ping (Command.ButtonL "ping-again") ]
                    Sample.pingMessage eq_refl)).
  reflexivity.
Defined.

(** No listener of a command sits under an external notification name. *)
Lemma keyOf_not_external l x : keyOf l <> "external:" +:+ x.
Proof. unfold keyOf. destruct (Command.l_kind l); discriminate. Qed.

Lemma indexed_external b x :
  indexed b -> Command.listenersOf (DiscordBot.listeners b) ("external:" +:+ x) = [].
Proof.
  intros Hidx.
  destruct (Command.listenersOf (DiscordBot.listeners b) ("external:" +:+ x))
    as [|l ls] eqn:Hls; [reflexivity|].
  assert (Hl : l ∈ Command.listenersOf (DiscordBot.listeners b) ("external:" +:+ x))
    by (rewrite Hls; apply elem_of_cons; by left).
  apply Hidx in Hl as (Hkey & _). by apply keyOf_not_external in Hkey.
Qed.

(** The dispatch of an event that is not from a bot, on an indexed table. *)
Lemma handleInteraction_announces b incoming t0 i :
  indexed b ->
  DiscordBot.normalize b incoming = (t0, Ok i) ->
  UnifiedInteraction.isFromBot i = false ->
  exists k,
    fst (UnifiedInteraction.eventName i) = Some k
    /\ Js.splitHead ":"%char k ∈ kindNames
    /\ trace (DiscordBot.handleInteraction b incoming)
       = fetchTrace incoming
         ++ Log LInfo ("Interaction received: " +:+ k)
            :: Emit ("external:" +:+ Js.splitHead ":"%char k)
            :: trace (DiscordBot.emit b k (snd (UnifiedInteraction.eventName i)))
    /\ outcome (DiscordBot.handleInteraction b incoming)
       = match outcome (DiscordBot.emit b k (snd (UnifiedInteraction.eventName i))) with
         | Ok _ => Ok tt
         | Throw e => Throw e
         end.
Proof.
  intros Hidx Hnorm Hbot.
  assert (Ht : t0 = fetchTrace incoming).
  { rewrite normalize_unfold in Hnorm. destruct (resolved incoming); congruence. }
  subst t0.
  destruct (eventName_some i) as (k & Hk & Htruthy & Hkind).
  exists k. split; [assumption|]. split; [assumption|].
  unfold DiscordBot.handleInteraction. rewrite Hnorm. cbn [bind]. rewrite Hbot.
  destruct (UnifiedInteraction.eventName i) as [r i'] eqn:Hev.
  cbn [fst snd] in *. subst r. rewrite Htruthy. cbn [Js.showUndef].
  assert (Hext : DiscordBot.emit b ("external:" +:+ Js.splitHead ":"%char k) i'
                 = ([Emit ("external:" +:+ Js.splitHead ":"%char k)], Ok i')).
  { unfold DiscordBot.emit. rewrite (indexed_external b _ Hidx). reflexivity. }
  rewrite Hext. unfold Command.info, tell. cbn [bind].
  destruct (DiscordBot.emit b k i') as [te [i2|e]]; cbn; split; try reflexivity.
  - by rewrite app_nil_r.
Qed.

(** X22.  For a bot whose commands were added to an empty bot, an event that
    normalises and is not written by a bot is always announced: the
    dispatcher logs the kind, emits the external notification named by the
    kind's leading segment, which reaches no command listener, and then
    emits the kind itself; it throws only if a listener of the kind does. *)
Theorem dispatch_announces_then_emits (ds : list CommandDefinition)
    (b0 b : DiscordBot.t) (t : list Effect) (incoming : DiscordBot.Incoming)
    (t0 : list Effect) (i : UnifiedInteraction.t) :
  DiscordBot.commands b0 = [] -> DiscordBot.listeners b0 = ∅ ->
  DiscordBot.addCommands ds b0 = (t, Ok b) ->
  DiscordBot.normalize b incoming = (t0, Ok i) ->
  UnifiedInteraction.isFromBot i = false ->
  exists k,
    fst (UnifiedInteraction.eventName i) = Some k
    /\ Js.splitHead ":"%char k ∈ kindNames
    /\ trace (DiscordBot.handleInteraction b incoming)
       = fetchTrace incoming
         ++ Log LInfo ("Interaction received: " +:+ k)
            :: Emit ("external:" +:+ Js.splitHead ":"%char k)
            :: trace (DiscordBot.emit b k (snd (UnifiedInteraction.eventName i)))
    /\ outcome (DiscordBot.handleInteraction b incoming)
       = match outcome (DiscordBot.emit b k (snd (UnifiedInteraction.eventName i))) with
         | Ok _ => Ok tt
         | Throw e => Throw e
         end.
Proof.
  intros Hc Hl Hadd Hnorm Hbot.
  destruct (from_empty_indexed ds b0 b t Hc Hl Hadd) as (Hidx & _ & _).
  by apply (handleInteraction_announces b incoming t0 i).
Qed.

Lemma dispatch_announces_then_emits_witness :
  exists k,
    fst (UnifiedInteraction.eventName Cases.pressed) = Some k
    /\ Js.splitHead ":"%char k ∈ kindNames.
Proof.
  destruct (dispatch_announces_then_emits [Cases.pingDefinition] Cases.fresh
              Cases.loaded [] (DiscordBot.Full Cases.pressAgain) []
              Cases.pressed
              eq_refl eq_refl eq_refl eq_refl eq_refl) as (k & Hk & Hkind & _).
  exists k. split; assumption.
Defined.

Lemma invocations_elem e t : e ∈ invocations t <-> e ∈ t /\ isInvoke e = true.
Proof.
  unfold invocations. rewrite !list_elem_of_In, filter_In. reflexivity.
Qed.

Lemma elem_of_concat_map {A B} (f : A -> list B) (l : list A) y :
  y ∈ concat (map f l) <-> exists x, x ∈ l /\ y ∈ f x.
Proof.
  induction l as [|x l IH]; cbn.
  - split; [intros H; by apply elem_of_nil in H
           | intros (x & Hx & _); by apply elem_of_nil in Hx].
  - rewrite elem_of_app, IH. split.
    + intros [H | (x' & Hx' & Hy)].
      * exists x. split; [apply elem_of_cons; by left | assumption].
      * exists x'. split; [apply elem_of_cons; by right | assumption].
    + intros (x' & Hx' & Hy). apply elem_of_cons in Hx' as [-> | Hx']; eauto.
Qed.

(** X23.  For a bot whose commands were added to an empty bot: when a user
    who is not a bot presses a button whose custom id a command declares,
    and the user passes that command's role check, the dispatcher calls the
    command's button handler and completes; every handler call it makes for
    the event is a button-handler call. *)
Theorem button_press_reaches_button_handler (ds : list CommandDefinition)
    (b0 b : DiscordBot.t) (t : list Effect) (o : RawEvent)
    (i : UnifiedInteraction.t) (c : Command.t) (id : string) :
  DiscordBot.commands b0 = [] -> DiscordBot.listeners b0 = ∅ ->
  DiscordBot.addCommands ds b0 = (t, Ok b) ->
  UnifiedInteraction.new o (DiscordBot.env b) = Ok i ->
  UnifiedInteraction.isFromBot i = false ->
  raw_customId o = Some id -> id <> EmptyString -> raw_isButton o = Some true ->
  c ∈ DiscordBot.commands b -> id ∈ Command.buttonsHandheld c ->
  Command.checkRequiredRoles c i = true ->
  outcome (DiscordBot.mainListener b (DiscordBot.Full o)) = Ok tt
  /\ Invoke (Command.name c) "Button handler"
     ∈ trace (DiscordBot.mainListener b (DiscordBot.Full o))
  /\ forall name ev,
       Invoke name ev ∈ trace (DiscordBot.mainListener b (DiscordBot.Full o)) ->
       ev = "Button handler".
Proof.
  intros Hc Hl Hadd Hnew Hbot Hid Hne Hbutton Hin Hdecl Hauth.
  destruct (from_empty_indexed ds b0 b t Hc Hl Hadd) as (Hidx & Hhandled & _).
  assert (Horig : UnifiedInteraction.originalObject i = o).
  { unfold UnifiedInteraction.new in Hnew.
    destruct (User.new _ _ _); [|discriminate]. by injection Hnew as <-. }
  assert (HisB : UnifiedInteraction.isButton i = true).
  { unfold UnifiedInteraction.isButton. rewrite Horig, Hid, Hbutton.
    unfold Js.truthy. apply String.eqb_neq in Hne. by rewrite Hne. }
  assert (Hev : UnifiedInteraction.eventName i = (Some ("button:" +:+ id), i)).
  { rewrite eventName_unfold. unfold classifyByPriority, messageCommandMatched.
    rewrite HisB, Horig, Hid. reflexivity. }
  assert (Hnorm : DiscordBot.normalize b (DiscordBot.Full o) = ([], Ok i)).
  { unfold DiscordBot.normalize, lift. by rewrite Hnew. }
  destruct (handleInteraction_announces b (DiscordBot.Full o) [] i Hidx Hnorm Hbot)
    as (k & Hk & _ & Htrace & Hout).
  rewrite Hev in Hk, Htrace, Hout. cbn [fst snd] in Hk, Htrace, Hout.
  injection Hk as <-.
  set (ls := Command.listenersOf (DiscordBot.listeners b) ("button:" +:+ id)) in *.
  assert (Hkinds : forall l, l ∈ ls -> exists id', Command.l_kind l = Command.ButtonL id').
  { intros l Hl'. apply Hidx in Hl' as (Hkey & _). unfold keyOf in Hkey.
    destruct (Command.l_kind l); try discriminate Hkey. eauto. }
  assert (Hall : forallb (fun l => negb (commandKind l)) ls = true).
  { apply forallb_forall. intros l Hl'. apply list_elem_of_In, Hkinds in Hl' as [id' Hk'].
    unfold commandKind. by rewrite Hk'. }
  destruct (callListeners_noncommand ("button:" +:+ id) ls i Hall) as [Hco Hci].
  assert (Hemit : DiscordBot.emit b ("button:" +:+ id) i
                  = (Emit ("button:" +:+ id)
                       :: trace (DiscordBot.callListeners ("button:" +:+ id) ls i),
                     Ok i)).
  { unfold DiscordBot.emit. fold ls. rewrite bind_unfold. cbn [tell trace outcome fst snd].
    rewrite Hco. reflexivity. }
  rewrite Hemit in Htrace, Hout. cbn [trace outcome fst snd] in Htrace, Hout.
  assert (Hmain : DiscordBot.mainListener b (DiscordBot.Full o)
                  = DiscordBot.handleInteraction b (DiscordBot.Full o)).
  { unfold DiscordBot.mainListener.
    destruct (DiscordBot.handleInteraction b (DiscordBot.Full o)) as [th oh].
    cbn in Hout. subst oh. reflexivity. }
  rewrite Hmain, Htrace. split; [exact Hout|]. cbn [fetchTrace app]. split.
  - do 3 (apply elem_of_cons; right).
    apply (proj1 (invocations_elem _ _)). rewrite Hci.
    apply elem_of_concat_map.
    exists (Command.mkListener c (Command.ButtonL id)). split.
    + apply Hidx. cbn. auto.
    + unfold invokedBy. cbn. rewrite Hauth.
      destruct (Hhandled c Hin) as [Hbh _]. rewrite Hbh; [apply elem_of_cons; by left|].
      intros Hnil. rewrite Hnil in Hdecl. by apply elem_of_nil in Hdecl.
  - intros name ev Hinv.
    do 3 (apply elem_of_cons in Hinv as [Hinv | Hinv]; [discriminate|]).
    assert (Hinv' : Invoke name ev
                    ∈ invocations (trace (DiscordBot.callListeners ("button:" +:+ id) ls i)))
      by (apply invocations_elem; auto).
    rewrite Hci in Hinv'. apply elem_of_concat_map in Hinv' as (l & Hl' & Hby).
    destruct (Hkinds l Hl') as [id' Hk'].
    unfold invokedBy, eventTypeOf in Hby. rewrite Hk' in Hby.
    destruct (_ && _); [|by apply elem_of_nil in Hby].
    apply list_elem_of_singleton in Hby. by injection Hby as _ ->.
Qed.

Lemma button_press_reaches_button_handler_witness :
  Invoke "ping" "Button handler"
  ∈ trace (DiscordBot.mainListener Cases.loaded (DiscordBot.Full Cases.pressAgain)).
Proof.
  apply (button_press_reaches_button_handler [Cases.pingDefinition] Cases.fresh
           Cases.loaded [] Cases.pressAgain Cases.pressed
           Cases.ping "ping-again" eq_refl eq_refl eq_refl eq_refl eq_refl
           eq_refl).
  - discriminate.
  - reflexivity.
  - apply elem_of_cons. by left.
  - apply elem_of_cons. by left.
  - reflexivity.
Defined.

(** ** The menu builders *)

Section ButtonRows.

Import MenusBuilders.

Variable prefix : string.

Lemma addButton_invariant done st item :
  rowsInvariant prefix done st ->
  rowsInvariant prefix (done ++ [item]) (addButton prefix st item).
Proof.
  destruct st as [[rows row] rowCount]. unfold rowsInvariant, addButton.
  intros (Hcat & Hcount & Hfull & Hle & Hlen & Hnil & Hpos).
  assert (Hsnoc : forall l : list Item, l ++ [item] <> []) by (intros []; discriminate).
  destruct (Nat.eqb_spec rowCount 5) as [H5 | H5]; cbn [fst snd]; split_and!.
  - rewrite map_app, <- Hcat, concat_app. cbn [concat map].
    by rewrite app_nil_r, app_nil_l, <- app_assoc.
  - reflexivity.
  - apply Forall_app. split; [assumption|]. constructor; [lia | constructor].
  - lia.
  - rewrite !length_app. cbn. lia.
  - intros Habs. by apply Hsnoc in Habs.
  - intros _. lia.
  - rewrite map_app, <- Hcat. cbn [map]. by rewrite <- app_assoc.
  - rewrite length_app. cbn. lia.
  - assumption.
  - lia.
  - rewrite length_app. cbn. lia.
  - intros Habs. by apply Hsnoc in Habs.
  - intros _. lia.
Qed.

Lemma foldl_addButton_invariant items :
  rowsInvariant prefix items (foldl (addButton prefix) ([], [], 0) items).
Proof.
  induction items as [|item items IH] using rev_ind.
  - cbn. split_and!; auto; try lia. intros H. congruence.
  - rewrite foldl_app. cbn [foldl]. by apply addButton_invariant.
Qed.

(** The rows before the test on their number. *)
Lemma rows_before_fallback items :
  exists rows,
    buildButtonsMenu items prefix
    = (if Nat.ltb 5 (length rows)
       then buildSelectMenu items prefix None None None else rows)
    /\ concat rows = map (fun item => ButtonC (button prefix item)) items
    /\ Forall (fun r => 1 <= length r <= 5) rows
    /\ length rows = (length items + 4) / 5.
Proof.
  pose proof (foldl_addButton_invariant items) as Hinv.
  unfold buildButtonsMenu.
  destruct (foldl (addButton prefix) ([], [], 0) items) as [[rows row] rowCount].
  destruct Hinv as (Hcat & Hcount & Hfull & Hle & Hlen & Hnil & Hpos).
  destruct (Nat.ltb_spec 0 rowCount) as [Hgt | Hzero].
  - exists (rows ++ [row]). split; [reflexivity|]. split_and!.
    + rewrite concat_app. cbn. by rewrite app_nil_r.
    + apply Forall_app. split.
      * eapply Forall_impl; [exact Hfull|]. cbn. intros r Hr. lia.
      * constructor; [lia | constructor].
    + rewrite length_app. cbn [length]. rewrite Hlen.
      apply (Nat.div_unique _ 5 _ (rowCount - 1)); lia.
  - assert (Hdone : items = []).
    { destruct items; [reflexivity|]. assert (1 <= rowCount) by (apply Hpos; discriminate). lia. }
    destruct (Hnil Hdone) as [-> ->]. subst items.
    exists []. split_and!; try reflexivity. constructor.
Qed.

End ButtonRows.

(** X24.  For at most twenty-five items, [buildButtonsMenu] lays the items'
    buttons out in rows, in the order of the items: each row holds between
    one and five buttons, there are as many rows as needed and no more than
    five, and each button's custom id is the prefix, a dash and the item's
    id.  With no item there is no row. *)
Theorem buildButtonsMenu_rows (items : list MenusBuilders.Item) (prefix : string) :
  length items <= 25 ->
  let rows := MenusBuilders.buildButtonsMenu items prefix in
  concat rows
  = map (fun item => MenusBuilders.ButtonC (MenusBuilders.button prefix item)) items
  /\ Forall (fun r => 1 <= length r <= 5) rows
  /\ length rows = (length items + 4) / 5
  /\ length rows <= 5.
Proof.
  intros Hle. cbv zeta.
  destruct (rows_before_fallback prefix items) as (rows & -> & Hcat & Hall & Hlen).
  assert (Hrows : length rows <= 5).
  { rewrite Hlen.
    assert ((length items + 4) / 5 < 6)
      by (apply Nat.Div0.div_lt_upper_bound; lia).
    lia. }
  destruct (Nat.ltb_spec 5 (length rows)); [lia|]. auto.
Qed.

Lemma buildButtonsMenu_rows_witness :
  length (MenusBuilders.buildButtonsMenu
            (map (fun n => MenusBuilders.mkItem n n None false None None None)
                 ["a"; "b"; "c"; "d"; "e"; "f"]) "snd") = 2.
Proof.
  rewrite (proj1 (proj2 (proj2 (buildButtonsMenu_rows
             (map (fun n => MenusBuilders.mkItem n n None false None None None)
                  ["a"; "b"; "c"; "d"; "e"; "f"]) "snd" ltac:(cbn; lia))))).
  reflexivity.
Defined.

Lemma buildSelectMenu_options items menu0 :
  MenusBuilders.menu_options
    (foldl (fun menu item =>
              {| MenusBuilders.menu_customId := MenusBuilders.menu_customId menu;
                 MenusBuilders.menu_placeholder := MenusBuilders.menu_placeholder menu;
                 MenusBuilders.menu_minValues := MenusBuilders.menu_minValues menu;
                 MenusBuilders.menu_maxValues := MenusBuilders.menu_maxValues menu;
                 MenusBuilders.menu_options :=
                   MenusBuilders.menu_options menu
                   ++ [MenusBuilders.mkMenuOption (MenusBuilders.item_label item)
                         (MenusBuilders.item_description item)
                         (MenusBuilders.item_id item)] |})
           menu0 items)
  = MenusBuilders.menu_options menu0
    ++ map (fun item => MenusBuilders.mkMenuOption (MenusBuilders.item_label item)
                          (MenusBuilders.item_description item)
                          (MenusBuilders.item_id item)) items
  /\ MenusBuilders.menu_customId
       (foldl (fun menu item =>
              {| MenusBuilders.menu_customId := MenusBuilders.menu_customId menu;
                 MenusBuilders.menu_placeholder := MenusBuilders.menu_placeholder menu;
                 MenusBuilders.menu_minValues := MenusBuilders.menu_minValues menu;
                 MenusBuilders.menu_maxValues := MenusBuilders.menu_maxValues menu;
                 MenusBuilders.menu_options :=
                   MenusBuilders.menu_options menu
                   ++ [MenusBuilders.mkMenuOption (MenusBuilders.item_label item)
                         (MenusBuilders.item_description item)
                         (MenusBuilders.item_id item)] |})
           menu0 items)
     = MenusBuilders.menu_customId menu0.
Proof.
  revert menu0. induction items as [|item items IH]; intros menu0; cbn [foldl map].
  - by rewrite app_nil_r.
  - destruct (IH {| MenusBuilders.menu_customId := MenusBuilders.menu_customId menu0;
                    MenusBuilders.menu_placeholder := MenusBuilders.menu_placeholder menu0;
                    MenusBuilders.menu_minValues := MenusBuilders.menu_minValues menu0;
                    MenusBuilders.menu_maxValues := MenusBuilders.menu_maxValues menu0;
                    MenusBuilders.menu_options :=
                      MenusBuilders.menu_options menu0
                      ++ [MenusBuilders.mkMenuOption (MenusBuilders.item_label item)
                            (MenusBuilders.item_description item)
                            (MenusBuilders.item_id item)] |}) as [-> ->].
    cbn. by rewrite <- app_assoc.
Qed.



(** X26.  The components the sound manager shows are routed to the sound
    command: once the definition [soundCommandBuilder] returns is
    registered, the custom id of the stop button has a button listener of
    that command, calling the builder's buttons handler, and the custom id
    of the select menu has a select-menu listener of that command, calling
    the builder's select-menus handler. *)
Theorem sound_menu_components_are_routed
    (sc : MenusBuilders.SoundCommandDefinition)
    (commandHandler buttonsHandler selectMenusHandler : Handler)
    (soundNames : list string) (reg reg' : Command.Registry)
    (t : list Effect) (c : Command.t) :
  Command.new (MenusBuilders.soundCommandBuilder sc commandHandler buttonsHandler
                 selectMenusHandler) reg
  = (t, Ok (c, reg')) ->
  forall row component,
    row ∈ MenusBuilders.soundMenu sc soundNames -> component ∈ row ->
    match component with
    | MenusBuilders.ButtonC button =>
        exists l,
          l ∈ Command.listenersOf reg'
                ("button:" +:+ MenusBuilders.button_customId button)
          /\ Command.l_command l = c /\ handlerOf l = Some buttonsHandler
    | MenusBuilders.SelectMenuC m =>
        exists l,
          l ∈ Command.listenersOf reg'
                ("selectMenu:" +:+ MenusBuilders.menu_customId m)
          /\ Command.l_command l = c /\ handlerOf l = Some selectMenusHandler
    end.
Proof.
  intros Hnew row component Hrow Hcomp.
  apply new_ok_inv in Hnew as (_ & n & _ & -> & ->).
  set (d := MenusBuilders.soundCommandBuilder sc commandHandler buttonsHandler
              selectMenusHandler) in *.
  assert (Hb : Command.buttonsHandheld (built d n)
               = [default "playsound" (MenusBuilders.sc_buttonPrefix sc) +:+ "-stop"]).
  { unfold built.
    destruct (setApiRoot_fields (keptMenus (keptButtons (initial d n))))
      as (_ & _ & _ & _ & -> & _).
    rewrite (proj1 (keptButtons_spec (initial d n))). reflexivity. }
  assert (Hs : Command.selectMenusHandheld (built d n)
               = [default "playsound" (MenusBuilders.sc_selectMenuName sc)]).
  { unfold built.
    destruct (setApiRoot_fields (keptMenus (keptButtons (initial d n))))
      as (_ & _ & _ & _ & _ & -> & _).
    rewrite (proj1 (proj2 (keptButtons_spec (initial d n)))). reflexivity. }
  assert (Hbh : Command.buttonsHandler (built d n) = Some buttonsHandler).
  { unfold built.
    destruct (setApiRoot_fields (keptMenus (keptButtons (initial d n))))
      as (_ & _ & _ & _ & _ & _ & -> & _).
    rewrite (proj1 (proj2 (proj2 (keptButtons_spec (initial d n))))). reflexivity. }
  assert (Hsh : Command.selectMenusHandler (built d n) = Some selectMenusHandler).
  { unfold built.
    destruct (setApiRoot_fields (keptMenus (keptButtons (initial d n))))
      as (_ & _ & _ & _ & _ & _ & _ & -> & _).
    rewrite (proj2 (proj2 (proj2 (keptButtons_spec (initial d n))))). reflexivity. }
  unfold MenusBuilders.soundMenu, MenusBuilders.menu in Hrow.
  apply elem_of_app in Hrow as [Hrow | Hrow].
  - unfold MenusBuilders.buildSelectMenu in Hrow.
    apply list_elem_of_singleton in Hrow. subst row.
    apply list_elem_of_singleton in Hcomp. subst component.
    match goal with |- context [foldl ?f ?m0 ?items] =>
      destruct (buildSelectMenu_options items m0) as [_ Hid] end.
    rewrite Hid. cbn [MenusBuilders.menu_customId default Nat.ltb Nat.leb].
    exists (Command.mkListener (built d n)
              (Command.SelectMenuL (default "playsound" (MenusBuilders.sc_selectMenuName sc)))).
    split; [|split; [reflexivity | exact Hsh]].
    rewrite listenersOf_attachAll. apply elem_of_app. right.
    apply (ownListeners_spec (built d n)). unfold declares.
    cbn [Command.l_kind Command.l_command keyOf]. split_and!; try reflexivity.
    rewrite Hs. apply elem_of_cons. by left.
  - cbn in Hrow. apply list_elem_of_singleton in Hrow. subst row.
    apply list_elem_of_singleton in Hcomp. subst component.
    cbn [MenusBuilders.button_customId MenusBuilders.button MenusBuilders.item_id].
    exists (Command.mkListener (built d n)
              (Command.ButtonL (default "playsound" (MenusBuilders.sc_buttonPrefix sc)
                                +:+ "-stop"))).
    split; [|split; [reflexivity | exact Hbh]].
    rewrite listenersOf_attachAll. apply elem_of_app. right.
    apply (ownListeners_spec (built d n)). unfold declares.
    cbn [Command.l_kind Command.l_command keyOf]. split_and!; try reflexivity.
    rewrite Hb. apply elem_of_cons. by left.
Qed.

Lemma sound_menu_components_are_routed_witness :
  exists l,
    l ∈ Command.listenersOf (attachAll (attached Cases.soundCommand) ∅)
          "button:playsound-stop"
    /\ Command.l_command l = Cases.soundCommand
    /\ handlerOf l = Some Sample.pong.
Proof.
  apply (sound_menu_components_are_routed Cases.sound Sample.pong Sample.pong
           Sample.pong ["horn"] ∅ (attachAll (attached Cases.soundCommand) ∅) []
           Cases.soundCommand eq_refl
           [MenusBuilders.ButtonC
              (MenusBuilders.button "playsound"
                 (MenusBuilders.mkItem "stop" "Stop" None false
                    (Some MenusBuilders.Danger) None None))]
           (MenusBuilders.ButtonC
              (MenusBuilders.button "playsound"
                 (MenusBuilders.mkItem "stop" "Stop" None false
                    (Some MenusBuilders.Danger) None None)))).
  - apply elem_of_cons. right. apply elem_of_cons. by left.
  - apply elem_of_cons. by left.
Defined.

Lemma User_new_fails_iff_witness :
  User.new None None GuildNull
  = Throw (TypeError "Cannot read properties of undefined (reading 'id')").
Proof.
  apply (proj1 (User_new_fails_iff None None GuildNull)). split; reflexivity.
Defined.

Lemma localized_option_rejected_witness :
  exists e, outcome (Command.new Cases.volumeDefinition ∅) = Throw e.
Proof.
  apply (localized_option_rejected Cases.volumeDefinition ∅
           (mkOptionDef (Some "level") (Some "how loud") "integer" false false true)
           eq_refl).
  - apply elem_of_cons. by left.
  - right. right. reflexivity.
Defined.

Lemma registered_command_invariants_witness :
  Command.name Cases.status = "status"
  /\ Command.apiRoutes Cases.status = [mkApiRoute "GET" "/status/health"].
Proof.
  destruct (registered_command_invariants Cases.statusDefinition ∅
              (attachAll (attached Cases.status) ∅)
              (trace (Command.new Cases.statusDefinition ∅)) Cases.status eq_refl)
    as (n & Hn & Hname & _ & _ & _ & Hroutes & _).
  injection Hn as <-. split; [exact Hname | exact Hroutes].
Defined.

Lemma orphan_identifiers_dropped_witness :
  Command.buttonsHandheld Cases.status = []
  /\ Command.listenersOf (attachAll (attached Cases.status) ∅) "button:refresh" = [].
Proof.
  destruct (orphan_identifiers_dropped Cases.statusDefinition ∅
              (attachAll (attached Cases.status) ∅)
              (trace (Command.new Cases.statusDefinition ∅)) Cases.status eq_refl)
    as (Hb & _ & _ & Hkeep).
  split; [exact Hb | exact (Hkeep eq_refl "refresh")].
Defined.

Lemma registry_indexes_commands_witness :
  Command.mkListener Cases.ping (Command.ButtonL "ping-again")
  ∈ Command.listenersOf (DiscordBot.listeners Cases.loaded) "button:ping-again".
Proof.
  apply (registry_indexes_commands [Cases.pingDefinition] Cases.fresh Cases.loaded []
           eq_refl eq_refl eq_refl).
  cbn. split_and!; try reflexivity.
  - apply elem_of_cons. by left.
  - apply elem_of_cons. by left.
Defined.

(** ** Two edge behaviours *)

(** X27.  [_listen] does not count button and select-menu listeners as
    listening: a command that handles only buttons or select menus, with no
    API route, gets its listeners attached and is still reported as not
    handling anything. *)
Theorem buttons_only_command_reported_idle (c : Command.t) (reg : Command.Registry)
    (id : string) :
  Command.isSlashCommand c = false -> Command.isMessageCommand c = false ->
  isFunction (Command.messageHandler c) = false ->
  isFunction (Command.mentionHandler c) = false ->
  isFunction (Command.dmHandler c) = false ->
  Command.apiRoutes c = [] ->
  id ∈ Command.buttonsHandheld c ->
  exists reg',
    Command.listen c reg
    = ([Log LWarn ("Command " +:+ Command.name c +:+ " is not handling anything!")],
       Ok reg')
    /\ Command.mkListener c (Command.ButtonL id)
       ∈ Command.listenersOf reg' ("button:" +:+ id).
Proof.
  intros Hs Hm Hmsg Hmen Hdm Hr Hid.
  exists (attachAll (attached c) reg). split.
  - rewrite listen_unfold. f_equal.
    unfold Command.listen. rewrite Hs, Hm, Hmsg, Hmen, Hdm, Hr. reflexivity.
  - rewrite listenersOf_attachAll. apply elem_of_app. right.
    apply (ownListeners_spec c). unfold declares. cbn. auto.
Qed.

Lemma buttons_only_command_reported_idle_witness :
  exists reg',
    Command.listen Cases.panel ∅
    = ([Log LWarn "Command panel is not handling anything!"], Ok reg')
    /\ Command.mkListener Cases.panel (Command.ButtonL "again")
       ∈ Command.listenersOf reg' "button:again".
Proof.
  apply (buttons_only_command_reported_idle Cases.panel ∅ "again"
           eq_refl eq_refl eq_refl eq_refl eq_refl eq_refl).
  apply elem_of_cons. by left.
Defined.

Lemma toLowerCase_append a b :
  Js.toLowerCase (a +:+ b) = Js.toLowerCase a +:+ Js.toLowerCase b.
Proof.
  induction a as [|c a IH]; [reflexivity|].
  change (Js.toLowerCase (String c (a +:+ b))
          = String (Js.lowerAscii c) (Js.toLowerCase a +:+ Js.toLowerCase b)).
  cbn [Js.toLowerCase]. f_equal. exact IH.
Qed.

Lemma includes_append a p b : Js.includes (a +:+ p +:+ b) p = true.
Proof.
  induction a as [|c a IH].
  - change (EmptyString +:+ p +:+ b) with (p +:+ b).
    destruct (p +:+ b) eqn:Hpb; cbn [Js.includes]; rewrite <- Hpb, prefix_append;
      reflexivity.
  - change (String c a +:+ p +:+ b) with (String c (a +:+ p +:+ b)).
    cbn [Js.includes]. rewrite IH. apply orb_true_r.
Qed.

(** X28.  The bot's account name anywhere in the text, in any letter case,
    makes an event a mention, unless it is a button, a select menu, a slash
    command or a registered message command; this holds in a direct message
    as well, where the kind is [mention] and not [directMessage]. *)
Theorem name_in_text_is_mention (i : UnifiedInteraction.t) (before name after : string) :
  UnifiedInteraction.isButton i = false ->
  UnifiedInteraction.isSelectMenu i = false ->
  UnifiedInteraction.isSlashCommand i = false ->
  prefixedCommand i = false ->
  Js.toLowerCase name
  = Js.toLowerCase (client_user_username (UnifiedInteraction.bot i)) ->
  UnifiedInteraction.content i = before +:+ name +:+ after ->
  UnifiedInteraction.eventName i = (Some "mention", i).
Proof.
  intros Hb Hs Hc Hp Hname Hcontent.
  assert (Hm : UnifiedInteraction.isMentioningMe i = true).
  { unfold UnifiedInteraction.isMentioningMe.
    rewrite Hcontent, !toLowerCase_append, <- Hname. apply includes_append. }
  rewrite eventName_unfold. unfold classifyByPriority, messageCommandMatched.
  rewrite Hb, Hs, Hc, Hp, Hm, orb_true_r. reflexivity.
Qed.

Lemma name_in_text_is_mention_witness :
  UnifiedInteraction.eventName Cases.shout = (Some "mention", Cases.shout)
  /\ UnifiedInteraction.isDM Cases.shout = true.
Proof.
  split; [|reflexivity].
  apply (name_in_text_is_mention Cases.shout "Hey " "UNICORN" "!"
           eq_refl eq_refl eq_refl eq_refl eq_refl eq_refl).
Defined.
